(** * video-gen: the outline / glow / shadow stylizer and its two drivers

    Shallow embedding of [scripts/create-human-outline.py] and
    [scripts/extract-foreground.py].

    - uint8 pixels are [Z] values in 0..255, a single-channel image is a list
      of rows, a multi-channel image a list of rows of pixels (channel lists);
    - Python exceptions are the [Raise] outcome of a [result];
    - the numpy and OpenCV primitives the scripts call are modelled in the
      modules [Np] and [Cv2]; [cv2.GaussianBlur], whose arithmetic is
      internal to OpenCV, stays a parameter of the development;
    - the drivers run in a state monad over the temporary directories. *)

From Stdlib Require Import ZArith List Lia Bool Floats.
From Stdlib Require String.
Import ListNotations.
Open Scope Z_scope.
Set Warnings "-inexact-float".

(** ** Exceptions and results *)

Inductive exn : Type :=
| ZeroDivisionError
| IndexError
| ValueError
| cv2_error
| CalledProcessError.

Inductive result (A : Type) : Type :=
| Ok (a : A)
| Raise (e : exn).
Arguments Ok {A} a.
Arguments Raise {A} e.

Definition rbind {A B} (c : result A) (k : A -> result B) : result B :=
  match c with
  | Ok a => k a
  | Raise e => Raise e
  end.

Declare Scope result_scope.
Delimit Scope result_scope with result.
Notation "x <- c ;; k" := (rbind c (fun x => k))
  (at level 100, c at next level, right associativity) : result_scope.

Definition is_ok {A} (r : result A) : bool :=
  match r with Ok _ => true | Raise _ => false end.

(** Python's [a % b] on ints: floor modulus, [ZeroDivisionError] when
    [b = 0]. *)
Definition py_mod (a b : Z) : result Z :=
  if b =? 0 then Raise ZeroDivisionError else Ok (a mod b).

(** ** numpy arrays *)

Abbreviation image := (list (list Z)).

Module Np.

(** Row lengths of an array; two arrays have the same spatial dimensions
    when their [dims] agree. *)
Definition dims {A} (a : list (list A)) : list nat := map (@length A) a.

(** [a.shape] of a 2-D array. *)
Definition shape {A} (a : list (list A)) : nat * nat :=
  (length a, length (hd [] a)).

(** An h x w array. *)
Definition rect {A} (h w : nat) (a : list (list A)) : Prop :=
  dims a = repeat w h.

Definition px (a : image) (i j : nat) : Z := nth j (nth i a []) 0.

Definition full {A} (h w : nat) (v : A) : list (list A) :=
  repeat (repeat v w) h.

(** [np.zeros_like(a)] *)
Definition zeros_like (a : image) : image := map (map (fun _ => 0)) a.

Definition map2 {A B C} (f : A -> B -> C) (a : list (list A))
  (b : list (list B)) : list (list C) :=
  map (fun rs => map (fun p => f (fst p) (snd p)) (combine (fst rs) (snd rs)))
      (combine a b).

(** Normalisation of a slice bound [k] against a length [n]: negative
    bounds count from the end, everything is clamped to [0..n]. *)
Definition slice_bound (n : nat) (k : Z) : nat :=
  if k <? 0 then Z.to_nat (Z.max (Z.of_nat n + k) 0)
  else Nat.min (Z.to_nat k) n.

(** [a[:r, :c]] together with its shape. *)
Definition slice_head (a : image) (r c : Z) : image * (nat * nat) :=
  let '(h, w) := shape a in
  let r' := slice_bound h r in
  let c' := slice_bound w c in
  (map (firstn c') (firstn r' a), (r', c')).

(** numpy broadcasting of a source of shape [(rs, cs)] to a target of
    shape [(rt, ct)]: each axis must agree or have length 1. *)
Definition broadcastable (rs cs rt ct : nat) : bool :=
  ((rs =? rt)%nat || (rs =? 1)%nat) && ((cs =? ct)%nat || (cs =? 1)%nat).

Definition broadcast {A} (d : A) (rs cs rt ct : nat) (src : list (list A))
  : list (list A) :=
  let rows := if (rs =? rt)%nat then src else repeat (nth 0 src []) rt in
  map (fun r => if (cs =? ct)%nat then r else repeat (nth 0 r d) ct) rows.

(** [dst[r0:, c0:] = src] for [0 <= r0], [0 <= c0]; [ValueError] when the
    source does not broadcast to the target region. *)
Definition assign_tail (dst : image) (r0 c0 : Z) (src : image * (nat * nat))
  : result image :=
  let '(h, w) := shape dst in
  let r := slice_bound h r0 in
  let c := slice_bound w c0 in
  let '(s, (rs, cs)) := src in
  let rt := (h - r)%nat in
  let ct := (w - c)%nat in
  if broadcastable rs cs rt ct then
    Ok (firstn r dst ++
        map (fun ds => firstn c (fst ds) ++ snd ds)
            (combine (skipn r dst) (broadcast 0 rs cs rt ct s)))
  else Raise ValueError.

(** [np.clip(a, lo, hi)] *)
Definition clip (a : image) (lo hi : Z) : image :=
  map (map (fun v => Z.max lo (Z.min hi v))) a.

(** Truncation of a binary64 value towards zero. *)
Definition trunc_float (f : float) : Z :=
  match Prim2SF f with
  | S754_finite s m e =>
      let a := if 0 <=? e then Z.pos m * 2 ^ e else Z.pos m / 2 ^ (- e) in
      if s then - a else a
  | _ => 0
  end.

(** [(a * opacity).astype(np.uint8)]: the uint8 pixel is promoted to
    float64, multiplied, and truncated back to uint8. *)
Definition scale_px (opacity : float) (v : Z) : Z :=
  trunc_float (PrimFloat.mul (PrimFloat.of_uint63 (Uint63.of_Z v)) opacity)
    mod 256.

Definition scale_astype (a : image) (opacity : float) : image :=
  map (map (scale_px opacity)) a.

End Np.

(** ** OpenCV primitives *)

Module Cv2.

(** [cv2.threshold(src, thresh, maxval, cv2.THRESH_BINARY)] *)
Definition threshold_px (thresh maxval v : Z) : Z :=
  if v >? thresh then maxval else 0.

Definition threshold (src : image) (thresh maxval : Z) : image :=
  map (map (threshold_px thresh maxval)) src.

(** A structuring element is kept as the list of (row, column) offsets
    of its non-zero cells relative to the anchor. *)
Abbreviation kernel := (list (Z * Z)).

(** Half-width of row [i] of the ellipse inscribed in a [ksize] square:
    OpenCV's [cvRound(c * sqrt((r*r - dy*dy) / (r*r)))] with [r = c]. *)
Definition ellipse_dx (r dy : Z) : Z := (Z.sqrt (4 * (r * r - dy * dy)) + 1) / 2.

Definition ellipse_cell (ksize i j : Z) : bool :=
  if ksize =? 1 then true
  else
    let r := ksize / 2 in
    let dy := i - r in
    if Z.abs dy <=? r then
      let dx := ellipse_dx r dy in
      (Z.max (r - dx) 0 <=? j) && (j <? Z.min (r + dx + 1) ksize)
    else false.

(** The non-zero cells of the [ksize] x [ksize] elliptic element, as
    offsets from the default anchor, the centre [ksize / 2]. *)
Definition ellipse (ksize : Z) : kernel :=
  let n := seq 0 (Z.to_nat ksize) in
  let a := ksize / 2 in
  flat_map
    (fun i =>
       flat_map
         (fun j =>
            if ellipse_cell ksize (Z.of_nat i) (Z.of_nat j)
            then [(Z.of_nat i - a, Z.of_nat j - a)] else [])
         n)
    n.

(** [cv2.getStructuringElement(cv2.MORPH_ELLIPSE, (ksize, ksize))]; the
    anchor must lie inside the element, so an empty size is rejected. *)
Definition getStructuringElement_ELLIPSE (ksize : Z) : result kernel :=
  if ksize <=? 0 then Raise cv2_error else Ok (ellipse ksize).

(** Pixel at a possibly out-of-frame position. *)
Definition at_offset (a : image) (i j : nat) (o : Z * Z) : option Z :=
  let y := Z.of_nat i + fst o in
  let x := Z.of_nat j + snd o in
  if (0 <=? y) && (0 <=? x) then
    match nth_error a (Z.to_nat y) with
    | Some row => nth_error row (Z.to_nat x)
    | None => None
    end
  else None.

(** The pixels of [a] under the kernel anchored at [(i, j)]; cells that
    fall outside the frame do not take part (the default border). *)
Definition neighbourhood (a : image) (k : kernel) (i j : nat) : list Z :=
  flat_map (fun o => match at_offset a i j o with
                     | Some v => [v]
                     | None => []
                     end) k.

(** An array of the dimensions of [a] whose pixel [(i, j)] is [f i j]. *)
Definition tabulate (a : image) (f : nat -> nat -> Z) : image :=
  map (fun ir => map (fun j => f (fst ir) j) (seq 0 (length (snd ir))))
      (combine (seq 0 (length a)) a).

(** [cv2.dilate(src, kernel, iterations=1)] *)
Definition dilate (src : image) (k : kernel) : image :=
  tabulate src (fun i j => fold_right Z.max 0 (neighbourhood src k i j)).

(** [cv2.erode(src, kernel, iterations=1)] *)
Definition erode (src : image) (k : kernel) : image :=
  tabulate src (fun i j => fold_right Z.min 255 (neighbourhood src k i j)).

(** [cv2.morphologyEx(src, cv2.MORPH_CLOSE, kernel)] *)
Definition morphologyEx_CLOSE (src : image) (k : kernel) : image :=
  erode (dilate src k) k.

(** [cv2.subtract] and [cv2.add] on uint8: saturating.  Every call in the
    scripts passes two arrays derived from the same mask. *)
Definition subtract (a b : image) : image :=
  Np.map2 (fun x y => Z.max 0 (x - y)) a b.

Definition add (a b : image) : image :=
  Np.map2 (fun x y => Z.min 255 (x + y)) a b.

(** [cv2.GaussianBlur] accepts only positive odd kernel widths. *)
Definition valid_ksize (k : Z) : bool := (0 <? k) && Z.odd k.

End Cv2.

(** ** The Stylizer *)

(** The intermediate images of an outline derivation: the binary subject
    mask, its inner dilation, the sharp inner stroke and the outer glow
    region before it is blurred. *)
Record layers : Type := {
  binary : image;
  dilated_inner : image;
  inner : image;
  outer : image
}.

Section Stylizer.

Local Open Scope result_scope.

(** [cv2.GaussianBlur(src, (ksize, ksize), 0)] for a valid [ksize]. *)
Variable GaussianBlur : Z -> image -> image.

Definition GaussianBlur_checked (src : image) (ksize : Z) : result image :=
  if Cv2.valid_ksize ksize then Ok (GaussianBlur ksize src)
  else Raise cv2_error.

(** create-human-outline.py, [create_outline_from_mask], lines 28-39:
    [binary_mask], [dilated_inner], [inner_outline] and the unblurred
    [outer_glow]. *)
Definition outline_from_mask_layers (mask : image) (stroke_size : Z)
  : result layers :=
  let binary_mask := Cv2.threshold mask 127 255 in
  kernel_inner <- Cv2.getStructuringElement_ELLIPSE (stroke_size + 1) ;;
  let dilated_inner := Cv2.dilate binary_mask kernel_inner in
  let inner_outline := Cv2.subtract dilated_inner binary_mask in
  kernel_outer <- Cv2.getStructuringElement_ELLIPSE (stroke_size * 3 + 1) ;;
  let dilated_outer := Cv2.dilate binary_mask kernel_outer in
  let outer_glow := Cv2.subtract dilated_outer binary_mask in
  Ok {| binary := binary_mask; dilated_inner := dilated_inner;
        inner := inner_outline; outer := outer_glow |}.

(** [create_outline_from_mask], lines 41-49. *)
Definition create_outline_from_mask (mask : image) (stroke_size : Z)
  : result image :=
  l <- outline_from_mask_layers mask stroke_size ;;
  outer_glow <- GaussianBlur_checked (outer l) (stroke_size * 4 + 1) ;;
  let outer_glow := Np.scale_astype outer_glow 0.6%float in
  let combined := Cv2.add outer_glow (inner l) in
  let combined := Np.clip combined 0 255 in
  Ok combined.

(** extract-foreground.py, [create_outline], lines 56-70: [binary] after
    the 3x3 closing, [dilated], [inner] and the unblurred [outer]. *)
Definition outline_layers (alpha : image) (stroke_size : Z) : result layers :=
  let binary := Cv2.threshold alpha 127 255 in
  k3 <- Cv2.getStructuringElement_ELLIPSE 3 ;;
  let binary := Cv2.morphologyEx_CLOSE binary k3 in
  kernel <- Cv2.getStructuringElement_ELLIPSE stroke_size ;;
  let dilated := Cv2.dilate binary kernel in
  let inner := Cv2.subtract dilated binary in
  kernel2 <- Cv2.getStructuringElement_ELLIPSE (stroke_size * 2) ;;
  let dilated2 := Cv2.dilate binary kernel2 in
  let outer := Cv2.subtract dilated2 dilated in
  Ok {| binary := binary; dilated_inner := dilated;
        inner := inner; outer := outer |}.

(** [create_outline], lines 71-74. *)
Definition create_outline (alpha : image) (stroke_size : Z) : result image :=
  l <- outline_layers alpha stroke_size ;;
  outer <- GaussianBlur_checked (outer l) (Z.lor stroke_size 1) ;;
  let outer := Np.scale_astype outer 0.5%float in
  Ok (Np.clip (Cv2.add outer (inner l)) 0 255).

(** extract-foreground.py, [create_shadow], lines 78-83: the blurred,
    attenuated shadow before it is offset. *)
Definition shadow_layer (alpha : image) (blur : Z) (opacity : float)
  : result image :=
  let binary := Cv2.threshold alpha 100 255 in
  kernel <- Cv2.getStructuringElement_ELLIPSE 5 ;;
  let shadow := Cv2.dilate binary kernel in
  shadow <- GaussianBlur_checked shadow (Z.lor blur 1) ;;
  Ok (Np.scale_astype shadow opacity).

(** [create_shadow], lines 86-91: the offset. *)
Definition shadow_offset (shadow : image) (offset_x offset_y : Z)
  : result image :=
  let '(h, w) := Np.shape shadow in
  let result := Np.zeros_like shadow in
  if (offset_y >=? 0) && (offset_x >=? 0) then
    Np.assign_tail result offset_y offset_x
      (Np.slice_head shadow (Z.of_nat h - offset_y) (Z.of_nat w - offset_x))
  else Ok result.

(** [create_shadow(alpha, offset_x=10, offset_y=12, blur=25,
    opacity=0.35)] *)
Definition create_shadow (alpha : image) (offset_x offset_y blur : Z)
  (opacity : float) : result image :=
  shadow <- shadow_layer alpha blur opacity ;;
  shadow_offset shadow offset_x offset_y.

Definition create_shadow_default (alpha : image) : result image :=
  create_shadow alpha 10 12 25 0.35%float.

End Stylizer.

(** A Gaussian kernel of width 1 is the single weight 1, so a blur of that
    width returns its input; [blur1] runs the scripts on inputs where only
    that width matters and is the executable stand-in elsewhere. *)
Definition blur1 (ksize : Z) (src : image) : image := src.

(** ** The Frame Compositor *)

(** A multi-channel array: rows of pixels, a pixel being its channels. *)
Abbreviation rgba := (list (list (list Z))).

(** What the Mask Source hands back after [np.array(result)]: a
    single-channel (2-D) or a multi-channel (3-D) array. *)
Inductive ndarray : Type :=
| Arr2 (a : image)
| Arr3 (a : rgba).

Module Compose.

Local Open Scope result_scope.

(** [a.shape[2]] of a 3-D array: the channel count. *)
Definition channels (a : rgba) : Z := Z.of_nat (length (hd [] (hd [] a))).

(** [a[:, :, c]] *)
Definition channel (c : nat) (a : rgba) : image := map (map (fun p => nth c p 0)) a.

(** [dst[:, :, 3] = alpha], with numpy's broadcasting check. *)
Definition set_alpha (dst : rgba) (alpha : image) : result rgba :=
  let '(h, w) := Np.shape dst in
  let '(rs, cs) := Np.shape alpha in
  if Np.broadcastable rs cs h w then
    Ok (Np.map2 (fun p a => firstn 3 p ++ [a]) dst
                (Np.broadcast 0 rs cs h w alpha))
  else Raise ValueError.

(** [cv2.cvtColor(a, cv2.COLOR_RGBA2BGRA)] *)
Definition cvtColor_RGBA2BGRA (a : rgba) : rgba :=
  map (map (fun p => [nth 2 p 0; nth 1 p 0; nth 0 p 0; nth 3 p 0])) a.

(** [cv2.cvtColor(a, cv2.COLOR_RGB2BGRA)]: OpenCV accepts 3 or 4 source
    channels here and adds an opaque alpha to a 3-channel source. *)
Definition cvtColor_RGB2BGRA (channels : Z) (a : rgba) : result rgba :=
  if channels =? 3 then
    Ok (map (map (fun p => [nth 2 p 0; nth 1 p 0; nth 0 p 0; 255])) a)
  else if channels =? 4 then Ok (cvtColor_RGBA2BGRA a)
  else Raise cv2_error.

(** [np.zeros((height, width, 4))] with the three colour channels set to
    [colour] and the alpha channel to [alpha]. *)
Definition flat_colour (height width : nat) (colour : Z) (alpha : image)
  : result rgba :=
  set_alpha (Np.full height width [colour; colour; colour; 0]) alpha.

End Compose.

(** ** The drivers *)

Inductive stream : Type := Fg | Outline | Shadow.

(** The part of the file system a run owns: the still images of the
    temporary directories in the order they were written, each keyed by its
    stream and frame number, and the encoded videos.  [segmented] records
    the frame numbers handed to the Mask Source. *)
Record world : Type := {
  tmp : list (stream * Z * rgba);
  videos : list stream;
  segmented : list Z
}.

Definition empty_world : world :=
  {| tmp := []; videos := []; segmented := [] |}.

(** A computation may change the world and either returns or raises; what
    was written before an exception stays written. *)
Definition IO (A : Type) : Type := world -> result A * world.

Definition ret {A} (a : A) : IO A := fun w => (Ok a, w).

Definition bind {A B} (c : IO A) (k : A -> IO B) : IO B :=
  fun w => match c w with
           | (Ok a, w') => k a w'
           | (Raise e, w') => (Raise e, w')
           end.

Definition lift {A} (r : result A) : IO A := fun w => (r, w).

Declare Scope io_scope.
Delimit Scope io_scope with io.
Notation "x <- c ;; k" := (bind c (fun x => k))
  (at level 100, c at next level, right associativity) : io_scope.
Notation "c ;;; k" := (bind c (fun _ => k))
  (at level 100, right associativity) : io_scope.

(** [cv2.imwrite(str(dir / name), img)] *)
Definition imwrite (s : stream) (n : Z) (img : rgba) : IO unit :=
  fun w => (Ok tt, {| tmp := tmp w ++ [(s, n, img)];
                      videos := videos w; segmented := segmented w |}).

(** Deleting every still image of the given streams. *)
Definition remove_frames (dirs : list stream) : IO unit :=
  fun w => (Ok tt,
            {| tmp := filter (fun f => negb (existsb
                                  (fun d => match d, fst (fst f) with
                                            | Fg, Fg | Outline, Outline
                                            | Shadow, Shadow => true
                                            | _, _ => false
                                            end) dirs)) (tmp w);
               videos := videos w; segmented := segmented w |}).

Definition note_segmented (n : Z) : IO unit :=
  fun w => (Ok tt, {| tmp := tmp w; videos := videos w;
                      segmented := segmented w ++ [n] |}).

(** An opened [cap = cv2.VideoCapture(input_path)]: the frames
    [cap.read()] yields in turn and the frame size it reports. *)
Record capture (Frame : Type) : Type := {
  frames : list Frame;
  width : nat;
  height : nat
}.
Arguments frames {Frame} c.
Arguments width {Frame} c.
Arguments height {Frame} c.

(** The three images written for a frame by extract-foreground.py. *)
Record styled : Type := {
  fg_rgba : rgba;
  outline_rgba : rgba;
  shadow_rgba : rgba
}.

(** The loop variables of [process_video]. *)
Record pv_locals : Type := {
  frame_count : Z;
  processed_count : Z;
  last_outline : option image
}.

(** The loop variables of [process_video_fast]; [last_fg], [last_outline]
    and [last_shadow] are assigned together and kept as one [last]. *)
Record fast_locals : Type := {
  frame_idx : Z;
  processed : Z;
  last : option styled
}.

Section Drivers.

Local Open Scope io_scope.

Context {Frame : Type}.

Variable GaussianBlur : Z -> image -> image.

(** Exit status of the encoder run for a stream; 0 is success. *)
Variable ffmpeg : stream -> Z.

Definition run_ffmpeg (s : stream) : IO Z :=
  fun w => (Ok (ffmpeg s),
            {| tmp := tmp w;
               videos := if ffmpeg s =? 0 then videos w ++ [s] else videos w;
               segmented := segmented w |}).

(** *** create-human-outline.py *)

(** [np.array(remove(pil_image, session=session, only_mask=True))] *)
Variable remove_mask : Frame -> image.

(** Lines 105-118: the fresh computation. *)
Definition pv_fresh (stroke_size : Z) (frame_count : Z) (l : pv_locals)
  (frame : Frame) : IO (image * pv_locals) :=
  note_segmented frame_count ;;;
  let mask := remove_mask frame in
  outline <- lift (create_outline_from_mask GaussianBlur mask stroke_size) ;;
  ret (outline, {| frame_count := frame_count;
                   processed_count := processed_count l + 1;
                   last_outline := Some outline |}).

(** Lines 101-134: one pass of the [while] loop. *)
Definition pv_frame (c : capture Frame) (stroke_size sample_rate : Z)
  (l : pv_locals) (frame : Frame) : IO pv_locals :=
  let frame_count := frame_count l + 1 in
  m <- lift (py_mod frame_count sample_rate) ;;
  ol <- match last_outline l with
        | None => pv_fresh stroke_size frame_count l frame
        | Some last_outline =>
            if m =? 0 then pv_fresh stroke_size frame_count l frame
            else ret (last_outline,
                      {| frame_count := frame_count;
                         processed_count := processed_count l;
                         last_outline := Some last_outline |})
        end ;;
  outline_bgra <- lift (Compose.flat_colour (height c) (width c) 255 (fst ol)) ;;
  imwrite Outline frame_count outline_bgra ;;;
  ret (snd ol).

Fixpoint pv_loop (c : capture Frame) (stroke_size sample_rate : Z)
  (fs : list Frame) (l : pv_locals) : IO pv_locals :=
  match fs with
  | [] => ret l
  | frame :: fs' =>
      l' <- pv_frame c stroke_size sample_rate l frame ;;
      pv_loop c stroke_size sample_rate fs' l'
  end.

Definition pv_init : pv_locals :=
  {| frame_count := 0; processed_count := 0; last_outline := None |}.

(** [process_video(input_path, output_path, stroke_size, sample_rate)]:
    the loop, then [os.system(ffmpeg_cmd)], whose status is dropped, then
    the clean-up of lines 150-152. *)
Definition process_video (c : capture Frame) (stroke_size sample_rate : Z)
  : IO unit :=
  _ <- pv_loop c stroke_size sample_rate (frames c) pv_init ;;
  _ <- run_ffmpeg Outline ;;
  remove_frames [Outline] ;;;
  ret tt.

(** [main]: [--stroke] and [--sample] are [type=int] options with
    defaults 10 and 2; whatever integer is given is passed on. *)
Definition main (c : capture Frame) (stroke sample : option Z) : IO unit :=
  process_video c (match stroke with Some n => n | None => 10 end)
                  (match sample with Some n => n | None => 2 end).

(** *** extract-foreground.py *)

(** [np.array(remove(pil_img, session=session, alpha_matting=False))] *)
Variable remove_rgba : Frame -> ndarray.

(** Lines 143-150: the mask and the foreground taken from the Mask
    Source's array. *)
Definition fast_alpha (c : capture Frame) (result_np : ndarray)
  : result (image * rgba) :=
  (match result_np with
   | Arr2 _ => Raise IndexError
   | Arr3 result_np =>
       if Compose.channels result_np =? 4 then
         Ok (Compose.channel 3 result_np,
             Compose.cvtColor_RGBA2BGRA result_np)
       else
         let alpha := Np.full (height c) (width c) 255 in
         fg_rgba <- Compose.cvtColor_RGB2BGRA
                      (Compose.channels result_np) result_np ;;
         fg_rgba <- Compose.set_alpha fg_rgba alpha ;;
         Ok (alpha, fg_rgba)
   end)%result.

(** Lines 137-169: the fresh computation. *)
Definition fast_fresh (c : capture Frame) (stroke_size : Z) (frame : Frame)
  : result styled :=
  (af <- fast_alpha c (remove_rgba frame) ;;
   alpha <- GaussianBlur_checked GaussianBlur (fst af) 3 ;;
   fg <- Compose.set_alpha (snd af) alpha ;;
   outline_alpha <- create_outline GaussianBlur alpha stroke_size ;;
   outline <- Compose.flat_colour (height c) (width c) 255 outline_alpha ;;
   shadow_alpha <- create_shadow_default GaussianBlur alpha ;;
   shadow <- Compose.flat_colour (height c) (width c) 0 shadow_alpha ;;
   Ok {| fg_rgba := fg; outline_rgba := outline; shadow_rgba := shadow |}
  )%result.

(** Lines 176-179. *)
Definition write_frames (n : Z) (s : option styled) : IO unit :=
  match s with
  | Some s =>
      imwrite Fg n (fg_rgba s) ;;;
      imwrite Outline n (outline_rgba s) ;;;
      imwrite Shadow n (shadow_rgba s)
  | None => ret tt
  end.

(** Lines 136-181: one pass of the [while] loop. *)
Definition fast_frame (c : capture Frame) (stroke_size sample_rate : Z)
  (l : fast_locals) (frame : Frame) : IO fast_locals :=
  m <- lift (py_mod (frame_idx l) sample_rate) ;;
  l1 <- (if m =? 0 then
           note_segmented (frame_idx l) ;;;
           s <- lift (fast_fresh c stroke_size frame) ;;
           ret {| frame_idx := frame_idx l;
                  processed := processed l + 1;
                  last := Some s |}
         else ret l) ;;
  write_frames (frame_idx l1) (last l1) ;;;
  ret {| frame_idx := frame_idx l1 + 1;
         processed := processed l1;
         last := last l1 |}.

Fixpoint fast_loop (c : capture Frame) (stroke_size sample_rate : Z)
  (fs : list Frame) (l : fast_locals) : IO fast_locals :=
  match fs with
  | [] => ret l
  | frame :: fs' =>
      l' <- fast_frame c stroke_size sample_rate l frame ;;
      fast_loop c stroke_size sample_rate fs' l'
  end.

Definition fast_init : fast_locals :=
  {| frame_idx := 0; processed := 0; last := None |}.

(** [encode]: [subprocess.run(cmd, capture_output=True, check=True)]. *)
Definition encode (s : stream) : IO unit :=
  status <- run_ffmpeg s ;;
  if status =? 0 then ret tt else lift (Raise CalledProcessError).

(** [process_video_fast(input_path, fg_output, outline_output,
    stroke_size, sample_rate)]: the loop, the three [encode] calls, then
    [shutil.rmtree(temp_dir)]. *)
Definition process_video_fast (c : capture Frame)
  (stroke_size sample_rate : Z) : IO unit :=
  _ <- fast_loop c stroke_size sample_rate (frames c) fast_init ;;
  encode Fg ;;;
  encode Outline ;;;
  encode Shadow ;;;
  remove_frames [Fg; Outline; Shadow] ;;;
  ret tt.

(** The [__main__] block: defaults 12 and 4. *)
Definition main_fast (c : capture Frame) (stroke sample : option Z) : IO unit :=
  process_video_fast c (match stroke with Some n => n | None => 12 end)
                       (match sample with Some n => n | None => 4 end).

End Drivers.

(** ** The segmentation session of extract-foreground.py *)

Module Session.

Import String.
Local Open Scope string_scope.

(** What [get_fast_session] reads from its environment: [platform.system()],
    [platform.machine()], and [onnxruntime]'s
    [get_available_providers()], which raises when the package cannot be
    imported. *)
Record env : Type := {
  system : string;
  machine : string;
  available_providers : result (list string)
}.

(** Lines 31-45: the execution providers, in order of preference. *)
Definition providers (e : env) : list string :=
  let providers := [] in
  let providers :=
    if (system e =? "Darwin") && (machine e =? "arm64")
    then (providers ++ ["CoreMLExecutionProvider"])%list else providers in
  let providers :=
    match available_providers e with
    | Ok available =>
        if existsb (String.eqb "CUDAExecutionProvider") available
        then (providers ++ ["CUDAExecutionProvider"])%list else providers
    | Raise _ => providers
    end in
  (providers ++ ["CPUExecutionProvider"])%list.

Section WithRembg.

(** [rembg.new_session(model_name, providers=...)]; [None] stands for the
    call without the [providers] argument. *)
Variable session : Type.
Variable new_session : string -> option (list string) -> result session.

(** [get_fast_session()]: the session on the preferred providers, and on
    any exception the plain ["u2net"] session. *)
Definition get_fast_session (e : env) : result session :=
  match new_session "u2net" (Some (providers e)) with
  | Ok s => Ok s
  | Raise _ => new_session "u2net" None
  end.

End WithRembg.

End Session.

(** ** Vocabulary of the statements *)

(** Every pixel is 0 or 255. *)
Definition binary_valued (a : image) : Prop :=
  Forall (Forall (fun v => v = 0 \/ v = 255)) a.

(** Every pixel is fully transparent. *)
Definition all_zero (a : image) : Prop := Forall (Forall (fun v => v = 0)) a.

(** Blurring is the one primitive kept abstract; what the development
    assumes of it is that it keeps the dimensions of its input. *)
Definition keeps_dims (blur : Z -> image -> image) : Prop :=
  forall k a, Np.dims (blur k a) = Np.dims a.

(** A still image of a stream's temporary directory. *)
Definition is_frame_of (s : stream) (f : stream * Z * rgba) : bool :=
  match s, fst (fst f) with
  | Fg, Fg | Outline, Outline | Shadow, Shadow => true
  | _, _ => false
  end.

(** A four-frame clip of 3x3 frames whose subject is the centre pixel, with
    a Mask Source that returns the frame itself as the mask. *)
Definition dot (v : Z) : image := [[0; 0; 0]; [0; v; 0]; [0; 0; 0]].

Definition clip4 : capture image :=
  {| frames := [dot 255; dot 0; dot 200; dot 130]; width := 3; height := 3 |}.

Definition stub_mask (frame : image) : image := frame.

Definition stub_rgba (frame : image) : ndarray :=
  Arr3 (map (map (fun v => [v; v; v; v])) frame).

(** The frame numbers [start], [start + 1], ... paired with a list. *)
Fixpoint numbered {A} (start : Z) (l : list A) : list (Z * A) :=
  match l with
  | [] => []
  | x :: t => (start, x) :: numbered (start + 1) t
  end.

(** The files [process_video] leaves for the outputs [outs]. *)
Definition outline_files (start : Z) (outs : list rgba)
  : list (stream * Z * rgba) :=
  map (fun no => (Outline, fst no, snd no)) (numbered start outs).

(** The files [process_video_fast] leaves for the outputs [outs]. *)
Definition styled_files (start : Z) (outs : list styled)
  : list (stream * Z * rgba) :=
  flat_map (fun no => [(Fg, fst no, fg_rgba (snd no));
                       (Outline, fst no, outline_rgba (snd no));
                       (Shadow, fst no, shadow_rgba (snd no))])
           (numbered start outs).

(** What [process_video] writes for a frame it segments: the outline of
    the frame's mask as the alpha of a white image. *)
Definition pv_styled {Frame : Type} (blur : Z -> image -> image)
  (remove_mask : Frame -> image) (c : capture Frame) (stroke_size : Z)
  (frame : Frame) : result rgba :=
  (outline <- create_outline_from_mask blur (remove_mask frame) stroke_size ;;
   Compose.flat_colour (height c) (width c) 255 outline)%result.

(** The sampling decision of each script for the frame at 0-based position
    [i], the run having started at position [a] with ([first = false]) or
    without ([first = true]) an earlier result.  extract-foreground.py
    tests the 0-based [frame_idx]; create-human-outline.py tests the
    1-based [frame_count] and also segments when nothing is held yet. *)
Definition fresh_fast (N : Z) (i : nat) : bool := Z.of_nat i mod N =? 0.

Definition fresh_pv_from (N : Z) (first : bool) (a i : nat) : bool :=
  (first && (i =? a)%nat) || ((Z.of_nat i + 1) mod N =? 0).

Definition fresh_pv (N : Z) (i : nat) : bool := fresh_pv_from N true 0 i.

(** [outs] is a hold-last rendering of [fs]: a frame chosen by [fresh] gets
    its own styled result, any other frame the output of the frame before
    it, [before] standing for the output before the first frame. *)
Definition sampled_and_held {Frame Out : Type} (fresh : nat -> bool)
  (styled : Frame -> result Out) (before : option Out) (fs : list Frame)
  (outs : list Out) : Prop :=
  length outs = length fs /\
  forall j f, nth_error fs j = Some f ->
    if fresh j
    then exists o, nth_error outs j = Some o /\ styled f = Ok o
    else nth_error outs j = match j with
                            | O => before
                            | S j' => nth_error outs j'
                            end.

(** The image [process_video] would write for the outline it holds. *)
Definition held_image {Frame : Type} (c : capture Frame) (l : pv_locals)
  (prev : option rgba) : Prop :=
  match last_outline l, prev with
  | None, None => True
  | Some o, Some img => Compose.flat_colour (height c) (width c) 255 o = Ok img
  | _, _ => False
  end.

Definition nothing_yet {A} (prev : option A) : bool :=
  match prev with None => true | Some _ => false end.


(** A subject pixel directly above or to the left of [(i, j)] in the
    binary mask [b]. *)
Definition subject_above_or_left (b : image) (i j : nat) : Prop :=
  ((0 < i)%nat /\ Np.px b (i - 1) j = 255) \/
  ((0 < j)%nat /\ Np.px b i (j - 1) = 255).

(** A binary mask whose subject fills the bottom-right corner. *)
Definition corner : image := [[0; 0; 0]; [0; 255; 255]; [0; 255; 255]].

(** A binary mask with a one-pixel hole. *)
Definition ring : image := [[255; 255; 255]; [255; 0; 255]; [255; 255; 255]].

(** The outline derivation by its steps: the inner stroke is the binary
    mask [b] dilated by the [k_in]-wide ellipse minus [b]; the glow region
    is [b] dilated by the [k_out]-wide ellipse minus [removed]; the glow is
    that region blurred with a [k_blur]-wide kernel and attenuated by
    [opacity]; the outline is their saturating sum. *)
Definition inner_stroke (b : image) (k_in : Z) : image :=
  Cv2.subtract (Cv2.dilate b (Cv2.ellipse k_in)) b.

Definition glow_region (b : image) (k_out : Z) (removed : image) : image :=
  Cv2.subtract (Cv2.dilate b (Cv2.ellipse k_out)) removed.

Definition outline_alpha (blur : Z -> image -> image) (b : image)
  (k_in k_out k_blur : Z) (removed : image) (opacity : float) : image :=
  Cv2.add (Np.scale_astype (blur k_blur (glow_region b k_out removed)) opacity)
          (inner_stroke b k_in).

(** Every pixel is a uint8 value. *)
Definition uint8_valued (a : image) : Prop :=
  Forall (Forall (fun v => 0 <= v <= 255)) a.

(** The position of the frame most recently segmented by
    extract-foreground.py when it reaches position [i]: the last multiple
    of [N] up to [i]. *)
Definition latest_sampled (N : Z) (i : nat) : nat :=
  Z.to_nat (Z.of_nat i - Z.of_nat i mod N).

(** A blur returns an image without subject as it is. *)
Definition keeps_zero (blur : Z -> image -> image) : Prop :=
  forall k a, all_zero a -> blur k a = a.

(** The mask has no pixel above the threshold, or none at or below it. *)
Definition uniform_at (t : Z) (a : image) (h w : nat) : Prop :=
  (forall i j, (i < h)%nat -> (j < w)%nat -> Np.px a i j <= t) \/
  (forall i j, (i < h)%nat -> (j < w)%nat -> t < Np.px a i j).

(** Every pixel of the [h] x [w] frame is 0 or 255. *)
Definition binary_on (h w : nat) (a : image) : Prop :=
  forall i j, (i < h)%nat -> (j < w)%nat -> Np.px a i j = 0 \/ Np.px a i j = 255.

(** The inner stroke [inner l] is hard-edged, stays off the subject
    [binary l], and is fully opaque in the outline [out]. *)
Definition stroke_is_sharp (h w : nat) (l : layers) (out : image) : Prop :=
  forall i j, (i < h)%nat -> (j < w)%nat ->
    (Np.px (inner l) i j = 0 \/ Np.px (inner l) i j = 255) /\
    (Np.px (binary l) i j = 255 -> Np.px (inner l) i j = 0) /\
    (Np.px (inner l) i j = 255 -> Np.px out i j = 255).

(** The channels of pixel [(i, j)] of a multi-channel array. *)
Definition pixel (a : rgba) (i j : nat) : list Z := nth j (nth i a []) [].

(** The mask has a subject pixel and a background pixel. *)
Definition non_trivial (M : image) (h w : nat) : Prop :=
  (exists i j, (i < h)%nat /\ (j < w)%nat /\ 127 < Np.px M i j) /\
  (exists i j, (i < h)%nat /\ (j < w)%nat /\ Np.px M i j <= 127).

(** What stroke size 1 needs of the 5-wide blur: on a uint8 image it
    returns uint8 values and does not extinguish a full-intensity pixel
    (the centre weight of OpenCV's 5 x 5 kernel is 36/256). *)
Definition peak_survives (blur : Z -> image -> image) : Prop :=
  forall a i j, uint8_valued a -> Np.px a i j = 255 ->
    2 <= Np.px (blur 5 a) i j <= 255.

(** A Mask Source that forgets the alpha channel: three channels only. *)
Definition stub_rgb (frame : image) : ndarray :=
  Arr3 (map (map (fun v => [v; v; v])) frame).

(** * Properties *)

(** ** Thresholding *)

Lemma threshold_px_fixes_binary (v : Z) :
  v = 0 \/ v = 255 -> Cv2.threshold_px 127 255 v = v.
Proof. intros [-> | ->]; reflexivity. Qed.

Lemma map_fixes {A} (g : A -> A) (l : list A) :
  Forall (fun x => g x = x) l -> map g l = l.
Proof.
  induction 1 as [|x l Hx _ IH]; simpl; [reflexivity|].
  now rewrite Hx, IH.
Qed.

(** C8: the binarize step leaves an already binary mask unchanged, pixel by
    pixel (0 stays 0 and 255 stays 255) and therefore as a whole, and the
    binary layer [create_outline_from_mask] works on is the mask itself. *)
Theorem binarize_idempotent_on_binary (mask : image) :
  binary_valued mask ->
  (forall v, v = 0 \/ v = 255 -> Cv2.threshold_px 127 255 v = v) /\
  Cv2.threshold mask 127 255 = mask /\
  Cv2.threshold (Cv2.threshold mask 127 255) 127 255 = Cv2.threshold mask 127 255 /\
  (forall s l, outline_from_mask_layers mask s = Ok l -> binary l = mask).
Proof.
  intros Hb.
  assert (Hfix : Cv2.threshold mask 127 255 = mask).
  { unfold Cv2.threshold. apply map_fixes.
    eapply Forall_impl; [|exact Hb].
    intros row Hrow. apply map_fixes.
    eapply Forall_impl; [|exact Hrow].
    intros v Hv. now apply threshold_px_fixes_binary. }
  split; [|split; [|split]].
  - exact threshold_px_fixes_binary.
  - exact Hfix.
  - now rewrite Hfix.
  - intros s l. unfold outline_from_mask_layers, Cv2.getStructuringElement_ELLIPSE.
    destruct (s + 1 <=? 0); [discriminate|].
    destruct (s * 3 + 1 <=? 0); [discriminate|].
    cbn [rbind]. intros [= <-]. exact Hfix.
Qed.

Lemma binarize_idempotent_on_binary_witness :
  binary_valued [[0; 255]; [255; 0]] /\
  Cv2.threshold [[0; 255]; [255; 0]] 127 255 = [[0; 255]; [255; 0]].
Proof.
  assert (H : binary_valued [[0; 255]; [255; 0]]).
  { repeat (apply Forall_cons || apply Forall_nil);
      first [left; reflexivity | right; reflexivity]. }
  split; [exact H|].
  exact (proj1 (proj2 (binarize_idempotent_on_binary _ H))).
Defined.

(** ** The sampling interval 0 *)

(** C10: [--sample 0] is passed on unchecked, and the sampling test of the
    first frame raises [ZeroDivisionError] in both scripts: the run ends
    with the exception, having written nothing and encoded nothing. *)
Theorem sample_zero_raises_on_first_frame
  {Frame : Type} (blur : Z -> image -> image) (ffmpeg : stream -> Z)
  (remove_mask : Frame -> image) (remove_rgba : Frame -> ndarray)
  (c : capture Frame) (stroke : option Z) (w : world) :
  frames c <> [] ->
  main blur ffmpeg remove_mask c stroke (Some 0) w = (Raise ZeroDivisionError, w) /\
  main_fast blur ffmpeg remove_rgba c stroke (Some 0) w
    = (Raise ZeroDivisionError, w).
Proof.
  intros Hne. unfold main, main_fast, process_video, process_video_fast.
  destruct (frames c) as [|frame fs]; [contradiction|].
  split; reflexivity.
Qed.

Lemma sample_zero_raises_on_first_frame_witness :
  main blur1 (fun _ => 0) stub_mask clip4 None (Some 0) empty_world
    = (Raise ZeroDivisionError, empty_world) /\
  main_fast blur1 (fun _ => 0) stub_rgba clip4 None (Some 0) empty_world
    = (Raise ZeroDivisionError, empty_world).
Proof.
  apply (sample_zero_raises_on_first_frame blur1 (fun _ => 0) stub_mask
           stub_rgba clip4 None empty_world).
  discriminate.
Defined.

(** ** Encoder failure *)

Lemma remove_frames_tmp (dirs : list stream) (w : world) (f : stream * Z * rgba) :
  In f (tmp (snd (remove_frames dirs w))) ->
  forall s, In s dirs -> is_frame_of s f = false.
Proof.
  unfold remove_frames. cbn [snd tmp]. intros Hin s Hs.
  apply filter_In in Hin. destruct Hin as [_ Hneg].
  apply negb_true_iff in Hneg.
  destruct (is_frame_of s f) eqn:E; [|reflexivity].
  rewrite <- Hneg. symmetry. apply existsb_exists.
  exists s. split; [exact Hs|].
  unfold is_frame_of in E. exact E.
Qed.

(** C3, create-human-outline.py: whatever status the encoder exits with,
    [process_video] returns normally, and the still images of the outline
    directory are deleted; with a non-zero status no video was produced
    either.  The failure is neither propagated nor are the frames kept. *)
Theorem process_video_swallows_encoder_failure
  {Frame : Type} (blur : Z -> image -> image) (ffmpeg : stream -> Z)
  (remove_mask : Frame -> image) (c : capture Frame) (stroke sample : Z)
  (w : world) :
  let after_loop := pv_loop blur remove_mask c stroke sample (frames c) pv_init w in
  is_ok (fst after_loop) = true ->
  ffmpeg Outline <> 0 ->
  exists w',
    process_video blur ffmpeg remove_mask c stroke sample w = (Ok tt, w') /\
    videos w' = videos (snd after_loop) /\
    (forall f, In f (tmp w') -> is_frame_of Outline f = false).
Proof.
  intros after_loop Hok Hst. unfold process_video, bind at 1.
  fold after_loop. destruct after_loop as [[l|e] w1]; [|discriminate].
  unfold bind, run_ffmpeg, ret.
  apply Z.eqb_neq in Hst. rewrite Hst.
  eexists. split; [reflexivity|]. split; [reflexivity|].
  intros f Hin.
  apply (remove_frames_tmp [Outline] _ f Hin Outline). now left.
Qed.

Lemma process_video_swallows_encoder_failure_witness :
  exists w',
    process_video blur1 (fun _ => 1) stub_mask clip4 1 2 empty_world = (Ok tt, w') /\
    videos w' = [] /\
    (forall f, In f (tmp w') -> is_frame_of Outline f = false).
Proof.
  apply (process_video_swallows_encoder_failure blur1 (fun _ => 1) stub_mask
           clip4 1 2 empty_world).
  - vm_compute. reflexivity.
  - discriminate.
Defined.

(** extract-foreground.py does propagate: when one of the three encoder
    runs exits non-zero, [process_video_fast] raises and every still image
    written by the loop is still there. *)
Lemma process_video_fast_encoder_failure
  {Frame : Type} (blur : Z -> image -> image) (ffmpeg : stream -> Z)
  (remove_rgba : Frame -> ndarray) (c : capture Frame) (stroke sample : Z)
  (w : world) :
  let after_loop :=
    fast_loop blur remove_rgba c stroke sample (frames c) fast_init w in
  is_ok (fst after_loop) = true ->
  ffmpeg Fg <> 0 \/ ffmpeg Outline <> 0 \/ ffmpeg Shadow <> 0 ->
  exists w',
    process_video_fast blur ffmpeg remove_rgba c stroke sample w
      = (Raise CalledProcessError, w') /\
    tmp w' = tmp (snd after_loop).
Proof.
  intros after_loop Hok Hst. unfold process_video_fast, bind at 1.
  fold after_loop. destruct after_loop as [[l|e] w1]; [|discriminate].
  unfold encode, run_ffmpeg, bind, ret, lift. cbn [snd tmp videos segmented].
  destruct (ffmpeg Fg =? 0) eqn:E1;
    [|eexists; split; reflexivity].
  destruct (ffmpeg Outline =? 0) eqn:E2;
    [|eexists; split; reflexivity].
  destruct (ffmpeg Shadow =? 0) eqn:E3;
    [|eexists; split; reflexivity].
  apply Z.eqb_eq in E1, E2, E3. lia.
Qed.

(** ... and on success the temporary directories are emptied. *)
Lemma process_video_fast_success_cleans
  {Frame : Type} (blur : Z -> image -> image) (ffmpeg : stream -> Z)
  (remove_rgba : Frame -> ndarray) (c : capture Frame) (stroke sample : Z)
  (w : world) :
  let after_loop :=
    fast_loop blur remove_rgba c stroke sample (frames c) fast_init w in
  is_ok (fst after_loop) = true ->
  ffmpeg Fg = 0 -> ffmpeg Outline = 0 -> ffmpeg Shadow = 0 ->
  exists w',
    process_video_fast blur ffmpeg remove_rgba c stroke sample w = (Ok tt, w') /\
    tmp w' = [] /\
    videos w' = videos (snd after_loop) ++ [Fg; Outline; Shadow].
Proof.
  intros after_loop Hok E1 E2 E3. unfold process_video_fast, bind at 1.
  fold after_loop. destruct after_loop as [[l|e] w1]; [|discriminate].
  unfold encode, run_ffmpeg, bind, ret, lift, remove_frames.
  rewrite E1, E2, E3. cbn [Z.eqb snd tmp videos segmented].
  eexists. split; [reflexivity|]. cbn [tmp videos]. split.
  - induction (tmp w1) as [|[[s n] img] t IH]; [reflexivity|].
    cbn. destruct s; cbn; exact IH.
  - now rewrite <- !app_assoc.
Qed.

(** ** Dimensions of the array primitives *)

Lemma dims_map_map {A B} (g : A -> B) (a : list (list A)) :
  Np.dims (map (map g) a) = Np.dims a.
Proof.
  unfold Np.dims. rewrite map_map. apply map_ext.
  intros r. apply length_map.
Qed.

Lemma dims_tabulate (a : image) (f : nat -> nat -> Z) :
  Np.dims (Cv2.tabulate a f) = Np.dims a.
Proof.
  unfold Np.dims, Cv2.tabulate. rewrite map_map.
  assert (H : forall s,
    map (fun ir : nat * list Z =>
           length (map (fun j => f (fst ir) j) (seq 0 (length (snd ir)))))
        (combine (seq s (length a)) a) = map (@length Z) a).
  { induction a as [|r a IH]; intros s; [reflexivity|].
    cbn [length seq combine map fst snd].
    rewrite length_map, length_seq. f_equal. apply IH. }
  apply H.
Qed.

Lemma dims_map2 {A B C} (f : A -> B -> C) (a : list (list A)) (b : list (list B)) :
  Np.dims a = Np.dims b -> Np.dims (Np.map2 f a b) = Np.dims a.
Proof.
  unfold Np.dims, Np.map2. revert b.
  induction a as [|r a IH]; intros [|r' b] H; try discriminate; [reflexivity|].
  cbn in H. injection H as Hr Ht. cbn. f_equal.
  - rewrite length_map, length_combine. lia.
  - now apply IH.
Qed.

Lemma dims_zeros_like (a : image) : Np.dims (Np.zeros_like a) = Np.dims a.
Proof. apply dims_map_map. Qed.

Lemma all_zero_zeros_like (a : image) : all_zero (Np.zeros_like a).
Proof.
  unfold all_zero, Np.zeros_like.
  apply Forall_forall. intros r Hr. apply in_map_iff in Hr.
  destruct Hr as [r0 [<- _]].
  apply Forall_forall. intros v Hv. apply in_map_iff in Hv.
  now destruct Hv as [v0 [<- _]].
Qed.

Lemma valid_ksize_lor_1 (b : Z) : 0 <= b -> Cv2.valid_ksize (Z.lor b 1) = true.
Proof.
  intros Hb. unfold Cv2.valid_ksize.
  assert (Hodd : Z.odd (Z.lor b 1) = true).
  { rewrite <- Z.bit0_odd, Z.lor_spec. apply orb_true_r. }
  rewrite Hodd, andb_true_r. apply Z.ltb_lt.
  assert (0 <= Z.lor b 1) by (apply Z.lor_nonneg; lia).
  assert (Z.lor b 1 <> 0) by (intros E; rewrite E in Hodd; discriminate).
  lia.
Qed.

Lemma blur1_keeps_dims : keeps_dims blur1.
Proof. intros k a. reflexivity. Qed.

Lemma shadow_layer_dims (blur : Z -> image -> image) (alpha : image) (b : Z)
  (opacity : float) (shadow : image) :
  keeps_dims blur ->
  shadow_layer blur alpha b opacity = Ok shadow ->
  Np.dims shadow = Np.dims alpha.
Proof.
  intros Hblur. unfold shadow_layer, Cv2.getStructuringElement_ELLIPSE.
  change (5 <=? 0) with false. cbn [rbind].
  unfold GaussianBlur_checked.
  destruct (Cv2.valid_ksize (Z.lor b 1)); [|discriminate].
  cbn [rbind]. intros [= <-].
  unfold Np.scale_astype, Cv2.threshold, Cv2.dilate.
  now rewrite dims_map_map, Hblur, dims_tabulate, dims_map_map.
Qed.

Lemma shadow_layer_ok (blur : Z -> image -> image) (alpha : image) (b : Z)
  (opacity : float) :
  0 <= b -> is_ok (shadow_layer blur alpha b opacity) = true.
Proof.
  intros Hb. unfold shadow_layer, Cv2.getStructuringElement_ELLIPSE.
  change (5 <=? 0) with false. cbn [rbind].
  unfold GaussianBlur_checked. now rewrite valid_ksize_lor_1.
Qed.

(** ** Negative shadow offsets *)

(** C7, as the code has it: a negative offset is not rejected.  The guard
    of line 88 skips the copy, and [create_shadow] returns a fully
    transparent image of the mask's dimensions without raising. *)
Theorem negative_offset_gives_empty_shadow
  (blur : Z -> image -> image) (alpha : image) (offset_x offset_y b : Z)
  (opacity : float) :
  keeps_dims blur -> 0 <= b ->
  offset_x < 0 \/ offset_y < 0 ->
  exists out,
    create_shadow blur alpha offset_x offset_y b opacity = Ok out /\
    Np.dims out = Np.dims alpha /\
    all_zero out.
Proof.
  intros Hblur Hb Hneg. unfold create_shadow.
  pose proof (shadow_layer_ok blur alpha b opacity Hb) as Hok.
  destruct (shadow_layer blur alpha b opacity) as [shadow|e] eqn:E;
    [|discriminate].
  cbn [rbind]. unfold shadow_offset.
  destruct (Np.shape shadow) as [h w].
  assert (G : (offset_y >=? 0) && (offset_x >=? 0) = false).
  { apply andb_false_iff.
    destruct Hneg; [right|left]; rewrite Z.geb_leb; apply Z.leb_gt; lia. }
  rewrite G. eexists. split; [reflexivity|]. split.
  - rewrite dims_zeros_like. eapply shadow_layer_dims; eassumption.
  - apply all_zero_zeros_like.
Qed.

Lemma negative_offset_gives_empty_shadow_witness :
  exists out,
    create_shadow blur1 (Np.full 2 2 255) (-3) 2 25 0.35%float = Ok out /\
    Np.dims out = Np.dims (Np.full 2 2 255) /\
    all_zero out.
Proof.
  apply negative_offset_gives_empty_shadow.
  - exact blur1_keeps_dims.
  - lia.
  - left. lia.
Defined.

(** C7 as stated fails: with the offset (-3, 2) the call returns, and
    returns an empty shadow for a fully opaque mask. *)
Lemma negative_offset_is_not_rejected :
  create_shadow blur1 (Np.full 2 2 255) (-3) 2 25 0.35%float
    = Ok [[0; 0]; [0; 0]] /\
  shadow_offset [[89; 89]; [89; 89]] (-3) 2 = Ok [[0; 0]; [0; 0]].
Proof. split; vm_compute; reflexivity. Qed.

(** ** The shadow offset *)

Lemma firstn_repeat {A} (x : A) (n m : nat) :
  (n <= m)%nat -> firstn n (repeat x m) = repeat x n.
Proof.
  revert m. induction n as [|n IH]; intros [|m] H; cbn; try reflexivity; try lia.
  f_equal. apply IH. lia.
Qed.

Lemma skipn_repeat {A} (x : A) (n m : nat) :
  skipn n (repeat x m) = repeat x (m - n).
Proof.
  revert m. induction n as [|n IH]; intros [|m]; cbn; try reflexivity.
  apply IH.
Qed.

Lemma combine_repeat_l {A B C} (x : A) (g : A -> B -> C) (l : list B) (n : nat) :
  (length l <= n)%nat ->
  map (fun ds => g (fst ds) (snd ds)) (combine (repeat x n) l) = map (g x) l.
Proof.
  revert n. induction l as [|y l IH]; intros [|n] H; cbn in *; try reflexivity; try lia.
  f_equal. apply IH. lia.
Qed.

Lemma rect_length {A} (h w : nat) (a : list (list A)) :
  Np.rect h w a -> length a = h.
Proof.
  unfold Np.rect, Np.dims. intros H.
  rewrite <- (length_map (@length A) a), H. apply repeat_length.
Qed.

Lemma rect_rows {A} (h w : nat) (a : list (list A)) :
  Np.rect h w a -> Forall (fun r => length r = w) a.
Proof.
  unfold Np.rect, Np.dims. revert h.
  induction a as [|r a IH]; intros [|h] H; try discriminate; constructor.
  - now injection H.
  - injection H as _ H. now apply (IH h).
Qed.

Lemma rect_shape {A} (h w : nat) (a : list (list A)) :
  Np.rect h w a -> (0 < h)%nat -> Np.shape a = (h, w).
Proof.
  intros H Hh. unfold Np.shape. rewrite (rect_length _ _ _ H).
  destruct a as [|r a].
  - apply rect_length in H. cbn in H. lia.
  - apply rect_rows in H. inversion H; subst. reflexivity.
Qed.

Lemma zeros_like_rect (h w : nat) (a : image) :
  Np.rect h w a -> Np.zeros_like a = repeat (repeat 0 w) h.
Proof.
  intros H. pose proof (rect_rows _ _ _ H) as Hrows.
  apply rect_length in H. subst h. unfold Np.zeros_like.
  induction Hrows as [|r a Hr _ IH]; [reflexivity|].
  cbn. f_equal; [|exact IH].
  subst w. clear. induction r; cbn; congruence.
Qed.

Lemma rect_zeros_like (h w : nat) (a : image) :
  Np.rect h w a -> Np.rect h w (Np.zeros_like a).
Proof. unfold Np.rect. now rewrite dims_zeros_like. Qed.

Lemma slice_bound_of_nat (n k : nat) :
  (k <= n)%nat -> Np.slice_bound n (Z.of_nat k) = k.
Proof.
  intros H. unfold Np.slice_bound.
  destruct (Z.ltb_spec (Z.of_nat k) 0); lia.
Qed.

Lemma slice_bound_sub (n k : nat) :
  (k <= n)%nat -> Np.slice_bound n (Z.of_nat n - Z.of_nat k) = (n - k)%nat.
Proof.
  intros H. unfold Np.slice_bound.
  destruct (Z.ltb_spec (Z.of_nat n - Z.of_nat k) 0); lia.
Qed.

(** Within the frame the offset is the translation with zero fill: the
    result is [dy] transparent rows followed by the first [h - dy] rows of
    the shadow, each shifted right behind [dx] transparent pixels and cut
    at the right edge. *)
Lemma shadow_offset_in_frame (shadow : image) (h w dx dy : nat) :
  Np.rect h w shadow -> (dx <= w)%nat -> (dy <= h)%nat ->
  shadow_offset shadow (Z.of_nat dx) (Z.of_nat dy)
    = Ok (repeat (repeat 0 w) dy ++
          map (fun row => repeat 0 dx ++ firstn (w - dx) row)
              (firstn (h - dy) shadow)).
Proof.
  intros Hrect Hdx Hdy. unfold shadow_offset.
  assert (G : (Z.of_nat dy >=? 0) && (Z.of_nat dx >=? 0) = true).
  { rewrite !Z.geb_leb. apply andb_true_iff. split; apply Z.leb_le; lia. }
  destruct h as [|h'].
  - pose proof (rect_length _ _ _ Hrect) as L.
    destruct shadow; [|discriminate]. assert (dy = 0)%nat by lia. subst dy.
    cbn. destruct (Z.of_nat dx >=? 0); [|reflexivity].
    unfold Np.assign_tail, Np.slice_head, Np.shape, Np.slice_bound. cbn.
    replace (Z.to_nat (Z.max (- Z.of_nat dx) 0)) with 0%nat by lia.
    destruct (Z.of_nat dx <? 0), (- Z.of_nat dx <? 0);
      rewrite ?Nat.min_0_r; reflexivity.
  - set (h := S h') in *.
    rewrite (rect_shape h w shadow Hrect) by (subst h; lia).
    rewrite G. unfold Np.slice_head.
    rewrite (rect_shape h w shadow Hrect) by (subst h; lia).
    rewrite !slice_bound_sub by assumption.
    unfold Np.assign_tail.
    rewrite (rect_shape h w _ (rect_zeros_like _ _ _ Hrect)) by (subst h; lia).
    rewrite !slice_bound_of_nat by assumption.
    unfold Np.broadcastable, Np.broadcast. rewrite !Nat.eqb_refl.
    cbn [orb andb]. rewrite map_id.
    rewrite (zeros_like_rect h w shadow Hrect).
    rewrite firstn_repeat by assumption. rewrite skipn_repeat.
    rewrite (combine_repeat_l (repeat 0 w)
               (fun d s => firstn dx d ++ s)).
    + rewrite firstn_repeat by assumption. now rewrite map_map.
    + rewrite length_map, length_firstn. lia.
Qed.

(** C4: past the frame edge the copy of line 89 does not drop the pixels
    but fails.  For [h < offset_y < 2h - 1] the source slice
    [shadow[:h-offset_y]] has a negative bound and so keeps [2h - offset_y]
    rows, the target [result[offset_y:]] has none, and numpy raises
    [ValueError] where the claim promises an all-transparent result. *)
Theorem shadow_offset_past_frame_edge_raises
  (shadow : image) (h w : nat) (offset_x offset_y : Z) :
  Np.rect h w shadow ->
  0 <= offset_x ->
  Z.of_nat h < offset_y < 2 * Z.of_nat h - 1 ->
  shadow_offset shadow offset_x offset_y = Raise ValueError.
Proof.
  intros Hrect Hx Hy. unfold shadow_offset.
  rewrite (rect_shape h w shadow Hrect) by lia.
  assert (G : (offset_y >=? 0) && (offset_x >=? 0) = true).
  { rewrite !Z.geb_leb. apply andb_true_iff. split; apply Z.leb_le; lia. }
  rewrite G. unfold Np.slice_head.
  rewrite (rect_shape h w shadow Hrect) by lia.
  unfold Np.assign_tail.
  rewrite (rect_shape h w _ (rect_zeros_like _ _ _ Hrect)) by lia.
  assert (R : Np.slice_bound h offset_y = h).
  { unfold Np.slice_bound. destruct (Z.ltb_spec offset_y 0); lia. }
  assert (Hsrc : (2 <= Np.slice_bound h (Z.of_nat h - offset_y))%nat).
  { unfold Np.slice_bound.
    destruct (Z.ltb_spec (Z.of_nat h - offset_y) 0); lia. }
  rewrite R, Nat.sub_diag. unfold Np.broadcastable.
  destruct (Np.slice_bound h (Z.of_nat h - offset_y)) as [|[|rs]]; try lia.
  reflexivity.
Qed.

Lemma shadow_offset_past_frame_edge_raises_witness :
  shadow_offset (Np.full 3 3 89) 0 4 = Raise ValueError.
Proof.
  apply (shadow_offset_past_frame_edge_raises (Np.full 3 3 89) 3 3 0 4).
  - reflexivity.
  - lia.
  - lia.
Defined.

(** ** A Mask Source result without alpha *)

Lemma rect_full {A} (h w : nat) (v : A) : Np.rect h w (Np.full h w v).
Proof.
  unfold Np.rect, Np.dims, Np.full. rewrite map_repeat.
  now rewrite repeat_length.
Qed.

Lemma rect_map_map {A B} (g : A -> B) (h w : nat) (a : list (list A)) :
  Np.rect h w a -> Np.rect h w (map (map g) a).
Proof. unfold Np.rect. now rewrite dims_map_map. Qed.

Lemma set_alpha_same_shape (dst : rgba) (alpha : image) (h w : nat) :
  Np.rect h w dst -> Np.rect h w alpha -> (0 < h)%nat ->
  Compose.set_alpha dst alpha
    = Ok (Np.map2 (fun p a => firstn 3 p ++ [a]) dst alpha).
Proof.
  intros Hd Ha Hh. unfold Compose.set_alpha.
  rewrite (rect_shape h w dst Hd Hh), (rect_shape h w alpha Ha Hh).
  unfold Np.broadcastable, Np.broadcast. rewrite !Nat.eqb_refl.
  cbn [orb andb]. now rewrite map_id.
Qed.

(** C5, as the code has it: a Mask Source result that is a frame-sized
    array with three channels (no alpha) raises nothing; the mask becomes
    the all-opaque image, every pixel 255.  A result with no channel axis
    raises [IndexError] at [shape[2]], and one whose channel count is
    neither 3 nor 4 raises in [cv2.cvtColor]. *)
Theorem missing_alpha_becomes_opaque_mask
  {Frame : Type} (c : capture Frame) (result_np : rgba) :
  Np.rect (height c) (width c) result_np ->
  (Compose.channels result_np = 3 ->
   exists fg_rgba,
     fast_alpha c (Arr3 result_np)
       = Ok (Np.full (height c) (width c) 255, fg_rgba) /\
     Np.dims fg_rgba = Np.dims result_np) /\
  (Compose.channels result_np <> 3 -> Compose.channels result_np <> 4 ->
   fast_alpha c (Arr3 result_np) = Raise cv2_error) /\
  (forall a : image, fast_alpha c (Arr2 a) = Raise IndexError).
Proof.
  intros Hrect. split; [|split].
  - intros Hc. unfold fast_alpha. rewrite Hc. cbn [Z.eqb Pos.eqb].
    unfold Compose.cvtColor_RGB2BGRA. cbn [Z.eqb Pos.eqb rbind].
    assert (Hh : (0 < height c)%nat).
    { destruct (height c) eqn:E; [|lia].
      apply rect_length in Hrect. destruct result_np; [|discriminate].
      discriminate Hc. }
    erewrite set_alpha_same_shape;
      [|apply rect_map_map; exact Hrect|apply rect_full|exact Hh].
    cbn [rbind]. eexists. split; [reflexivity|].
    rewrite dims_map2; [apply dims_map_map|].
    rewrite dims_map_map. fold (Np.rect (height c) (width c) result_np) in Hrect.
    unfold Np.rect in Hrect. rewrite Hrect. symmetry. apply rect_full.
  - intros H3 H4. unfold fast_alpha, Compose.cvtColor_RGB2BGRA.
    apply Z.eqb_neq in H3, H4. now rewrite H4, H3.
  - reflexivity.
Qed.

Lemma missing_alpha_becomes_opaque_mask_witness :
  exists fg_rgba,
    fast_alpha clip4 (stub_rgb (dot 255))
      = Ok (Np.full 3 3 255, fg_rgba) /\
    Np.dims fg_rgba = [3; 3; 3]%nat.
Proof.
  refine (proj1 (missing_alpha_becomes_opaque_mask clip4
                   (map (map (fun v => [v; v; v])) (dot 255)) _) _);
    reflexivity.
Defined.

(** C5 as stated fails: the three-channel result of [stub_rgb] is turned
    into the opaque mask, and the whole run on such a Mask Source ends
    normally with its three videos encoded. *)
Lemma missing_alpha_is_not_surfaced :
  fast_alpha clip4 (stub_rgb (dot 255))
    = Ok ([[255; 255; 255]; [255; 255; 255]; [255; 255; 255]],
          [[[0; 0; 0; 255]; [0; 0; 0; 255]; [0; 0; 0; 255]];
           [[0; 0; 0; 255]; [255; 255; 255; 255]; [0; 0; 0; 255]];
           [[0; 0; 0; 255]; [0; 0; 0; 255]; [0; 0; 0; 255]]]) /\
  fst (process_video_fast blur1 (fun _ => 0) stub_rgb clip4 1 2 empty_world)
    = Ok tt.
Proof. split; vm_compute; reflexivity. Qed.

(** ** Sampling and holding *)

Section Sampling.

Context {Frame : Type}.
Variable blur : Z -> image -> image.
Variable remove_mask : Frame -> image.
Variable remove_rgba : Frame -> ndarray.
Variable c : capture Frame.
Variables stroke N : Z.
Hypothesis N_pos : 1 <= N.

Lemma py_mod_pos (a : Z) : py_mod a N = Ok (a mod N).
Proof.
  unfold py_mod. destruct (Z.eqb_spec N 0); [lia|reflexivity].
Qed.

(** One pass of the loop of extract-foreground.py, segmenting ... *)
Lemma fast_frame_fresh (l : fast_locals) (f : Frame) (s : styled) (w : world) :
  frame_idx l mod N = 0 ->
  fast_fresh blur remove_rgba c stroke f = Ok s ->
  fast_frame blur remove_rgba c stroke N l f w
    = (Ok {| frame_idx := frame_idx l + 1;
             processed := processed l + 1;
             last := Some s |},
       {| tmp := tmp w ++ styled_files (frame_idx l) [s];
          videos := videos w;
          segmented := segmented w ++ [frame_idx l] |}).
Proof.
  intros Hm Hs. unfold fast_frame, bind, lift. rewrite py_mod_pos, Hm.
  cbn -[fast_fresh]. rewrite Hs. cbn. now rewrite <- !app_assoc.
Qed.

(** ... and holding. *)
Lemma fast_frame_hold (l : fast_locals) (f : Frame) (s : styled) (w : world) :
  frame_idx l mod N <> 0 ->
  last l = Some s ->
  fast_frame blur remove_rgba c stroke N l f w
    = (Ok {| frame_idx := frame_idx l + 1;
             processed := processed l;
             last := Some s |},
       {| tmp := tmp w ++ styled_files (frame_idx l) [s];
          videos := videos w;
          segmented := segmented w |}).
Proof.
  intros Hm Hs. unfold fast_frame, bind, lift. rewrite py_mod_pos.
  apply Z.eqb_neq in Hm. rewrite Hm. cbn. rewrite Hs. cbn.
  now rewrite <- !app_assoc.
Qed.

Lemma styled_files_cons (a : Z) (s : styled) (outs : list styled) :
  styled_files a (s :: outs) = styled_files a [s] ++ styled_files (a + 1) outs.
Proof. reflexivity. Qed.

Lemma fast_loop_from (fs : list Frame) :
  forall (a : nat) (l : fast_locals) (w : world),
    frame_idx l = Z.of_nat a ->
    (forall f, In f fs -> is_ok (fast_fresh blur remove_rgba c stroke f) = true) ->
    (fresh_fast N a = false -> last l <> None) ->
    exists outs l' w',
      fast_loop blur remove_rgba c stroke N fs l w = (Ok l', w') /\
      tmp w' = tmp w ++ styled_files (Z.of_nat a) outs /\
      videos w' = videos w /\
      segmented w'
        = segmented w ++ map Z.of_nat (filter (fresh_fast N) (seq a (length fs))) /\
      processed l'
        = processed l + Z.of_nat (length (filter (fresh_fast N) (seq a (length fs)))) /\
      sampled_and_held (fun j => fresh_fast N (a + j))
        (fast_fresh blur remove_rgba c stroke) (last l) fs outs.
Proof.
  induction fs as [|f fs IH]; intros a l w Hidx Hok Hlast.
  - exists [], l, w. cbn. rewrite !app_nil_r, Z.add_0_r.
    repeat split; try reflexivity. intros [|j] f0; discriminate.
  - assert (Hok' : forall f0, In f0 fs ->
               is_ok (fast_fresh blur remove_rgba c stroke f0) = true).
    { intros f0 Hf0. apply Hok. now right. }
    cbn [fast_loop length seq filter]. unfold bind at 1.
    destruct (fresh_fast N a) eqn:Hfr.
    + (* segmented afresh *)
      pose proof (Hok f (or_introl eq_refl)) as Hf.
      destruct (fast_fresh blur remove_rgba c stroke f) as [s|e] eqn:Es;
        [clear Hf|discriminate].
      assert (Hm : Z.of_nat a mod N = 0) by (now apply Z.eqb_eq).
      rewrite (fast_frame_fresh l f s w) by (rewrite ?Hidx; assumption).
      match goal with
      | |- context [fast_loop _ _ _ _ _ fs ?l1 ?w1] =>
          destruct (IH (S a) l1 w1)
            as (outs & l' & w' & Hrun & Htmp & Hvid & Hseg & Hproc & Hlen & Hrec);
            [| exact Hok' | | ]
      end.
      * cbn [frame_idx]. lia.
      * cbn [last]. discriminate.
      * exists (s :: outs), l', w'. rewrite Hrun.
        cbn [tmp videos segmented processed last] in *.
        rewrite Htmp, Hvid, Hseg, Hproc, Hidx.
        rewrite (styled_files_cons (Z.of_nat a) s outs).
        rewrite <- !app_assoc. cbn [map app length].
        replace (Z.of_nat a + 1) with (Z.of_nat (S a)) by lia.
        split; [reflexivity|]. split; [reflexivity|]. split; [reflexivity|].
        split; [reflexivity|]. split; [lia|].
        split; [cbn [length]; now rewrite Hlen|].
        intros [|j] f0 Hnth.
        -- rewrite Nat.add_0_r, Hfr. cbn in Hnth. injection Hnth as <-.
           exists s. now split.
        -- cbn in Hnth. specialize (Hrec j f0 Hnth). cbn beta in Hrec.
           replace (a + S j)%nat with (S a + j)%nat by lia.
           destruct (fresh_fast N (S a + j)); [exact Hrec|].
           cbn [nth_error]. rewrite Hrec. now destruct j.
    + (* held *)
      destruct (last l) as [s|] eqn:El; [|now destruct (Hlast eq_refl)].
      assert (Hm : Z.of_nat a mod N <> 0) by (now apply Z.eqb_neq).
      rewrite (fast_frame_hold l f s w) by (rewrite ?Hidx; assumption).
      match goal with
      | |- context [fast_loop _ _ _ _ _ fs ?l1 ?w1] =>
          destruct (IH (S a) l1 w1)
            as (outs & l' & w' & Hrun & Htmp & Hvid & Hseg & Hproc & Hlen & Hrec);
            [| exact Hok' | | ]
      end.
      * cbn [frame_idx]. lia.
      * cbn [last]. discriminate.
      * exists (s :: outs), l', w'. rewrite Hrun.
        cbn [tmp videos segmented processed last] in *.
        rewrite Htmp, Hvid, Hseg, Hproc, Hidx.
        rewrite (styled_files_cons (Z.of_nat a) s outs).
        rewrite <- !app_assoc.
        replace (Z.of_nat a + 1) with (Z.of_nat (S a)) by lia.
        split; [reflexivity|]. split; [reflexivity|]. split; [reflexivity|].
        split; [reflexivity|]. split; [reflexivity|].
        split; [cbn [length]; now rewrite Hlen|].
        intros [|j] f0 Hnth.
        -- rewrite Nat.add_0_r. now rewrite Hfr.
        -- cbn in Hnth. specialize (Hrec j f0 Hnth). cbn beta in Hrec.
           replace (a + S j)%nat with (S a + j)%nat by lia.
           destruct (fresh_fast N (S a + j)); [exact Hrec|].
           cbn [nth_error]. rewrite Hrec. now destruct j.
Qed.

Lemma fresh_pv_from_later (first : bool) (a i : nat) :
  (a < i)%nat -> fresh_pv_from N first a i = fresh_pv_from N false (S a) i.
Proof.
  intros H. unfold fresh_pv_from.
  destruct (Nat.eqb_spec i a); [lia|]. now rewrite andb_false_r.
Qed.

(** One pass of the loop of create-human-outline.py. *)
Lemma pv_frame_step (l : pv_locals) (f : Frame) (w : world)
  (prev : option rgba) (a : nat) :
  frame_count l = Z.of_nat a ->
  is_ok (pv_styled blur remove_mask c stroke f) = true ->
  held_image c l prev ->
  let fr := fresh_pv_from N (nothing_yet prev) a a in
  exists o img,
    Compose.flat_colour (height c) (width c) 255 o = Ok img /\
    pv_frame blur remove_mask c stroke N l f w
      = (Ok {| frame_count := frame_count l + 1;
               processed_count := processed_count l + (if fr then 1 else 0);
               last_outline := Some o |},
         {| tmp := tmp w ++ outline_files (Z.of_nat a + 1) [img];
            videos := videos w;
            segmented := segmented w ++ (if fr then [Z.of_nat a + 1] else []) |}) /\
    (if fr then pv_styled blur remove_mask c stroke f = Ok img
     else prev = Some img).
Proof.
  intros Hidx Hok Hheld fr. unfold pv_styled in Hok |- *.
  destruct (create_outline_from_mask blur (remove_mask f) stroke)
    as [o|e] eqn:Eo; [|discriminate].
  cbn [rbind] in Hok |- *.
  destruct (Compose.flat_colour (height c) (width c) 255 o)
    as [img|e] eqn:Ei; [|discriminate].
  unfold pv_frame, bind, lift. rewrite py_mod_pos, Hidx.
  unfold held_image in Hheld. subst fr. unfold fresh_pv_from.
  rewrite Nat.eqb_refl, andb_true_r.
  destruct (last_outline l) as [lo|] eqn:El, prev as [p|];
    try contradiction; cbn [nothing_yet orb].
  - destruct ((Z.of_nat a + 1) mod N =? 0) eqn:Em.
    + exists o, img. split; [exact Ei|].
      unfold pv_fresh, bind, lift, note_segmented, ret.
      rewrite Eo. cbn [fst snd]. rewrite Ei. cbn.
      split; reflexivity.
    + exists lo, p. split; [exact Hheld|].
      unfold ret. cbn [fst snd]. rewrite Hheld. cbn.
      rewrite Z.add_0_r, app_nil_r. split; reflexivity.
  - exists o, img. split; [exact Ei|].
    unfold pv_fresh, bind, lift, note_segmented, ret.
    rewrite Eo. cbn [fst snd]. rewrite Ei. cbn. split; reflexivity.
Qed.

Lemma outline_files_cons (a : Z) (img : rgba) (outs : list rgba) :
  outline_files a (img :: outs) = outline_files a [img] ++ outline_files (a + 1) outs.
Proof. reflexivity. Qed.

Lemma pv_loop_from (fs : list Frame) :
  forall (a : nat) (l : pv_locals) (w : world) (prev : option rgba),
    frame_count l = Z.of_nat a ->
    (forall f, In f fs -> is_ok (pv_styled blur remove_mask c stroke f) = true) ->
    held_image c l prev ->
    let fresh := fresh_pv_from N (nothing_yet prev) a in
    exists outs l' w',
      pv_loop blur remove_mask c stroke N fs l w = (Ok l', w') /\
      tmp w' = tmp w ++ outline_files (Z.of_nat a + 1) outs /\
      videos w' = videos w /\
      segmented w'
        = segmented w ++ map (fun i => Z.of_nat i + 1)
                             (filter fresh (seq a (length fs))) /\
      processed_count l'
        = processed_count l + Z.of_nat (length (filter fresh (seq a (length fs)))) /\
      sampled_and_held (fun j => fresh (a + j)%nat)
        (pv_styled blur remove_mask c stroke) prev fs outs.
Proof.
  induction fs as [|f fs IH]; intros a l w prev Hidx Hok Hheld fresh.
  - exists [], l, w. cbn. rewrite !app_nil_r, Z.add_0_r.
    split; [reflexivity|]. split; [reflexivity|]. split; [reflexivity|].
    split; [reflexivity|]. split; [reflexivity|]. split; [reflexivity|].
    intros [|j] f0; discriminate.
  - destruct (pv_frame_step l f w prev a Hidx (Hok f (or_introl eq_refl)) Hheld)
      as (o & img & Hcomp & Hstep & Hout).
    fold (fresh a) in Hstep, Hout.
    cbn [pv_loop length seq filter]. unfold bind at 1. rewrite Hstep.
    match goal with
    | |- context [pv_loop _ _ _ _ _ fs ?l1 ?w1] =>
        destruct (IH (S a) l1 w1 (Some img))
          as (outs & l' & w' & Hrun & Htmp & Hvid & Hseg & Hproc & Hlen & Hrec)
    end.
    + cbn [frame_count]. lia.
    + intros f0 Hf0. apply Hok. now right.
    + exact Hcomp.
    + cbn [nothing_yet] in Hseg, Hproc, Hrec.
      assert (Hext : filter fresh (seq (S a) (length fs))
                     = filter (fresh_pv_from N false (S a)) (seq (S a) (length fs))).
      { apply filter_ext_in. intros i Hi. apply in_seq in Hi.
        apply fresh_pv_from_later. lia. }
      exists (img :: outs), l', w'. rewrite Hrun.
      cbn [tmp videos segmented processed_count last_outline] in *.
      rewrite Htmp, Hvid, Hseg, Hproc.
      rewrite (outline_files_cons (Z.of_nat a + 1) img outs).
      rewrite <- !app_assoc.
      replace (Z.of_nat (S a) + 1) with (Z.of_nat a + 1 + 1) by lia.
      split; [reflexivity|]. split; [reflexivity|]. split; [reflexivity|].
      split; [|split; [|split]].
      * destruct (fresh a); cbn [map app length]; rewrite Hext;
          [replace (Z.of_nat a + 1) with (Z.of_nat a + 1) by lia|];
          reflexivity.
      * destruct (fresh a); cbn [length]; rewrite Hext; lia.
      * cbn [length]. now rewrite Hlen.
      * intros [|j] f0 Hnth.
        -- rewrite Nat.add_0_r. cbn in Hnth. injection Hnth as <-.
           destruct (fresh a); [|now rewrite Hout].
           exists img. now split.
        -- cbn in Hnth. specialize (Hrec j f0 Hnth). cbn beta in Hrec.
           replace (a + S j)%nat with (S a + j)%nat by lia.
           unfold fresh. rewrite fresh_pv_from_later by lia.
           destruct (fresh_pv_from N false (S a) (S a + j)); [exact Hrec|].
           cbn [nth_error]. rewrite Hrec. now destruct j.
Qed.

End Sampling.

(** C1, as the code has it.  For a sampling interval [N >= 1] and a video
    on whose frames the fresh computation succeeds, each loop runs to its
    end and writes one output per frame.  extract-foreground.py segments
    exactly the frames at the 0-based positions [i] with [i mod N = 0];
    create-human-outline.py counts frames from 1, so it segments the first
    frame and the positions with [(i + 1) mod N = 0].  Every other frame
    gets the output of the frame before it, unchanged. *)
Theorem sampling_holds_last_result
  {Frame : Type} (blur : Z -> image -> image) (remove_mask : Frame -> image)
  (remove_rgba : Frame -> ndarray) (c : capture Frame) (stroke N : Z)
  (w : world) :
  1 <= N ->
  ((forall f, In f (frames c) ->
      is_ok (fast_fresh blur remove_rgba c stroke f) = true) ->
   exists outs l' w',
     fast_loop blur remove_rgba c stroke N (frames c) fast_init w = (Ok l', w') /\
     tmp w' = tmp w ++ styled_files 0 outs /\
     segmented w'
       = segmented w ++
         map Z.of_nat (filter (fresh_fast N) (seq 0 (length (frames c)))) /\
     processed l'
       = Z.of_nat (length (filter (fresh_fast N) (seq 0 (length (frames c))))) /\
     sampled_and_held (fresh_fast N) (fast_fresh blur remove_rgba c stroke)
       None (frames c) outs) /\
  ((forall f, In f (frames c) ->
      is_ok (pv_styled blur remove_mask c stroke f) = true) ->
   exists outs l' w',
     pv_loop blur remove_mask c stroke N (frames c) pv_init w = (Ok l', w') /\
     tmp w' = tmp w ++ outline_files 1 outs /\
     segmented w'
       = segmented w ++
         map (fun i => Z.of_nat i + 1)
             (filter (fresh_pv N) (seq 0 (length (frames c)))) /\
     processed_count l'
       = Z.of_nat (length (filter (fresh_pv N) (seq 0 (length (frames c))))) /\
     sampled_and_held (fresh_pv N) (pv_styled blur remove_mask c stroke)
       None (frames c) outs).
Proof.
  intros HN. split; intros Hok.
  - destruct (fast_loop_from blur remove_rgba c stroke N HN (frames c)
                0%nat fast_init w eq_refl Hok)
      as (outs & l' & w' & Hrun & Htmp & _ & Hseg & Hproc & Hheld).
    { intros H. unfold fresh_fast in H. rewrite Z.mod_0_l in H by lia.
      discriminate. }
    exists outs, l', w'. repeat (split; [assumption|]). exact Hheld.
  - destruct (pv_loop_from blur remove_mask c stroke N HN (frames c)
                0%nat pv_init w None eq_refl Hok I)
      as (outs & l' & w' & Hrun & Htmp & _ & Hseg & Hproc & Hheld).
    exists outs, l', w'. repeat (split; [assumption|]). exact Hheld.
Qed.

Lemma sampling_holds_last_result_witness :
  (exists outs l' w',
     fast_loop blur1 stub_rgba clip4 1 2 (frames clip4) fast_init empty_world
       = (Ok l', w') /\
     tmp w' = styled_files 0 outs /\
     segmented w' = [0; 2] /\
     processed l' = 2 /\
     sampled_and_held (fresh_fast 2) (fast_fresh blur1 stub_rgba clip4 1)
       None (frames clip4) outs) /\
  (exists outs l' w',
     pv_loop blur1 stub_mask clip4 1 2 (frames clip4) pv_init empty_world
       = (Ok l', w') /\
     tmp w' = outline_files 1 outs /\
     segmented w' = [1; 2; 4] /\
     processed_count l' = 3 /\
     sampled_and_held (fresh_pv 2) (pv_styled blur1 stub_mask clip4 1)
       None (frames clip4) outs).
Proof.
  assert (HN : 1 <= 2) by lia.
  destruct (sampling_holds_last_result blur1 stub_mask stub_rgba clip4 1 2
              empty_world HN) as [Hfast Hpv].
  split.
  - apply Hfast.
    intros f [<-|[<-|[<-|[<-|[]]]]]; vm_compute; reflexivity.
  - apply Hpv.
    intros f [<-|[<-|[<-|[<-|[]]]]]; vm_compute; reflexivity.
Defined.

(** The end-to-end scenario of four frames at sample rate 2, for any video
    and Mask Source: extract-foreground.py segments twice, at the frames 0
    and 2, and frames 1 and 3 repeat their predecessors; ... *)
Lemma four_frames_rate_two_fast
  {Frame : Type} (blur : Z -> image -> image) (remove_rgba : Frame -> ndarray)
  (c : capture Frame) (stroke : Z) (f0 f1 f2 f3 : Frame) :
  frames c = [f0; f1; f2; f3] ->
  (forall f, In f (frames c) ->
     is_ok (fast_fresh blur remove_rgba c stroke f) = true) ->
  exists o0 o2 l',
    fast_fresh blur remove_rgba c stroke f0 = Ok o0 /\
    fast_fresh blur remove_rgba c stroke f2 = Ok o2 /\
    fast_loop blur remove_rgba c stroke 2 (frames c) fast_init empty_world
      = (Ok l', {| tmp := styled_files 0 [o0; o0; o2; o2];
                   videos := [];
                   segmented := [0; 2] |}) /\
    processed l' = 2.
Proof.
  intros Hfs Hok.
  destruct (fast_loop_from blur remove_rgba c stroke 2 ltac:(lia) (frames c)
              0%nat fast_init empty_world eq_refl Hok)
    as (outs & l' & w' & Hrun & Htmp & Hvid & Hseg & Hproc & Hlen & Hrec);
    [discriminate|].
  rewrite Hfs in *. destruct w' as [t v sg]. cbn in Htmp, Hvid, Hseg, Hproc.
  destruct outs as [|o0 [|o1 [|o2 [|o3 [|]]]]]; try discriminate.
  pose proof (Hrec 0%nat f0 eq_refl) as H0.
  pose proof (Hrec 1%nat f1 eq_refl) as H1.
  pose proof (Hrec 2%nat f2 eq_refl) as H2.
  pose proof (Hrec 3%nat f3 eq_refl) as H3.
  cbn in H0, H1, H2, H3.
  destruct H0 as (o & [= <-] & E0). destruct H2 as (o & [= <-] & E2).
  injection H1 as ->. injection H3 as ->.
  exists o0, o2, l'. subst. now repeat split.
Qed.

(** ... create-human-outline.py segments three times, at the frames 0, 1
    and 3 (its frame numbers 1, 2 and 4), and only frame 2 repeats its
    predecessor. *)
Lemma four_frames_rate_two_pv
  {Frame : Type} (blur : Z -> image -> image) (remove_mask : Frame -> image)
  (c : capture Frame) (stroke : Z) (f0 f1 f2 f3 : Frame) :
  frames c = [f0; f1; f2; f3] ->
  (forall f, In f (frames c) ->
     is_ok (pv_styled blur remove_mask c stroke f) = true) ->
  exists o0 o1 o3 l',
    pv_styled blur remove_mask c stroke f0 = Ok o0 /\
    pv_styled blur remove_mask c stroke f1 = Ok o1 /\
    pv_styled blur remove_mask c stroke f3 = Ok o3 /\
    pv_loop blur remove_mask c stroke 2 (frames c) pv_init empty_world
      = (Ok l', {| tmp := outline_files 1 [o0; o1; o1; o3];
                   videos := [];
                   segmented := [1; 2; 4] |}) /\
    processed_count l' = 3.
Proof.
  intros Hfs Hok.
  destruct (pv_loop_from blur remove_mask c stroke 2 ltac:(lia) (frames c)
              0%nat pv_init empty_world None eq_refl Hok I)
    as (outs & l' & w' & Hrun & Htmp & Hvid & Hseg & Hproc & Hlen & Hrec).
  rewrite Hfs in *. destruct w' as [t v sg]. cbn in Htmp, Hvid, Hseg, Hproc.
  destruct outs as [|o0 [|o1 [|o2 [|o3 [|]]]]]; try discriminate.
  pose proof (Hrec 0%nat f0 eq_refl) as H0.
  pose proof (Hrec 1%nat f1 eq_refl) as H1.
  pose proof (Hrec 2%nat f2 eq_refl) as H2.
  pose proof (Hrec 3%nat f3 eq_refl) as H3.
  cbn in H0, H1, H2, H3.
  destruct H0 as (o & [= <-] & E0). destruct H1 as (o & [= <-] & E1).
  destruct H3 as (o & [= <-] & E3). injection H2 as ->.
  exists o0, o1, o3, l'. subst. now repeat split.
Qed.

(** C1 as stated fails for create-human-outline.py: on the four frames of
    [clip4] at sample rate 2 it performs three fresh computations, not
    two, and the output of frame 1 is computed afresh and differs from
    that of frame 0; it is frame 2 that repeats frame 1.  Which frames are
    segmented does not depend on the blur. *)
Lemma process_video_segments_three_of_four :
  let run := pv_loop blur1 stub_mask clip4 1 2 (frames clip4) pv_init
               empty_world in
  let outs := map snd (tmp (snd run)) in
  match fst run with Ok l => processed_count l = 3 | Raise _ => False end /\
  segmented (snd run) = [1; 2; 4] /\
  length outs = 4%nat /\
  nth 1 outs [] <> nth 0 outs [] /\
  nth 2 outs [] = nth 1 outs [].
Proof.
  vm_compute. repeat split; discriminate.
Qed.

(** ** The dimension invariant *)

Lemma In_firstn {A} (n : nat) (l : list A) (x : A) :
  In x (firstn n l) -> In x l.
Proof.
  intros H. rewrite <- (firstn_skipn n l). apply in_or_app. now left.
Qed.

Lemma In_skipn {A} (n : nat) (l : list A) (x : A) :
  In x (skipn n l) -> In x l.
Proof.
  intros H. rewrite <- (firstn_skipn n l). apply in_or_app. now right.
Qed.

Lemma rect_iff {A} (h w : nat) (a : list (list A)) :
  Np.rect h w a <-> length a = h /\ Forall (fun r => length r = w) a.
Proof.
  split.
  - intros H. split; [eapply rect_length|eapply rect_rows]; exact H.
  - intros [<- Hrows]. unfold Np.rect, Np.dims.
    induction Hrows as [|r a Hr _ IH]; [reflexivity|].
    cbn. now rewrite Hr, IH.
Qed.

Lemma rect_shape_self {A} (h w : nat) (a : list (list A)) :
  Np.rect h w a -> Np.rect (fst (Np.shape a)) (snd (Np.shape a)) a.
Proof.
  intros H. destruct h as [|h'].
  - apply rect_length in H. destruct a; [reflexivity|discriminate].
  - rewrite (rect_shape (S h') w a H) by lia. exact H.
Qed.

Lemma slice_bound_le (n : nat) (k : Z) : (Np.slice_bound n k <= n)%nat.
Proof.
  unfold Np.slice_bound. destruct (Z.ltb_spec k 0); lia.
Qed.

Lemma broadcast_rect {A} (d : A) (rs cs rt ct : nat) (src : list (list A)) :
  Np.rect rs cs src ->
  Np.broadcastable rs cs rt ct = true ->
  Np.rect rt ct (Np.broadcast d rs cs rt ct src).
Proof.
  intros Hsrc Hb. apply rect_iff in Hsrc. destruct Hsrc as [Hlen Hrows].
  apply andb_true_iff in Hb. destruct Hb as [Hr Hc].
  apply rect_iff. unfold Np.broadcast. rewrite length_map. split.
  - destruct (Nat.eqb_spec rs rt); [lia|apply repeat_length].
  - apply Forall_map.
    assert (Hrows' : Forall (fun r : list A => length r = cs)
                       (if (rs =? rt)%nat then src else repeat (nth 0 src []) rt)).
    { destruct (Nat.eqb_spec rs rt); [exact Hrows|].
      apply Forall_forall. intros r Hr'. apply repeat_spec in Hr'. subst r.
      cbn in Hr. apply Nat.eqb_eq in Hr.
      destruct src as [|r0 src]; [cbn in Hlen; lia|].
      now inversion Hrows. }
    eapply Forall_impl; [|exact Hrows']. intros r Hlr. cbn beta in *.
    destruct (Nat.eqb_spec cs ct); [lia|apply repeat_length].
Qed.

Lemma slice_head_rect (a : image) (h w : nat) (r c : Z) :
  Np.rect h w a ->
  Np.rect (fst (snd (Np.slice_head a r c))) (snd (snd (Np.slice_head a r c)))
          (fst (Np.slice_head a r c)).
Proof.
  intros H. pose proof (rect_shape_self h w a H) as Hs.
  unfold Np.slice_head. destruct (Np.shape a) as [h' w']. cbn [fst snd] in *.
  apply rect_iff in Hs. destruct Hs as [Hlen Hrows].
  apply rect_iff. rewrite length_map, length_firstn. split.
  - pose proof (slice_bound_le h' r). lia.
  - apply Forall_map. apply Forall_forall. intros row Hin.
    apply In_firstn in Hin.
    rewrite Forall_forall in Hrows. specialize (Hrows row Hin).
    rewrite length_firstn. pose proof (slice_bound_le w' c). lia.
Qed.

Lemma assign_tail_rect (dst : image) (r0 c0 : Z) (src : image) (rs cs h w : nat)
  (out : image) :
  Np.rect h w dst -> Np.rect rs cs src ->
  Np.assign_tail dst r0 c0 (src, (rs, cs)) = Ok out ->
  Np.rect h w out.
Proof.
  intros Hd Hs. destruct (Nat.eq_dec h 0) as [->|Hh].
  - apply rect_length in Hd. destruct dst; [|discriminate].
    unfold Np.assign_tail. cbn.
    destruct (Np.broadcastable _ _ _ _); [|discriminate].
    rewrite firstn_nil, skipn_nil. cbn [combine map app].
    now intros [= <-].
  - unfold Np.assign_tail. rewrite (rect_shape h w dst Hd) by lia.
    destruct (Np.broadcastable rs cs (h - Np.slice_bound h r0)
                (w - Np.slice_bound w c0)) eqn:Hb; [|discriminate].
    intros [= <-].
    pose proof (broadcast_rect 0 _ _ _ _ src Hs Hb) as HB.
    apply rect_iff in HB. destruct HB as [HBlen HBrows].
    apply rect_iff in Hd. destruct Hd as [Hdlen Hdrows].
    pose proof (slice_bound_le h r0) as Hr. pose proof (slice_bound_le w c0) as Hc.
    apply rect_iff. split.
    + rewrite length_app, length_firstn, length_map, length_combine,
        length_skipn, HBlen. lia.
    + apply Forall_app. rewrite Forall_forall in Hdrows, HBrows. split.
      * apply Forall_forall. intros row Hin. apply In_firstn in Hin. auto.
      * apply Forall_map. apply Forall_forall. intros [d b] Hin. cbn [fst snd].
        pose proof (in_combine_l _ _ _ _ Hin) as Hd'.
        pose proof (in_combine_r _ _ _ _ Hin) as Hb'.
        apply In_skipn in Hd'.
        rewrite length_app, length_firstn, (Hdrows d Hd'), (HBrows b Hb'). lia.
Qed.

Lemma shadow_offset_rect (shadow : image) (h w : nat) (dx dy : Z) (out : image) :
  Np.rect h w shadow ->
  shadow_offset shadow dx dy = Ok out ->
  Np.rect h w out.
Proof.
  intros H. unfold shadow_offset. destruct (Np.shape shadow) as [h' w'].
  destruct ((dy >=? 0) && (dx >=? 0)).
  - pose proof (slice_head_rect shadow h w (Z.of_nat h' - dy) (Z.of_nat w' - dx) H)
      as Hs.
    destruct (Np.slice_head shadow (Z.of_nat h' - dy) (Z.of_nat w' - dx))
      as [src [rs cs]]. cbn [fst snd] in Hs.
    apply assign_tail_rect; [now apply rect_zeros_like|exact Hs].
  - intros [= <-]. now apply rect_zeros_like.
Qed.

Lemma dims_threshold (a : image) (t m : Z) :
  Np.dims (Cv2.threshold a t m) = Np.dims a.
Proof. apply dims_map_map. Qed.

Lemma dims_dilate (a : image) (k : Cv2.kernel) :
  Np.dims (Cv2.dilate a k) = Np.dims a.
Proof. apply dims_tabulate. Qed.

Lemma dims_erode (a : image) (k : Cv2.kernel) :
  Np.dims (Cv2.erode a k) = Np.dims a.
Proof. apply dims_tabulate. Qed.

Lemma dims_close (a : image) (k : Cv2.kernel) :
  Np.dims (Cv2.morphologyEx_CLOSE a k) = Np.dims a.
Proof. unfold Cv2.morphologyEx_CLOSE. now rewrite dims_erode, dims_dilate. Qed.

Lemma dims_subtract (a b : image) :
  Np.dims a = Np.dims b -> Np.dims (Cv2.subtract a b) = Np.dims a.
Proof. apply dims_map2. Qed.

Lemma dims_add (a b : image) :
  Np.dims a = Np.dims b -> Np.dims (Cv2.add a b) = Np.dims a.
Proof. apply dims_map2. Qed.

Lemma dims_clip (a : image) (lo hi : Z) : Np.dims (Np.clip a lo hi) = Np.dims a.
Proof. apply dims_map_map. Qed.

Lemma dims_scale (a : image) (opacity : float) :
  Np.dims (Np.scale_astype a opacity) = Np.dims a.
Proof. apply dims_map_map. Qed.

(** Peels one binding off a [result] computation known to succeed. *)
Ltac rstep v E :=
  lazymatch goal with
  | |- rbind ?c _ = Ok _ -> _ =>
      destruct c as [v|] eqn:E; [cbn [rbind]|discriminate]
  end.


Lemma outline_layers_dims (alpha : image) (s : Z) (l : layers) :
  outline_layers alpha s = Ok l ->
  Np.dims (inner l) = Np.dims alpha /\ Np.dims (outer l) = Np.dims alpha.
Proof.
  unfold outline_layers. rstep k3 E3. rstep k1 E1. rstep k2 E2.
  intros [= <-]. cbn [inner outer].
  rewrite !dims_subtract;
    rewrite ?dims_dilate, ?dims_close, ?dims_threshold; auto.
Qed.


Lemma create_outline_dims (blur : Z -> image -> image) (alpha : image)
  (s : Z) (out : image) :
  keeps_dims blur ->
  create_outline blur alpha s = Ok out ->
  Np.dims out = Np.dims alpha.
Proof.
  intros Hblur. unfold create_outline. rstep l El.
  destruct (outline_layers_dims alpha s l El) as [Hi Ho].
  unfold GaussianBlur_checked.
  destruct (Cv2.valid_ksize (Z.lor s 1)); [|discriminate].
  cbn [rbind]. intros [= <-].
  rewrite dims_clip, dims_add; rewrite dims_scale, Hblur; congruence.
Qed.

Lemma create_shadow_rect (blur : Z -> image -> image) (alpha : image)
  (dx dy b : Z) (opacity : float) (h w : nat) (out : image) :
  keeps_dims blur ->
  Np.rect h w alpha ->
  create_shadow blur alpha dx dy b opacity = Ok out ->
  Np.rect h w out.
Proof.
  intros Hblur Hrect. unfold create_shadow. rstep shadow Es.
  apply shadow_offset_rect. unfold Np.rect.
  now rewrite (shadow_layer_dims blur alpha b opacity shadow Hblur Es).
Qed.





Section WrittenFrames.

Context {Frame : Type}.
Variable blur : Z -> image -> image.
Variable remove_mask : Frame -> image.
Variable remove_rgba : Frame -> ndarray.
Variable c : capture Frame.
Variables stroke N : Z.
Hypothesis blur_keeps_dims : keeps_dims blur.







End WrittenFrames.



(** ** Pixels of the array primitives *)

Lemma rect_row {A} (h w : nat) (a : list (list A)) (i : nat) :
  Np.rect h w a -> (i < h)%nat -> length (nth i a []) = w.
Proof.
  intros H Hi. pose proof (rect_length _ _ _ H) as Hl.
  apply rect_rows in H. rewrite Forall_forall in H.
  apply H. apply nth_In. lia.
Qed.

Lemma px_map_map (g : Z -> Z) (a : image) (h w i j : nat) :
  Np.rect h w a -> (i < h)%nat -> (j < w)%nat ->
  Np.px (map (map g) a) i j = g (Np.px a i j).
Proof.
  intros H Hi Hj. unfold Np.px.
  pose proof (rect_length _ _ _ H) as Hl.
  pose proof (rect_row h w a i H Hi) as Hr.
  rewrite (nth_indep _ [] (map g [])) by (rewrite length_map; lia).
  rewrite map_nth.
  rewrite (nth_indep _ 0 (g 0)) by (rewrite length_map; lia).
  apply map_nth.
Qed.

Lemma px_map2 (g : Z -> Z -> Z) (a b : image) (h w i j : nat) :
  Np.rect h w a -> Np.rect h w b -> (i < h)%nat -> (j < w)%nat ->
  Np.px (Np.map2 g a b) i j = g (Np.px a i j) (Np.px b i j).
Proof.
  intros Ha Hb Hi Hj. unfold Np.px, Np.map2.
  pose proof (rect_length _ _ _ Ha) as Hla.
  pose proof (rect_length _ _ _ Hb) as Hlb.
  pose proof (rect_row h w a i Ha Hi) as Hra.
  pose proof (rect_row h w b i Hb Hi) as Hrb.
  set (F := fun rs : list Z * list Z =>
              map (fun p => g (fst p) (snd p)) (combine (fst rs) (snd rs))).
  rewrite (nth_indep _ [] (F ([], [])))
    by (rewrite length_map, length_combine; lia).
  rewrite map_nth, combine_nth by lia. unfold F. cbn [fst snd].
  set (G := fun p : Z * Z => g (fst p) (snd p)).
  rewrite (nth_indep _ 0 (G (0, 0)))
    by (rewrite length_map, length_combine; lia).
  rewrite map_nth, combine_nth by lia. reflexivity.
Qed.

Lemma px_tabulate (a : image) (f : nat -> nat -> Z) (h w i j : nat) :
  Np.rect h w a -> (i < h)%nat -> (j < w)%nat ->
  Np.px (Cv2.tabulate a f) i j = f i j.
Proof.
  intros H Hi Hj. unfold Np.px, Cv2.tabulate.
  pose proof (rect_length _ _ _ H) as Hl.
  pose proof (rect_row h w a i H Hi) as Hr.
  set (F := fun ir : nat * list Z =>
              map (fun j0 => f (fst ir) j0) (seq 0 (length (snd ir)))).
  rewrite (nth_indep _ [] (F (0%nat, [])))
    by (rewrite length_map, length_combine, length_seq; lia).
  rewrite map_nth, combine_nth by (rewrite length_seq; lia).
  unfold F. cbn [fst snd]. rewrite seq_nth by lia. cbn [Nat.add].
  rewrite Hr.
  rewrite (nth_indep _ 0 (f i 0%nat)) by (rewrite length_map, length_seq; lia).
  rewrite map_nth, seq_nth by lia. reflexivity.
Qed.

Lemma at_offset_in_frame (a : image) (h w i j : nat) (o : Z * Z) :
  Np.rect h w a ->
  0 <= Z.of_nat i + fst o < Z.of_nat h ->
  0 <= Z.of_nat j + snd o < Z.of_nat w ->
  Cv2.at_offset a i j o
    = Some (Np.px a (Z.to_nat (Z.of_nat i + fst o)) (Z.to_nat (Z.of_nat j + snd o))).
Proof.
  intros H Hy Hx. unfold Cv2.at_offset, Np.px.
  pose proof (rect_length _ _ _ H) as Hl.
  assert (G : (0 <=? Z.of_nat i + fst o) && (0 <=? Z.of_nat j + snd o) = true).
  { apply andb_true_iff. split; apply Z.leb_le; lia. }
  rewrite G.
  set (y := Z.to_nat (Z.of_nat i + fst o)).
  set (x := Z.to_nat (Z.of_nat j + snd o)).
  assert (Hyh : (y < h)%nat) by (subst y; lia).
  pose proof (rect_row h w a y H Hyh) as Hr.
  rewrite (nth_error_nth' a [] ) by lia.
  now rewrite (nth_error_nth' _ 0) by lia.
Qed.

Lemma in_neighbourhood (a : image) (k : Cv2.kernel) (i j : nat) (o : Z * Z)
  (v : Z) :
  In o k -> Cv2.at_offset a i j o = Some v -> In v (Cv2.neighbourhood a k i j).
Proof.
  intros Ho Hv. unfold Cv2.neighbourhood. apply in_flat_map.
  exists o. split; [exact Ho|]. rewrite Hv. now left.
Qed.

Lemma fold_max_ge (l : list Z) (v : Z) :
  In v l -> v <= fold_right Z.max 0 l.
Proof.
  induction l as [|x l IH]; intros H; [contradiction|].
  cbn. destruct H as [->|H]; [lia|]. specialize (IH H). lia.
Qed.

Lemma scale_px_nonneg (opacity : float) (v : Z) : 0 <= Np.scale_px opacity v.
Proof. unfold Np.scale_px. apply Z.mod_pos_bound. lia. Qed.

(** ** The stroke-size boundary *)

Lemma rect_of_dims {A B} (h w : nat) (a : list (list A)) (b : list (list B)) :
  Np.dims a = Np.dims b -> Np.rect h w b -> Np.rect h w a.
Proof. unfold Np.rect. congruence. Qed.

Lemma image_ext (a b : image) (h w : nat) :
  Np.rect h w a -> Np.rect h w b ->
  (forall i j, (i < h)%nat -> (j < w)%nat -> Np.px a i j = Np.px b i j) ->
  a = b.
Proof.
  intros Ha Hb Hpx.
  pose proof (rect_length _ _ _ Ha) as Hla.
  pose proof (rect_length _ _ _ Hb) as Hlb.
  apply (nth_ext a b [] []); [lia|].
  intros i Hi. rewrite Hla in Hi.
  apply (nth_ext _ _ 0 0).
  - now rewrite (rect_row h w a i Ha Hi), (rect_row h w b i Hb Hi).
  - intros j Hj. rewrite (rect_row h w a i Ha Hi) in Hj. now apply Hpx.
Qed.

Lemma px_threshold (a : image) (t m : Z) (h w i j : nat) :
  Np.rect h w a -> (i < h)%nat -> (j < w)%nat ->
  Np.px (Cv2.threshold a t m) i j = Cv2.threshold_px t m (Np.px a i j).
Proof. apply px_map_map. Qed.

Lemma threshold_px_range (v : Z) :
  Cv2.threshold_px 127 255 v = 0 \/ Cv2.threshold_px 127 255 v = 255.
Proof. unfold Cv2.threshold_px. destruct (v >? 127); auto. Qed.

Lemma px_dilate (a : image) (k : Cv2.kernel) (h w i j : nat) :
  Np.rect h w a -> (i < h)%nat -> (j < w)%nat ->
  Np.px (Cv2.dilate a k) i j = fold_right Z.max 0 (Cv2.neighbourhood a k i j).
Proof. intros. unfold Cv2.dilate. now rewrite (px_tabulate a _ h w). Qed.

(** Dilating by the 1 x 1 element changes nothing. *)
Lemma px_dilate_unit (a : image) (h w i j : nat) :
  Np.rect h w a -> (i < h)%nat -> (j < w)%nat -> 0 <= Np.px a i j ->
  Np.px (Cv2.dilate a [(0, 0)]) i j = Np.px a i j.
Proof.
  intros H Hi Hj Hv. rewrite (px_dilate a _ h w) by assumption.
  unfold Cv2.neighbourhood. cbn [flat_map].
  rewrite (at_offset_in_frame a h w i j (0, 0) H) by (cbn [fst snd]; lia).
  cbn [fst snd app fold_right]. rewrite !Z.add_0_r, !Nat2Z.id. lia.
Qed.

Section StrokeBoundary.

Variable blur : Z -> image -> image.
Hypothesis blur_keeps_dims : keeps_dims blur.
Variable M : image.
Variables h w : nat.
Hypothesis M_rect : Np.rect h w M.

Let B := Cv2.threshold M 127 255.

Lemma B_rect : Np.rect h w B.
Proof. now apply rect_map_map. Qed.

Lemma B_range (i j : nat) :
  (i < h)%nat -> (j < w)%nat -> Np.px B i j = 0 \/ Np.px B i j = 255.
Proof.
  intros Hi Hj. unfold B. rewrite (px_threshold M _ _ h w) by assumption.
  apply threshold_px_range.
Qed.

(** Stroke size 1: the rim below and to the right of the subject. *)
Lemma stroke_one_rim (i j : nat) :
  (i < h)%nat -> (j < w)%nat ->
  Np.px B i j = 0 -> subject_above_or_left B i j ->
  exists out,
    create_outline_from_mask blur M 1 = Ok out /\ Np.px out i j = 255.
Proof.
  intros Hi Hj Hbg Hnb.
  unfold create_outline_from_mask, outline_from_mask_layers.
  change (Cv2.getStructuringElement_ELLIPSE (1 + 1))
    with (Ok [(-1, 0); (0, -1); (0, 0)] : result Cv2.kernel).
  change (Cv2.getStructuringElement_ELLIPSE (1 * 3 + 1))
    with (Ok (Cv2.ellipse 4)).
  cbn [rbind inner outer]. unfold GaussianBlur_checked.
  change (Cv2.valid_ksize (1 * 4 + 1)) with true. cbn [rbind].
  fold B. eexists. split; [reflexivity|].
  set (k2 := [(-1, 0); (0, -1); (0, 0)]).
  set (inner_outline := Cv2.subtract (Cv2.dilate B k2) B).
  set (outer_glow := Np.scale_astype _ _).
  assert (Hin : Np.rect h w inner_outline).
  { eapply rect_of_dims; [|exact B_rect]. unfold inner_outline.
    rewrite dims_subtract; now rewrite dims_dilate. }
  assert (Hgl : Np.rect h w outer_glow).
  { eapply rect_of_dims; [|exact B_rect]. unfold outer_glow.
    rewrite dims_scale, blur_keeps_dims.
    rewrite dims_subtract; now rewrite dims_dilate. }
  assert (Hadd : Np.rect h w (Cv2.add outer_glow inner_outline)).
  { eapply rect_of_dims; [|exact Hgl]. apply dims_add.
    unfold Np.rect in Hin, Hgl. congruence. }
  unfold Np.clip. rewrite (px_map_map _ _ h w) by assumption.
  unfold Cv2.add. rewrite (px_map2 _ _ _ h w) by assumption.
  assert (Hg0 : 0 <= Np.px outer_glow i j).
  { unfold outer_glow, Np.scale_astype.
    rewrite (px_map_map _ _ h w); try assumption; [apply scale_px_nonneg|].
    eapply rect_of_dims; [|exact B_rect]. rewrite blur_keeps_dims.
    rewrite dims_subtract; now rewrite dims_dilate. }
  assert (Hd : 255 <= Np.px (Cv2.dilate B k2) i j).
  { rewrite (px_dilate B k2 h w) by (assumption || exact B_rect).
    apply fold_max_ge. destruct Hnb as [[Hi0 Hup]|[Hj0 Hleft]].
    - apply (in_neighbourhood B k2 i j (-1, 0)); [now left|].
      rewrite (at_offset_in_frame B h w i j (-1, 0) B_rect)
        by (cbn [fst snd]; lia).
      cbn [fst snd].
      replace (Z.to_nat (Z.of_nat i + -1)) with (i - 1)%nat by lia.
      replace (Z.to_nat (Z.of_nat j + 0)) with j by lia.
      now rewrite Hup.
    - apply (in_neighbourhood B k2 i j (0, -1)); [right; now left|].
      rewrite (at_offset_in_frame B h w i j (0, -1) B_rect)
        by (cbn [fst snd]; lia).
      cbn [fst snd].
      replace (Z.to_nat (Z.of_nat i + 0)) with i by lia.
      replace (Z.to_nat (Z.of_nat j + -1)) with (j - 1)%nat by lia.
      now rewrite Hleft. }
  assert (Hi255 : 255 <= Np.px inner_outline i j).
  { unfold inner_outline, Cv2.subtract.
    rewrite (px_map2 _ _ _ h w);
      try assumption; try exact B_rect; [rewrite Hbg; lia|].
    eapply rect_of_dims; [apply dims_dilate|exact B_rect]. }
  lia.
Qed.

Hypothesis blur_width_1 : forall a, blur 1 a = a.

(** Stroke size 0 in create-human-outline.py: both kernels are 1 x 1, so
    both layers are empty and the outline is all zero, without error. *)
Lemma stroke_zero_from_mask :
  create_outline_from_mask blur M 0 = Ok (Np.zeros_like M).
Proof.
  unfold create_outline_from_mask, outline_from_mask_layers.
  change (Cv2.getStructuringElement_ELLIPSE (0 + 1))
    with (Ok [(0, 0)] : result Cv2.kernel).
  change (Cv2.getStructuringElement_ELLIPSE (0 * 3 + 1))
    with (Ok [(0, 0)] : result Cv2.kernel).
  cbn [rbind inner outer]. unfold GaussianBlur_checked.
  change (Cv2.valid_ksize (0 * 4 + 1)) with true. cbn [rbind].
  change (0 * 4 + 1) with 1. rewrite blur_width_1. fold B. f_equal.
  set (empty := Cv2.subtract (Cv2.dilate B [(0, 0)]) B).
  assert (He : Np.rect h w empty).
  { eapply rect_of_dims; [|exact B_rect]. unfold empty.
    rewrite dims_subtract; now rewrite dims_dilate. }
  assert (Hz : forall i j, (i < h)%nat -> (j < w)%nat -> Np.px empty i j = 0).
  { intros i j Hi Hj. unfold empty, Cv2.subtract.
    rewrite (px_map2 _ _ _ h w);
      try assumption; try exact B_rect;
      [|eapply rect_of_dims; [apply dims_dilate|exact B_rect]].
    rewrite (px_dilate_unit B h w) by
      (try assumption; try exact B_rect; destruct (B_range i j Hi Hj); lia).
    lia. }
  assert (Hs : Np.rect h w (Np.scale_astype empty 0.6%float)).
  { eapply rect_of_dims; [apply dims_scale|exact He]. }
  assert (Ha : Np.rect h w (Cv2.add (Np.scale_astype empty 0.6%float) empty)).
  { eapply rect_of_dims; [|exact Hs]. apply dims_add.
    unfold Np.rect in He, Hs. congruence. }
  apply (image_ext _ _ h w).
  - eapply rect_of_dims; [apply dims_clip|exact Ha].
  - now apply rect_zeros_like.
  - intros i j Hi Hj. unfold Np.clip, Np.zeros_like.
    rewrite (px_map_map _ _ h w) by assumption.
    rewrite (px_map_map _ M h w) by assumption.
    unfold Cv2.add. rewrite (px_map2 _ _ _ h w) by assumption.
    unfold Np.scale_astype. rewrite (px_map_map _ _ h w) by assumption.
    rewrite (Hz i j Hi Hj). reflexivity.
Qed.

End StrokeBoundary.

(** Stroke size 0 in extract-foreground.py: the empty structuring element
    is refused by OpenCV. *)
Lemma stroke_zero_fast (blur : Z -> image -> image) (alpha : image) :
  create_outline blur alpha 0 = Raise cv2_error.
Proof. reflexivity. Qed.

(** C6 as stated fails on both counts.  With stroke size 0,
    [create_outline_from_mask] returns an all-zero outline instead of
    failing; with stroke size 1, [create_outline] returns an all-zero
    outline for the binary mask [corner], which is neither empty nor full.
    In both runs the only blur width is 1. *)
Lemma stroke_boundary_is_not_enforced :
  create_outline_from_mask blur1 (dot 255) 0
    = Ok [[0; 0; 0]; [0; 0; 0]; [0; 0; 0]] /\
  create_outline blur1 corner 1 = Ok [[0; 0; 0]; [0; 0; 0]; [0; 0; 0]].
Proof. split; vm_compute; reflexivity. Qed.

(** ** The steps of the outline derivation *)

Lemma getStructuringElement_pos (k : Z) :
  0 < k -> Cv2.getStructuringElement_ELLIPSE k = Ok (Cv2.ellipse k).
Proof.
  intros H. unfold Cv2.getStructuringElement_ELLIPSE.
  destruct (Z.leb_spec k 0); [lia|reflexivity].
Qed.

Lemma valid_ksize_4s1 (s : Z) : 0 <= s -> Cv2.valid_ksize (s * 4 + 1) = true.
Proof.
  intros H. unfold Cv2.valid_ksize. apply andb_true_iff. split.
  - apply Z.ltb_lt. lia.
  - replace (s * 4 + 1) with (1 + 2 * (2 * s)) by lia.
    now rewrite Z.odd_add_mul_2.
Qed.

Lemma map2_pointwise {A B C} (P : A -> Prop) (Q : B -> Prop) (R : C -> Prop)
  (f : A -> B -> C) (a : list (list A)) (b : list (list B)) :
  (forall x y, P x -> Q y -> R (f x y)) ->
  Forall (Forall P) a -> Forall (Forall Q) b ->
  Forall (Forall R) (Np.map2 f a b).
Proof.
  intros Hf Ha Hb. unfold Np.map2.
  rewrite Forall_forall in Ha, Hb.
  apply Forall_map, Forall_forall. intros [r1 r2] Hin. cbn [fst snd].
  pose proof (Ha r1 (in_combine_l _ _ _ _ Hin)) as H1.
  pose proof (Hb r2 (in_combine_r _ _ _ _ Hin)) as H2.
  rewrite Forall_forall in H1, H2.
  apply Forall_map, Forall_forall. intros [x y] Hxy. cbn [fst snd].
  apply Hf; [apply H1|apply H2];
    [eapply in_combine_l|eapply in_combine_r]; exact Hxy.
Qed.

Lemma Forall2_true {A} (a : list (list A)) : Forall (Forall (fun _ => True)) a.
Proof.
  apply Forall_forall. intros r _. apply Forall_forall. now intros.
Qed.

Lemma subtract_nonneg (a b : image) :
  Forall (Forall (fun v => 0 <= v)) (Cv2.subtract a b).
Proof.
  unfold Cv2.subtract.
  apply (map2_pointwise (fun _ => True) (fun _ => True));
    [intros; lia|apply Forall2_true|apply Forall2_true].
Qed.

Lemma scale_astype_nonneg (a : image) (opacity : float) :
  Forall (Forall (fun v => 0 <= v)) (Np.scale_astype a opacity).
Proof.
  unfold Np.scale_astype. apply Forall_map, Forall_forall. intros r _.
  apply Forall_map, Forall_forall. intros v _. apply scale_px_nonneg.
Qed.

Lemma add_uint8 (a b : image) :
  Forall (Forall (fun v => 0 <= v)) a -> Forall (Forall (fun v => 0 <= v)) b ->
  uint8_valued (Cv2.add a b).
Proof.
  intros Ha Hb. unfold uint8_valued, Cv2.add.
  apply (map2_pointwise (fun v => 0 <= v) (fun v => 0 <= v));
    [intros; lia|exact Ha|exact Hb].
Qed.

(** [np.clip(., 0, 255)] after the saturating sum is the identity. *)
Lemma clip_uint8 (a : image) : uint8_valued a -> Np.clip a 0 255 = a.
Proof.
  intros H. unfold Np.clip. apply map_fixes.
  eapply Forall_impl; [|exact H]. intros r Hr. apply map_fixes.
  eapply Forall_impl; [|exact Hr]. intros v Hv. cbn beta in *. lia.
Qed.

Lemma outline_alpha_uint8 (blur : Z -> image -> image) (b : image)
  (k_in k_out k_blur : Z) (removed : image) (opacity : float) :
  uint8_valued (outline_alpha blur b k_in k_out k_blur removed opacity).
Proof.
  unfold outline_alpha. apply add_uint8;
    [apply scale_astype_nonneg|apply subtract_nonneg].
Qed.

Lemma lor_1 (s : Z) : 0 <= s -> Z.lor s 1 = s \/ Z.lor s 1 = s + 1.
Proof.
  intros Hs. destruct (Z.odd s) eqn:Ho.
  - left. apply Z.bits_inj'. intros n Hn. rewrite Z.lor_spec.
    destruct (Z.eq_dec n 0) as [->|Hn0].
    + rewrite Z.bit0_odd, Ho. reflexivity.
    + rewrite (Z.bits_above_log2 1 n) by (cbn; lia). apply orb_false_r.
  - right. apply Z.bits_inj'. intros n Hn. rewrite Z.lor_spec.
    destruct (Z.eq_dec n 0) as [->|Hn0].
    + rewrite !Z.bit0_odd, Ho, Z.odd_add, Ho. reflexivity.
    + rewrite (Z.bits_above_log2 1 n) by (cbn; lia). rewrite orb_false_r.
      rewrite (Z.div_mod s 2) at 2 by lia.
      rewrite Zmod_odd, Ho, Z.add_0_r.
      replace n with (Z.succ (n - 1)) by lia.
      rewrite Z.testbit_odd_succ by lia.
      rewrite (Z.div_mod s 2) at 1 by lia.
      rewrite Zmod_odd, Ho, Z.add_0_r.
      now rewrite Z.testbit_even_succ by lia.
Qed.

(** C2, as the code has it.  For a stroke [s >= 1] both functions succeed
    and return a saturating sum of an attenuated, blurred glow and a sharp
    inner stroke, each pixel a uint8 value, but not by the same steps.
    [create_outline_from_mask] binarizes at 127, takes the inner stroke
    with an [s + 1] wide ellipse (radius s/2) and the glow region with a
    [3s + 1] wide ellipse (radius 1.5 s) minus the binary mask itself,
    blurs with width [4s + 1] and attenuates by 0.6.  [create_outline]
    first closes the binarized mask with the 3 x 3 ellipse, uses ellipses
    [s] and [2s] wide, subtracts the inner dilation from the glow region,
    blurs with width [s | 1] (s or s + 1) and attenuates by 0.5. *)
Theorem outline_derivation_steps
  (blur : Z -> image -> image) (M : image) (s : Z) :
  1 <= s ->
  let B := Cv2.threshold M 127 255 in
  let B' := Cv2.morphologyEx_CLOSE B (Cv2.ellipse 3) in
  create_outline_from_mask blur M s
    = Ok (outline_alpha blur B (s + 1) (s * 3 + 1) (s * 4 + 1) B 0.6%float) /\
  create_outline blur M s
    = Ok (outline_alpha blur B' s (s * 2) (Z.lor s 1)
            (Cv2.dilate B' (Cv2.ellipse s)) 0.5%float) /\
  (Z.lor s 1 = s \/ Z.lor s 1 = s + 1) /\
  uint8_valued (outline_alpha blur B (s + 1) (s * 3 + 1) (s * 4 + 1) B 0.6%float) /\
  uint8_valued (outline_alpha blur B' s (s * 2) (Z.lor s 1)
                  (Cv2.dilate B' (Cv2.ellipse s)) 0.5%float).
Proof.
  intros Hs B B'. split; [|split; [|split; [|split]]].
  - unfold create_outline_from_mask, outline_from_mask_layers.
    rewrite !getStructuringElement_pos by lia. cbn [rbind inner outer].
    unfold GaussianBlur_checked. rewrite valid_ksize_4s1 by lia.
    cbn [rbind]. f_equal. fold B. apply clip_uint8.
    apply (outline_alpha_uint8 blur B (s + 1) (s * 3 + 1) (s * 4 + 1) B).
  - unfold create_outline, outline_layers.
    rewrite !getStructuringElement_pos by lia. cbn [rbind inner outer].
    unfold GaussianBlur_checked. rewrite valid_ksize_lor_1 by lia.
    cbn [rbind]. f_equal. fold B. fold B'. apply clip_uint8.
    apply (outline_alpha_uint8 blur B' s (s * 2) (Z.lor s 1)
             (Cv2.dilate B' (Cv2.ellipse s))).
  - apply lor_1. lia.
  - apply outline_alpha_uint8.
  - apply outline_alpha_uint8.
Qed.

Lemma outline_derivation_steps_witness :
  create_outline_from_mask blur1 (dot 255) 1
    = Ok (outline_alpha blur1 (dot 255) 2 4 5 (dot 255) 0.6%float) /\
  create_outline blur1 ring 2
    = Ok (outline_alpha blur1 (Np.full 3 3 255) 2 4 3 (Np.full 3 3 255)
            0.5%float).
Proof.
  assert (H1 : 1 <= 1) by lia. assert (H2 : 1 <= 2) by lia.
  split.
  - exact (proj1 (outline_derivation_steps blur1 (dot 255) 1 H1)).
  - exact (proj1 (proj2 (outline_derivation_steps blur1 ring 2 H2))).
Defined.

(** C2 as stated fails.  In [create_outline_from_mask] the glow region
    handed to the blur is not "minus the inner-dilated region": for the
    one-pixel subject [dot 255] at stroke 1 it still covers the inner
    stroke.  In [create_outline] the inner stroke is not taken from the
    binarized mask: for [ring] at stroke 2 the closing has filled the hole
    first, and the inner stroke the claim describes is not what is
    computed. *)
Lemma outline_steps_are_not_as_stated :
  (exists l,
     outline_from_mask_layers (dot 255) 1 = Ok l /\
     outer l <> glow_region (binary l) 4 (dilated_inner l)) /\
  (exists l,
     outline_layers ring 2 = Ok l /\
     inner l <> inner_stroke (Cv2.threshold ring 127 255) 2).
Proof.
  split; eexists; (split; [vm_compute; reflexivity|]);
    vm_compute; discriminate.
Qed.

(** * Further properties of the scripts *)

(** ** The execution providers *)

Module SessionFacts.

Import String.
Local Open Scope string_scope.

(** X1: whatever the platform and whether or not onnxruntime can be
    imported, the provider list of [get_fast_session] ends with the CPU
    provider, names no provider twice and only the three known ones; it
    holds CoreML exactly on Darwin/arm64, and CUDA exactly when onnxruntime
    imports and reports it. *)
Theorem providers_end_with_cpu (e : Session.env) :
  List.last (Session.providers e) "" = "CPUExecutionProvider" /\
  NoDup (Session.providers e) /\
  (forall p, In p (Session.providers e) ->
     p = "CoreMLExecutionProvider" \/ p = "CUDAExecutionProvider" \/
     p = "CPUExecutionProvider") /\
  (In "CoreMLExecutionProvider" (Session.providers e) <->
     Session.system e = "Darwin" /\ Session.machine e = "arm64") /\
  (In "CUDAExecutionProvider" (Session.providers e) <->
     exists available,
       Session.available_providers e = Ok available /\
       In "CUDAExecutionProvider" available).
Proof.
  unfold Session.providers.
  assert (Hc : (Session.system e =? "Darwin") && (Session.machine e =? "arm64") = true
               <-> Session.system e = "Darwin" /\ Session.machine e = "arm64").
  { rewrite andb_true_iff, !String.eqb_eq. reflexivity. }
  assert (Hg : forall available,
             existsb (String.eqb "CUDAExecutionProvider") available = true
             <-> In "CUDAExecutionProvider" available).
  { intros available. rewrite existsb_exists. split.
    - intros [x [Hx Ex]]. apply String.eqb_eq in Ex. now subst.
    - intros H. exists "CUDAExecutionProvider". split; [exact H|].
      apply String.eqb_refl. }
  destruct ((Session.system e =? "Darwin") && (Session.machine e =? "arm64"))
    eqn:Ec;
    destruct (Session.available_providers e) as [available|x] eqn:Ea;
    try destruct (existsb (String.eqb "CUDAExecutionProvider") available) eqn:Eg;
    cbn [app List.last];
    (split; [reflexivity|]);
    (split; [repeat constructor; cbn; intuition discriminate|]);
    (split; [cbn; intuition auto|]);
    (split; [cbn; split;
             [intros H; try (apply Hc; reflexivity);
              intuition discriminate
             |intros H; apply Hc in H; try discriminate; auto]|]);
    (cbn; split;
     [intros H; try (exists available; split; [reflexivity|now apply Hg]);
      intuition discriminate
     |intros [av [Hav Hin]]; try discriminate;
      try (injection Hav as <-; apply Hg in Hin; rewrite Hin in Eg;
           discriminate);
      auto]).
Qed.

(** The session is created whenever the plain ["u2net"] session can be:
    a failure on the preferred providers is caught. *)
Lemma get_fast_session_falls_back {session : Type}
  (new_session : string -> option (list string) -> result session)
  (e : Session.env) :
  is_ok (new_session "u2net" None) = true ->
  is_ok (Session.get_fast_session session new_session e) = true.
Proof.
  intros H. unfold Session.get_fast_session.
  now destruct (new_session "u2net" (Some (Session.providers e))).
Qed.

End SessionFacts.

(** ** Unvalidated arguments *)

Lemma mod_opp_is_zero (a N : Z) : (a mod (- N) =? 0) = (a mod N =? 0).
Proof.
  destruct (Z.eq_dec N 0) as [->|HN]; [reflexivity|].
  destruct (Z.eqb_spec (a mod N) 0) as [E|E].
  - apply Z.eqb_eq. now apply Z.mod_opp_r_z.
  - apply Z.eqb_neq. intros E'. apply E.
    rewrite <- (Z.opp_involutive N). apply Z.mod_opp_r_z; [lia|exact E'].
Qed.

Section NegativeInterval.

Context {Frame : Type}.
Variable blur : Z -> image -> image.
Variable remove_mask : Frame -> image.
Variable remove_rgba : Frame -> ndarray.
Variable c : capture Frame.
Variables stroke N : Z.

Lemma pv_frame_opp (l : pv_locals) (f : Frame) (w : world) :
  pv_frame blur remove_mask c stroke (- N) l f w
    = pv_frame blur remove_mask c stroke N l f w.
Proof.
  unfold pv_frame, bind, lift, py_mod.
  destruct (Z.eq_dec N 0) as [->|HN]; [reflexivity|].
  destruct (Z.eqb_spec N 0) as [|_]; [contradiction|].
  destruct (Z.eqb_spec (- N) 0) as [|_]; [lia|].
  now rewrite mod_opp_is_zero.
Qed.

Lemma pv_loop_opp (fs : list Frame) :
  forall l w,
    pv_loop blur remove_mask c stroke (- N) fs l w
      = pv_loop blur remove_mask c stroke N fs l w.
Proof.
  induction fs as [|f fs IH]; intros l w; [reflexivity|].
  cbn [pv_loop]. unfold bind. rewrite pv_frame_opp.
  destruct (pv_frame blur remove_mask c stroke N l f w) as [[l1|e] w1];
    [apply IH|reflexivity].
Qed.

Lemma fast_frame_opp (l : fast_locals) (f : Frame) (w : world) :
  fast_frame blur remove_rgba c stroke (- N) l f w
    = fast_frame blur remove_rgba c stroke N l f w.
Proof.
  unfold fast_frame, bind, lift, py_mod.
  destruct (Z.eq_dec N 0) as [->|HN]; [reflexivity|].
  destruct (Z.eqb_spec N 0) as [|_]; [contradiction|].
  destruct (Z.eqb_spec (- N) 0) as [|_]; [lia|].
  now rewrite mod_opp_is_zero.
Qed.

Lemma fast_loop_opp (fs : list Frame) :
  forall l w,
    fast_loop blur remove_rgba c stroke (- N) fs l w
      = fast_loop blur remove_rgba c stroke N fs l w.
Proof.
  induction fs as [|f fs IH]; intros l w; [reflexivity|].
  cbn [fast_loop]. unfold bind. rewrite fast_frame_opp.
  destruct (fast_frame blur remove_rgba c stroke N l f w) as [[l1|e] w1];
    [apply IH|reflexivity].
Qed.

End NegativeInterval.

(** X2: a negative sampling interval is not rejected; since only
    [index % sample_rate == 0] is tested, a run with [--sample -N] is, frame
    for frame and file for file, the run with [--sample N], in both
    scripts. *)
Theorem negative_interval_samples_like_positive
  {Frame : Type} (blur : Z -> image -> image) (ffmpeg : stream -> Z)
  (remove_mask : Frame -> image) (remove_rgba : Frame -> ndarray)
  (c : capture Frame) (stroke N : Z) (w : world) :
  process_video blur ffmpeg remove_mask c stroke (- N) w
    = process_video blur ffmpeg remove_mask c stroke N w /\
  process_video_fast blur ffmpeg remove_rgba c stroke (- N) w
    = process_video_fast blur ffmpeg remove_rgba c stroke N w.
Proof.
  split.
  - unfold process_video, bind at 1 3. now rewrite pv_loop_opp.
  - unfold process_video_fast, bind at 1 6. now rewrite fast_loop_opp.
Qed.

(** X3: on a video without frames nothing is segmented and nothing is
    written, whatever the sampling interval (0 included) and stroke:
    [process_video] still runs the encoder and returns normally, and
    [process_video_fast] still runs its three encodings, so its outcome is
    the encoder's. *)
Theorem empty_video_is_not_an_error
  {Frame : Type} (blur : Z -> image -> image) (ffmpeg : stream -> Z)
  (remove_mask : Frame -> image) (remove_rgba : Frame -> ndarray)
  (c : capture Frame) (stroke N : Z) :
  frames c = [] ->
  process_video blur ffmpeg remove_mask c stroke N empty_world
    = (Ok tt, {| tmp := [];
                 videos := if ffmpeg Outline =? 0 then [Outline] else [];
                 segmented := [] |}) /\
  segmented (snd (process_video_fast blur ffmpeg remove_rgba c stroke N
                    empty_world)) = [] /\
  tmp (snd (process_video_fast blur ffmpeg remove_rgba c stroke N
              empty_world)) = [] /\
  (fst (process_video_fast blur ffmpeg remove_rgba c stroke N empty_world)
     = Ok tt <->
   ffmpeg Fg = 0 /\ ffmpeg Outline = 0 /\ ffmpeg Shadow = 0).
Proof.
  intros Hfs. unfold process_video, process_video_fast. rewrite Hfs.
  cbn [pv_loop fast_loop]. unfold bind, ret, encode, bind, run_ffmpeg, lift,
    remove_frames, ret. cbn [tmp videos segmented empty_world filter].
  split; [reflexivity|].
  destruct (Z.eqb_spec (ffmpeg Fg) 0) as [E1|E1];
    [destruct (Z.eqb_spec (ffmpeg Outline) 0) as [E2|E2];
     [destruct (Z.eqb_spec (ffmpeg Shadow) 0) as [E3|E3]|]|];
    cbn [fst snd tmp segmented filter];
    (split; [reflexivity|]); (split; [reflexivity|]);
    (split; [intros H; try discriminate; auto|intros (H1 & H2 & H3); auto;
             contradiction]).
Qed.

Lemma empty_video_is_not_an_error_witness :
  process_video blur1 (fun _ => 0) stub_mask
    {| frames := []; width := 3; height := 3 |} 10 0 empty_world
    = (Ok tt, {| tmp := []; videos := [Outline]; segmented := [] |}).
Proof.
  exact (proj1 (empty_video_is_not_an_error blur1 (fun _ => 0) stub_mask
                  stub_rgba {| frames := []; width := 3; height := 3 |}
                  10 0 eq_refl)).
Defined.

(** X4: a negative stroke size is not rejected either.  With a stroke of
    -1 or less, [process_video] on a video that has a frame fails at its
    first frame with OpenCV's error, the frame having gone to the Mask
    Source and nothing having been written; [create_outline] of
    extract-foreground.py already refuses every stroke below 1. *)
Theorem negative_stroke_fails_in_opencv
  {Frame : Type} (blur : Z -> image -> image) (ffmpeg : stream -> Z)
  (remove_mask : Frame -> image) (c : capture Frame) (stroke N : Z)
  (w : world) :
  frames c <> [] -> N <> 0 -> stroke <= -1 ->
  process_video blur ffmpeg remove_mask c stroke N w
    = (Raise cv2_error,
       {| tmp := tmp w; videos := videos w; segmented := segmented w ++ [1] |}) /\
  (forall alpha, create_outline blur alpha stroke = Raise cv2_error).
Proof.
  intros Hne HN Hs. split.
  - unfold process_video. destruct (frames c) as [|f fs]; [contradiction|].
    cbn [pv_loop]. unfold bind, pv_frame, bind, lift, py_mod.
    destruct (Z.eqb_spec N 0) as [|_]; [contradiction|].
    cbn [pv_init frame_count last_outline].
    unfold pv_fresh, bind, note_segmented, lift.
    unfold create_outline_from_mask, outline_from_mask_layers,
      Cv2.getStructuringElement_ELLIPSE.
    destruct (Z.leb_spec (stroke + 1) 0); [reflexivity|lia].
  - intros alpha. unfold create_outline, outline_layers.
    change (Cv2.getStructuringElement_ELLIPSE 3) with (Ok (Cv2.ellipse 3)).
    cbn [rbind]. unfold Cv2.getStructuringElement_ELLIPSE.
    destruct (Z.leb_spec stroke 0); [reflexivity|lia].
Qed.

Lemma negative_stroke_fails_in_opencv_witness :
  process_video blur1 (fun _ => 0) stub_mask clip4 (-1) 2 empty_world
    = (Raise cv2_error, {| tmp := []; videos := []; segmented := [1] |}).
Proof.
  refine (proj1 (negative_stroke_fails_in_opencv blur1 (fun _ => 0) stub_mask
                   clip4 (-1) 2 empty_world _ _ _)).
  - discriminate.
  - discriminate.
  - lia.
Defined.

(** ** How often the Mask Source is called *)

Lemma div_step (N x : Z) :
  1 <= N -> x / N - (x - 1) / N = if x mod N =? 0 then 1 else 0.
Proof.
  intros HN.
  pose proof (Z.div_mod x N ltac:(lia)) as Hx.
  pose proof (Z.mod_pos_bound x N ltac:(lia)) as Hr.
  destruct (Z.eqb_spec (x mod N) 0) as [E|E].
  - rewrite <- (Z.div_unique_pos (x - 1) N (x / N - 1) (N - 1)); lia.
  - rewrite <- (Z.div_unique_pos (x - 1) N (x / N) (x mod N - 1)); lia.
Qed.

Lemma count_multiples (N c : Z) (a n : nat) :
  1 <= N ->
  Z.of_nat (length (filter (fun i => (Z.of_nat i + c) mod N =? 0) (seq a n)))
    = (Z.of_nat a + Z.of_nat n + c - 1) / N - (Z.of_nat a + c - 1) / N.
Proof.
  intros HN. induction n as [|n IH].
  - cbn [seq filter length]. replace (Z.of_nat a + Z.of_nat 0 + c - 1)
      with (Z.of_nat a + c - 1) by lia. lia.
  - rewrite seq_S, filter_app, length_app, Nat2Z.inj_add, IH.
    cbn [filter].
    replace (Z.of_nat (a + n) + c) with (Z.of_nat a + Z.of_nat n + c) by lia.
    pose proof (div_step N (Z.of_nat a + Z.of_nat n + c) HN) as Hstep.
    replace (Z.of_nat a + Z.of_nat (S n) + c - 1)
      with (Z.of_nat a + Z.of_nat n + c) by lia.
    destruct ((Z.of_nat a + Z.of_nat n + c) mod N =? 0); cbn [length]; lia.
Qed.

Lemma count_fresh_fast (N : Z) (n : nat) :
  1 <= N ->
  Z.of_nat (length (filter (fresh_fast N) (seq 0 n))) = (Z.of_nat n + N - 1) / N.
Proof.
  intros HN.
  rewrite (filter_ext (fresh_fast N) (fun i => (Z.of_nat i + 0) mod N =? 0))
    by (intros i; unfold fresh_fast; now rewrite Z.add_0_r).
  rewrite count_multiples by exact HN. cbn [Z.of_nat].
  replace (0 + 0 - 1) with (-1) by lia.
  replace (0 + Z.of_nat n + 0 - 1) with (Z.of_nat n - 1) by lia.
  rewrite <- (Z.div_unique_pos (-1) N (-1) (N - 1)) by lia.
  replace (Z.of_nat n + N - 1) with (Z.of_nat n - 1 + 1 * N) by lia.
  rewrite Z.div_add by lia. lia.
Qed.

Lemma count_fresh_pv (N : Z) (n : nat) :
  1 <= N ->
  Z.of_nat (length (filter (fresh_pv N) (seq 0 n)))
    = Z.of_nat n / N + (if (N =? 1) || (Z.of_nat n =? 0) then 0 else 1).
Proof.
  intros HN. destruct n as [|m].
  - cbn [seq filter length Z.of_nat]. rewrite Z.div_0_l by lia.
    now rewrite orb_true_r.
  - cbn [seq filter]. unfold fresh_pv at 1, fresh_pv_from. cbn [Nat.eqb andb orb length].
    rewrite (filter_ext_in (fresh_pv N) (fun i => (Z.of_nat i + 1) mod N =? 0)).
    + rewrite Nat2Z.inj_succ, count_multiples by exact HN.
      replace (Z.of_nat 1 + Z.of_nat m + 1 - 1) with (Z.of_nat (S m)) by lia.
      replace (Z.of_nat 1 + 1 - 1) with 1 by lia.
      destruct (Z.eqb_spec (Z.of_nat (S m)) 0) as [|_]; [lia|].
      rewrite orb_false_r. destruct (Z.eqb_spec N 1) as [->|H1].
      * rewrite !Z.div_1_r. lia.
      * rewrite (Z.div_small 1 N) by lia. lia.
    + intros i Hi. apply in_seq in Hi. unfold fresh_pv, fresh_pv_from.
      destruct (Nat.eqb_spec i 0); [lia|reflexivity].
Qed.

(** X5: for a sampling interval [N >= 1] and [n] frames on which the
    fresh computation succeeds, [process_video_fast] calls the Mask Source
    ceil(n / N) times, and [process_video], which also segments its first
    frame, floor(n / N) + 1 times (n times when N = 1, never when n = 0). *)
Theorem mask_source_call_count
  {Frame : Type} (blur : Z -> image -> image) (remove_mask : Frame -> image)
  (remove_rgba : Frame -> ndarray) (c : capture Frame) (stroke N : Z)
  (w : world) :
  1 <= N ->
  let n := Z.of_nat (length (frames c)) in
  ((forall f, In f (frames c) ->
      is_ok (fast_fresh blur remove_rgba c stroke f) = true) ->
   exists l' w',
     fast_loop blur remove_rgba c stroke N (frames c) fast_init w = (Ok l', w') /\
     processed l' = (n + N - 1) / N /\
     Z.of_nat (length (segmented w'))
       = Z.of_nat (length (segmented w)) + (n + N - 1) / N) /\
  ((forall f, In f (frames c) ->
      is_ok (pv_styled blur remove_mask c stroke f) = true) ->
   exists l' w',
     pv_loop blur remove_mask c stroke N (frames c) pv_init w = (Ok l', w') /\
     processed_count l'
       = n / N + (if (N =? 1) || (n =? 0) then 0 else 1) /\
     Z.of_nat (length (segmented w'))
       = Z.of_nat (length (segmented w)) +
         (n / N + (if (N =? 1) || (n =? 0) then 0 else 1))).
Proof.
  intros HN n. split; intros Hok.
  - destruct (fast_loop_from blur remove_rgba c stroke N HN (frames c)
                0%nat fast_init w eq_refl Hok)
      as (outs & l' & w' & Hrun & _ & _ & Hseg & Hproc & _).
    { intros H. unfold fresh_fast in H. rewrite Z.mod_0_l in H by lia.
      discriminate. }
    exists l', w'. split; [exact Hrun|]. split.
    + rewrite Hproc. cbn [processed fast_init].
      now rewrite count_fresh_fast.
    + rewrite Hseg, length_app, length_map, Nat2Z.inj_add.
      now rewrite count_fresh_fast.
  - destruct (pv_loop_from blur remove_mask c stroke N HN (frames c)
                0%nat pv_init w None eq_refl Hok I)
      as (outs & l' & w' & Hrun & _ & _ & Hseg & Hproc & _).
    cbn [nothing_yet] in Hseg, Hproc.
    change (fresh_pv_from N true 0) with (fresh_pv N) in Hseg, Hproc.
    exists l', w'. split; [exact Hrun|]. split.
    + rewrite Hproc. cbn [processed_count pv_init].
      now rewrite count_fresh_pv.
    + rewrite Hseg, length_app, length_map, Nat2Z.inj_add.
      now rewrite count_fresh_pv.
Qed.

Lemma mask_source_call_count_witness :
  (exists l' w',
     fast_loop blur1 stub_rgba clip4 1 3 (frames clip4) fast_init empty_world
       = (Ok l', w') /\
     processed l' = 2 /\ Z.of_nat (length (segmented w')) = 2) /\
  (exists l' w',
     pv_loop blur1 stub_mask clip4 1 3 (frames clip4) pv_init empty_world
       = (Ok l', w') /\
     processed_count l' = 2 /\ Z.of_nat (length (segmented w')) = 2).
Proof.
  assert (HN : 1 <= 3) by lia.
  destruct (mask_source_call_count blur1 stub_mask stub_rgba clip4 1 3
              empty_world HN) as [Hfast Hpv].
  split.
  - apply Hfast. intros f [<-|[<-|[<-|[<-|[]]]]]; vm_compute; reflexivity.
  - apply Hpv. intros f [<-|[<-|[<-|[<-|[]]]]]; vm_compute; reflexivity.
Defined.

(** ** What a held frame shows *)

Lemma filter_all {A} (f : A -> bool) (l : list A) :
  (forall x, f x = true) -> filter f l = l.
Proof.
  intros H. induction l as [|x l IH]; [reflexivity|].
  cbn. now rewrite H, IH.
Qed.

Lemma all_fresh_outputs {Frame Out : Type} (fresh : nat -> bool)
  (styled : Frame -> result Out) (before : option Out) (fs : list Frame)
  (outs : list Out) :
  (forall j, fresh j = true) ->
  sampled_and_held fresh styled before fs outs ->
  map Ok outs = map styled fs.
Proof.
  intros Hall [Hlen Hrec]. apply nth_error_ext. intros j.
  rewrite !nth_error_map.
  destruct (nth_error fs j) as [f|] eqn:Ef.
  - specialize (Hrec j f Ef). rewrite Hall in Hrec. cbn [option_map].
    destruct Hrec as (o & -> & ->). reflexivity.
  - apply nth_error_None in Ef. rewrite <- Hlen in Ef.
    apply nth_error_None in Ef. now rewrite Ef.
Qed.

(** X6: with sampling interval 1 every frame is segmented: the output
    written for each frame is the fresh result of that very frame, in both
    scripts, and the Mask Source sees the frames in order. *)
Theorem interval_one_segments_every_frame
  {Frame : Type} (blur : Z -> image -> image) (remove_mask : Frame -> image)
  (remove_rgba : Frame -> ndarray) (c : capture Frame) (stroke : Z)
  (w : world) :
  ((forall f, In f (frames c) ->
      is_ok (fast_fresh blur remove_rgba c stroke f) = true) ->
   exists outs l' w',
     fast_loop blur remove_rgba c stroke 1 (frames c) fast_init w = (Ok l', w') /\
     map Ok outs = map (fast_fresh blur remove_rgba c stroke) (frames c) /\
     tmp w' = tmp w ++ styled_files 0 outs /\
     segmented w'
       = segmented w ++ map Z.of_nat (seq 0 (length (frames c)))) /\
  ((forall f, In f (frames c) ->
      is_ok (pv_styled blur remove_mask c stroke f) = true) ->
   exists outs l' w',
     pv_loop blur remove_mask c stroke 1 (frames c) pv_init w = (Ok l', w') /\
     map Ok outs = map (pv_styled blur remove_mask c stroke) (frames c) /\
     tmp w' = tmp w ++ outline_files 1 outs /\
     segmented w'
       = segmented w ++
         map (fun i => Z.of_nat i + 1) (seq 0 (length (frames c)))).
Proof.
  assert (H1 : 1 <= 1) by lia.
  assert (Hf : forall j, fresh_fast 1 j = true).
  { intros j. unfold fresh_fast. now rewrite Z.mod_1_r. }
  assert (Hp : forall j, fresh_pv 1 j = true).
  { intros j. unfold fresh_pv, fresh_pv_from. rewrite Z.mod_1_r.
    apply orb_true_r. }
  split; intros Hok.
  - destruct (fast_loop_from blur remove_rgba c stroke 1 H1 (frames c)
                0%nat fast_init w eq_refl Hok)
      as (outs & l' & w' & Hrun & Htmp & _ & Hseg & _ & Hheld);
      [now rewrite Hf|].
    exists outs, l', w'. split; [exact Hrun|]. split; [|split].
    + eapply all_fresh_outputs; [|exact Hheld]. exact Hf.
    + exact Htmp.
    + now rewrite Hseg, (filter_all _ _ Hf).
  - destruct (pv_loop_from blur remove_mask c stroke 1 H1 (frames c)
                0%nat pv_init w None eq_refl Hok I)
      as (outs & l' & w' & Hrun & Htmp & _ & Hseg & _ & Hheld).
    cbn [nothing_yet] in Hseg, Hheld.
    change (fresh_pv_from 1 true 0) with (fresh_pv 1) in Hseg, Hheld.
    exists outs, l', w'. split; [exact Hrun|]. split; [|split].
    + eapply all_fresh_outputs; [|exact Hheld]. exact Hp.
    + exact Htmp.
    + now rewrite Hseg, (filter_all _ _ Hp).
Qed.

Lemma interval_one_segments_every_frame_witness :
  exists outs l' w',
    pv_loop blur1 stub_mask clip4 1 1 (frames clip4) pv_init empty_world
      = (Ok l', w') /\
    map Ok outs = map (pv_styled blur1 stub_mask clip4 1) (frames clip4) /\
    tmp w' = outline_files 1 outs /\
    segmented w' = [1; 2; 3; 4].
Proof.
  apply (proj2 (interval_one_segments_every_frame blur1 stub_mask stub_rgba
                  clip4 1 empty_world)).
  intros f [<-|[<-|[<-|[<-|[]]]]]; vm_compute; reflexivity.
Defined.

Lemma mod_succ_nonzero (N x : Z) :
  1 <= N -> (x + 1) mod N <> 0 -> (x + 1) mod N = x mod N + 1.
Proof.
  intros HN Hnz.
  pose proof (Z.div_mod x N ltac:(lia)) as Hx.
  pose proof (Z.mod_pos_bound x N ltac:(lia)) as Hr.
  destruct (Z.eq_dec (x mod N + 1) N) as [E|E].
  - exfalso. apply Hnz.
    rewrite (Z.mod_unique_pos (x + 1) N (x / N + 1) 0); lia.
  - symmetry. apply (Z.mod_unique_pos (x + 1) N (x / N)); lia.
Qed.

Lemma held_is_latest_sampled {Frame Out : Type} (N : Z)
  (styled : Frame -> result Out) (fs : list Frame) (outs : list Out) :
  1 <= N ->
  sampled_and_held (fresh_fast N) styled None fs outs ->
  forall i, (i < length fs)%nat ->
    exists f o,
      nth_error fs (latest_sampled N i) = Some f /\
      styled f = Ok o /\
      nth_error outs i = Some o.
Proof.
  intros HN [Hlen Hrec] i. induction i as [|i IH]; intros Hi.
  - destruct (nth_error fs 0) as [f|] eqn:Ef;
      [|apply nth_error_None in Ef; lia].
    specialize (Hrec 0%nat f Ef). unfold fresh_fast in Hrec.
    cbn [Z.of_nat] in Hrec. rewrite Z.mod_0_l in Hrec by lia.
    cbn [Z.eqb] in Hrec. destruct Hrec as (o & Ho & Hs).
    exists f, o. unfold latest_sampled. cbn [Z.of_nat].
    rewrite Z.mod_0_l by lia. cbn. auto.
  - destruct (nth_error fs (S i)) as [f|] eqn:Ef;
      [|apply nth_error_None in Ef; lia].
    specialize (Hrec (S i) f Ef). unfold fresh_fast in Hrec.
    destruct (Z.eqb_spec (Z.of_nat (S i) mod N) 0) as [E|E].
    + destruct Hrec as (o & Ho & Hs). exists f, o.
      unfold latest_sampled. rewrite E, Z.sub_0_r, Nat2Z.id. auto.
    + destruct (IH ltac:(lia)) as (f0 & o & Hf0 & Hs & Ho).
      exists f0, o. split; [|split; [exact Hs|congruence]].
      unfold latest_sampled in *.
      replace (Z.of_nat (S i)) with (Z.of_nat i + 1) in * by lia.
      rewrite (mod_succ_nonzero N (Z.of_nat i) HN E).
      replace (Z.of_nat i + 1 - (Z.of_nat i mod N + 1))
        with (Z.of_nat i - Z.of_nat i mod N) by lia.
      exact Hf0.
Qed.

(** X7: for a sampling interval [N >= 1], what [process_video_fast] writes
    for the frame at position [i] is the fresh result of the frame at the
    last multiple of [N] up to [i]: a held frame shows the most recent
    segmented frame, never an older one and never a blend. *)
Theorem held_frame_shows_latest_segmented
  {Frame : Type} (blur : Z -> image -> image) (remove_rgba : Frame -> ndarray)
  (c : capture Frame) (stroke N : Z) (w : world) :
  1 <= N ->
  (forall f, In f (frames c) ->
     is_ok (fast_fresh blur remove_rgba c stroke f) = true) ->
  exists outs l' w',
    fast_loop blur remove_rgba c stroke N (frames c) fast_init w = (Ok l', w') /\
    tmp w' = tmp w ++ styled_files 0 outs /\
    length outs = length (frames c) /\
    forall i, (i < length (frames c))%nat ->
      exists f o,
        nth_error (frames c) (latest_sampled N i) = Some f /\
        fast_fresh blur remove_rgba c stroke f = Ok o /\
        nth_error outs i = Some o.
Proof.
  intros HN Hok.
  destruct (fast_loop_from blur remove_rgba c stroke N HN (frames c)
              0%nat fast_init w eq_refl Hok)
    as (outs & l' & w' & Hrun & Htmp & _ & _ & _ & Hheld).
  { intros H. unfold fresh_fast in H. rewrite Z.mod_0_l in H by lia.
    discriminate. }
  exists outs, l', w'. split; [exact Hrun|]. split; [exact Htmp|].
  split; [exact (proj1 Hheld)|].
  now apply held_is_latest_sampled.
Qed.

Lemma held_frame_shows_latest_segmented_witness :
  exists outs l' w',
    fast_loop blur1 stub_rgba clip4 1 3 (frames clip4) fast_init empty_world
      = (Ok l', w') /\
    tmp w' = styled_files 0 outs /\
    length outs = 4%nat /\
    forall i, (i < 4)%nat ->
      exists f o,
        nth_error (frames clip4) (latest_sampled 3 i) = Some f /\
        fast_fresh blur1 stub_rgba clip4 1 f = Ok o /\
        nth_error outs i = Some o.
Proof.
  apply (held_frame_shows_latest_segmented blur1 stub_rgba clip4 1 3
           empty_world).
  - lia.
  - intros f [<-|[<-|[<-|[<-|[]]]]]; vm_compute; reflexivity.
Defined.

(** ** Encoding and clean-up *)

Lemma remove_all_streams (t : list (stream * Z * rgba)) :
  filter (fun f => negb (existsb
            (fun d => match d, fst (fst f) with
                      | Fg, Fg | Outline, Outline | Shadow, Shadow => true
                      | _, _ => false
                      end) [Fg; Outline; Shadow])) t = [].
Proof.
  induction t as [|[[s n] img] t IH]; [reflexivity|].
  cbn. destruct s; cbn; exact IH.
Qed.

(** X8: when the frame loop has completed and every encoder run exits with
    status 0, both scripts return normally with their videos encoded in
    order and their still images deleted: [process_video_fast] leaves its
    temporary directories empty, [process_video] leaves no outline frame
    and touches no other file. *)
Theorem successful_run_cleans_up
  {Frame : Type} (blur : Z -> image -> image) (ffmpeg : stream -> Z)
  (remove_mask : Frame -> image) (remove_rgba : Frame -> ndarray)
  (c : capture Frame) (stroke N : Z) (w : world) :
  ffmpeg Fg = 0 -> ffmpeg Outline = 0 -> ffmpeg Shadow = 0 ->
  let fast := fast_loop blur remove_rgba c stroke N (frames c) fast_init w in
  let pv := pv_loop blur remove_mask c stroke N (frames c) pv_init w in
  (is_ok (fst fast) = true ->
   process_video_fast blur ffmpeg remove_rgba c stroke N w
     = (Ok tt, {| tmp := [];
                  videos := videos (snd fast) ++ [Fg; Outline; Shadow];
                  segmented := segmented (snd fast) |})) /\
  (is_ok (fst pv) = true ->
   process_video blur ffmpeg remove_mask c stroke N w
     = (Ok tt, {| tmp := filter (fun f => negb (is_frame_of Outline f))
                                (tmp (snd pv));
                  videos := videos (snd pv) ++ [Outline];
                  segmented := segmented (snd pv) |})).
Proof.
  intros E1 E2 E3 fast pv. split; intros Hok.
  - unfold process_video_fast, bind at 1. fold fast.
    destruct fast as [[l|e] w1]; [|discriminate].
    unfold encode, run_ffmpeg, bind, ret, lift, remove_frames.
    rewrite E1, E2, E3. cbn [Z.eqb fst snd tmp videos segmented].
    rewrite remove_all_streams. now rewrite <- !app_assoc.
  - unfold process_video, bind at 1. fold pv.
    destruct pv as [[l|e] w1]; [|discriminate].
    unfold run_ffmpeg, bind, ret, remove_frames.
    rewrite E2. cbn [Z.eqb fst snd tmp videos segmented].
    do 2 f_equal. apply filter_ext. intros [[s n] img].
    cbn. now destruct s.
Qed.

Lemma successful_run_cleans_up_witness :
  process_video_fast blur1 (fun _ => 0) stub_rgba clip4 1 2 empty_world
    = (Ok tt, {| tmp := []; videos := [Fg; Outline; Shadow];
                 segmented := [0; 2] |}) /\
  process_video blur1 (fun _ => 0) stub_mask clip4 1 2 empty_world
    = (Ok tt, {| tmp := []; videos := [Outline]; segmented := [1; 2; 4] |}).
Proof.
  destruct (successful_run_cleans_up blur1 (fun _ => 0) stub_mask stub_rgba
              clip4 1 2 empty_world eq_refl eq_refl eq_refl) as [Hf Hp].
  split.
  - rewrite Hf by (vm_compute; reflexivity). vm_compute. reflexivity.
  - rewrite Hp by (vm_compute; reflexivity). vm_compute. reflexivity.
Defined.

(** X9: in [process_video_fast] the first encoder run that exits non-zero
    raises [CalledProcessError] at once: the later streams are not
    encoded, the videos of the earlier ones stay, and every still image
    the loop wrote is kept. *)
Theorem encoder_failure_stops_the_run
  {Frame : Type} (blur : Z -> image -> image) (ffmpeg : stream -> Z)
  (remove_rgba : Frame -> ndarray) (c : capture Frame) (stroke N : Z)
  (w : world) :
  let fast := fast_loop blur remove_rgba c stroke N (frames c) fast_init w in
  is_ok (fst fast) = true ->
  ffmpeg Fg <> 0 \/ ffmpeg Outline <> 0 \/ ffmpeg Shadow <> 0 ->
  process_video_fast blur ffmpeg remove_rgba c stroke N w
    = (Raise CalledProcessError,
       {| tmp := tmp (snd fast);
          videos := videos (snd fast) ++
                    (if ffmpeg Fg =? 0
                     then Fg :: (if ffmpeg Outline =? 0 then [Outline] else [])
                     else []);
          segmented := segmented (snd fast) |}).
Proof.
  intros fast Hok Hst. unfold process_video_fast, bind at 1. fold fast.
  destruct fast as [[l|e] w1]; [|discriminate].
  unfold encode, run_ffmpeg, bind, ret, lift.
  cbn [fst snd tmp videos segmented].
  destruct (Z.eqb_spec (ffmpeg Fg) 0) as [E1|E1];
    cbn [fst snd tmp videos segmented]; [|now rewrite app_nil_r].
  destruct (Z.eqb_spec (ffmpeg Outline) 0) as [E2|E2];
    cbn [fst snd tmp videos segmented]; [|reflexivity].
  destruct (Z.eqb_spec (ffmpeg Shadow) 0) as [E3|E3];
    cbn [fst snd tmp videos segmented]; [lia|].
  now rewrite <- app_assoc.
Qed.

Lemma encoder_failure_stops_the_run_witness :
  process_video_fast blur1
    (fun s => match s with Outline => 1 | _ => 0 end)
    stub_rgba clip4 1 2 empty_world
    = (Raise CalledProcessError,
       {| tmp := tmp (snd (fast_loop blur1 stub_rgba clip4 1 2 (frames clip4)
                             fast_init empty_world));
          videos := [Fg];
          segmented := [0; 2] |}).
Proof.
  rewrite (encoder_failure_stops_the_run blur1
             (fun s => match s with Outline => 1 | _ => 0 end)
             stub_rgba clip4 1 2 empty_world).
  - vm_compute. reflexivity.
  - vm_compute. reflexivity.
  - right. left. discriminate.
Defined.

(** ** The shadow inside the frame *)

Lemma px_translated (shadow : image) (h w dx dy i j : nat) :
  Np.rect h w shadow -> (dx <= w)%nat -> (dy <= h)%nat ->
  (i < h)%nat -> (j < w)%nat ->
  Np.px (repeat (repeat 0 w) dy ++
         map (fun row => repeat 0 dx ++ firstn (w - dx) row)
             (firstn (h - dy) shadow)) i j
    = if (i <? dy)%nat || (j <? dx)%nat then 0
      else Np.px shadow (i - dy) (j - dx).
Proof.
  intros Hrect Hdx Hdy Hi Hj. unfold Np.px.
  pose proof (rect_length _ _ _ Hrect) as Hl.
  destruct (Nat.ltb_spec i dy) as [Hlt|Hge]; cbn [orb].
  - rewrite app_nth1 by (rewrite repeat_length; lia).
    rewrite (nth_indep _ [] (repeat 0 w)) by (rewrite repeat_length; lia).
    rewrite nth_repeat. apply nth_repeat.
  - rewrite app_nth2 by (rewrite repeat_length; lia).
    rewrite repeat_length.
    set (F := fun row : list Z => repeat 0 dx ++ firstn (w - dx) row).
    rewrite (nth_indep _ [] (F []))
      by (rewrite length_map, length_firstn; lia).
    rewrite map_nth. unfold F. rewrite nth_firstn.
    destruct (Nat.ltb_spec (i - dy) (h - dy)) as [_|]; [|lia].
    pose proof (rect_row h w shadow (i - dy) Hrect ltac:(lia)) as Hr.
    destruct (Nat.ltb_spec j dx) as [Hjl|Hjg].
    + rewrite app_nth1 by (rewrite repeat_length; lia). apply nth_repeat.
    + rewrite app_nth2 by (rewrite repeat_length; lia).
      rewrite repeat_length, nth_firstn.
      destruct (Nat.ltb_spec (j - dx) (w - dx)) as [_|]; [reflexivity|lia].
Qed.

(** X10: for offsets inside the frame, [0 <= offset_x <= w] and
    [0 <= offset_y <= h], [create_shadow] returns an image of the mask's
    size that is the blurred, attenuated shadow moved right by [offset_x]
    and down by [offset_y]: transparent in its first [offset_y] rows and
    first [offset_x] columns, and elsewhere the shadow pixel from
    [offset_y] rows up and [offset_x] columns left; what moves past the
    bottom or right edge is dropped, nothing wraps around. *)
Theorem shadow_is_translated_inside_frame
  (blur : Z -> image -> image) (alpha : image) (h w : nat)
  (offset_x offset_y b : Z) (opacity : float) :
  keeps_dims blur -> 0 <= b -> Np.rect h w alpha ->
  0 <= offset_x <= Z.of_nat w -> 0 <= offset_y <= Z.of_nat h ->
  exists shadow out,
    shadow_layer blur alpha b opacity = Ok shadow /\
    create_shadow blur alpha offset_x offset_y b opacity = Ok out /\
    Np.rect h w out /\
    forall i j, (i < h)%nat -> (j < w)%nat ->
      Np.px out i j
        = if (Z.of_nat i <? offset_y) || (Z.of_nat j <? offset_x) then 0
          else Np.px shadow (i - Z.to_nat offset_y) (j - Z.to_nat offset_x).
Proof.
  intros Hblur Hb Hrect Hx Hy.
  pose proof (shadow_layer_ok blur alpha b opacity Hb) as Hok.
  destruct (shadow_layer blur alpha b opacity) as [shadow|e] eqn:Es;
    [|discriminate].
  assert (Hsh : Np.rect h w shadow).
  { unfold Np.rect. now rewrite (shadow_layer_dims blur _ _ _ _ Hblur Es). }
  pose proof (shadow_offset_in_frame shadow h w (Z.to_nat offset_x)
                (Z.to_nat offset_y) Hsh ltac:(lia) ltac:(lia)) as Hoff.
  rewrite !Z2Nat.id in Hoff by lia.
  eexists shadow, _. split; [reflexivity|].
  unfold create_shadow. rewrite Es. cbn [rbind].
  split; [exact Hoff|]. split.
  - eapply shadow_offset_rect; [exact Hsh|exact Hoff].
  - intros i j Hi Hj.
    rewrite (px_translated shadow h w) by (assumption || lia).
    destruct (Nat.ltb_spec i (Z.to_nat offset_y)),
             (Z.ltb_spec (Z.of_nat i) offset_y); try lia;
      destruct (Nat.ltb_spec j (Z.to_nat offset_x)),
               (Z.ltb_spec (Z.of_nat j) offset_x); try lia; reflexivity.
Qed.

Lemma shadow_is_translated_inside_frame_witness :
  exists shadow out,
    shadow_layer blur1 (Np.full 3 3 255) 25 0.35%float = Ok shadow /\
    create_shadow blur1 (Np.full 3 3 255) 1 2 25 0.35%float = Ok out /\
    Np.rect 3 3 out /\
    forall i j, (i < 3)%nat -> (j < 3)%nat ->
      Np.px out i j
        = if (Z.of_nat i <? 2) || (Z.of_nat j <? 1) then 0
          else Np.px shadow (i - Z.to_nat 2) (j - Z.to_nat 1).
Proof.
  apply (shadow_is_translated_inside_frame blur1 (Np.full 3 3 255) 3 3 1 2 25
           0.35%float blur1_keeps_dims).
  - lia.
  - reflexivity.
  - lia.
  - lia.
Defined.

(** ** Morphology on uniform and binary masks *)

Lemma neighbourhood_px (a : image) (k : Cv2.kernel) (h w i j : nat) (v : Z) :
  Np.rect h w a -> In v (Cv2.neighbourhood a k i j) ->
  exists y x, (y < h)%nat /\ (x < w)%nat /\ v = Np.px a y x.
Proof.
  intros H Hin. unfold Cv2.neighbourhood in Hin.
  apply in_flat_map in Hin. destruct Hin as [o [_ Hv]].
  destruct (Cv2.at_offset a i j o) as [v0|] eqn:E; [|contradiction].
  destruct Hv as [->|[]].
  unfold Cv2.at_offset in E.
  destruct ((0 <=? Z.of_nat i + fst o) && (0 <=? Z.of_nat j + snd o));
    [|discriminate].
  remember (Z.to_nat (Z.of_nat i + fst o)) as y.
  remember (Z.to_nat (Z.of_nat j + snd o)) as x.
  destruct (nth_error a y) as [row|] eqn:Er; [|discriminate].
  pose proof (rect_length _ _ _ H) as Hl.
  assert (Hy : (y < h)%nat).
  { rewrite <- Hl. apply nth_error_Some. congruence. }
  pose proof (rect_row h w a y H Hy) as Hr.
  apply (nth_error_nth _ _ []) in Er.
  assert (Hx : (x < w)%nat).
  { rewrite <- Hr, Er. apply nth_error_Some. congruence. }
  exists y, x. split; [exact Hy|]. split; [exact Hx|].
  unfold Np.px. rewrite Er. symmetry. now apply nth_error_nth.
Qed.

Lemma centre_in_neighbourhood (a : image) (k : Cv2.kernel) (h w i j : nat) :
  Np.rect h w a -> (i < h)%nat -> (j < w)%nat -> In (0, 0) k ->
  In (Np.px a i j) (Cv2.neighbourhood a k i j).
Proof.
  intros H Hi Hj Hk. apply (in_neighbourhood a k i j (0, 0)); [exact Hk|].
  rewrite (at_offset_in_frame a h w i j (0, 0) H) by (cbn [fst snd]; lia).
  cbn [fst snd]. now rewrite !Z.add_0_r, !Nat2Z.id.
Qed.

Lemma fold_max_pred (P : Z -> Prop) (l : list Z) :
  P 0 -> (forall v, In v l -> P v) -> P (fold_right Z.max 0 l).
Proof.
  intros H0 H. induction l as [|x l IH]; [exact H0|].
  cbn [fold_right].
  destruct (Z.max_spec x (fold_right Z.max 0 l)) as [[_ ->]|[_ ->]].
  - apply IH. intros v Hv. apply H. now right.
  - apply H. now left.
Qed.

Lemma fold_min_pred (P : Z -> Prop) (l : list Z) :
  P 255 -> (forall v, In v l -> P v) -> P (fold_right Z.min 255 l).
Proof.
  intros H0 H. induction l as [|x l IH]; [exact H0|].
  cbn [fold_right].
  destruct (Z.min_spec x (fold_right Z.min 255 l)) as [[_ ->]|[_ ->]].
  - apply H. now left.
  - apply IH. intros v Hv. apply H. now right.
Qed.

Lemma fold_min_le (l : list Z) (v : Z) :
  In v l -> fold_right Z.min 255 l <= v.
Proof.
  induction l as [|x l IH]; intros H; [contradiction|].
  cbn. destruct H as [->|H]; [lia|]. specialize (IH H). lia.
Qed.

Lemma px_erode (a : image) (k : Cv2.kernel) (h w i j : nat) :
  Np.rect h w a -> (i < h)%nat -> (j < w)%nat ->
  Np.px (Cv2.erode a k) i j = fold_right Z.min 255 (Cv2.neighbourhood a k i j).
Proof. intros. unfold Cv2.erode. now rewrite (px_tabulate a _ h w). Qed.

Lemma rect_dilate (a : image) (k : Cv2.kernel) (h w : nat) :
  Np.rect h w a -> Np.rect h w (Cv2.dilate a k).
Proof. intros H. eapply rect_of_dims; [apply dims_dilate|exact H]. Qed.

Lemma rect_erode (a : image) (k : Cv2.kernel) (h w : nat) :
  Np.rect h w a -> Np.rect h w (Cv2.erode a k).
Proof. intros H. eapply rect_of_dims; [apply dims_erode|exact H]. Qed.

Lemma rect_subtract (a b : image) (h w : nat) :
  Np.rect h w a -> Np.rect h w b -> Np.rect h w (Cv2.subtract a b).
Proof.
  intros Ha Hb. eapply rect_of_dims; [|exact Ha]. apply dims_subtract.
  unfold Np.rect in Ha, Hb. congruence.
Qed.

(** The anchor of an elliptic element is one of its cells. *)
Lemma ellipse_cell_centre (k : Z) :
  0 < k -> Cv2.ellipse_cell k (k / 2) (k / 2) = true.
Proof.
  intros Hk. unfold Cv2.ellipse_cell.
  destruct (Z.eqb_spec k 1) as [|Hk1]; [reflexivity|]. cbv zeta.
  assert (Hr : 1 <= k / 2) by (apply Z.div_le_lower_bound; lia).
  assert (Hrk : k / 2 < k) by (apply Z.div_lt; lia).
  set (r := k / 2) in *. rewrite Z.sub_diag.
  assert (Hdx : Cv2.ellipse_dx r 0 = r).
  { unfold Cv2.ellipse_dx.
    replace (4 * (r * r - 0 * 0)) with ((2 * r) * (2 * r)) by ring.
    rewrite Z.sqrt_square by lia.
    replace (2 * r + 1) with (r * 2 + 1) by ring.
    rewrite Z.div_add_l by lia. change (1 / 2) with 0. lia. }
  rewrite Hdx.
  destruct (Z.leb_spec (Z.abs 0) r) as [_|]; [|lia].
  apply andb_true_iff. split; [apply Z.leb_le|apply Z.ltb_lt]; lia.
Qed.

Lemma ellipse_has_centre (k : Z) : 0 < k -> In (0, 0) (Cv2.ellipse k).
Proof.
  intros Hk. unfold Cv2.ellipse.
  assert (H0 : 0 <= k / 2) by (apply Z.div_pos; lia).
  assert (Hrk : k / 2 < k) by (apply Z.div_lt; lia).
  assert (Hin : In (Z.to_nat (k / 2)) (seq 0 (Z.to_nat k))).
  { apply in_seq. lia. }
  apply in_flat_map. exists (Z.to_nat (k / 2)). split; [exact Hin|].
  apply in_flat_map. exists (Z.to_nat (k / 2)). split; [exact Hin|].
  rewrite Z2Nat.id by lia. rewrite ellipse_cell_centre by lia.
  left. f_equal; lia.
Qed.

Lemma ellipse_of_positive (k : Z) :
  0 < k -> Cv2.getStructuringElement_ELLIPSE k = Ok (Cv2.ellipse k).
Proof.
  intros Hk. unfold Cv2.getStructuringElement_ELLIPSE.
  destruct (Z.leb_spec k 0); [lia|reflexivity].
Qed.

Section ConstantImage.

Variable a : image.
Variables h w : nat.
Hypothesis a_rect : Np.rect h w a.
Variable c : Z.
Hypothesis c_range : 0 <= c <= 255.
Hypothesis a_const :
  forall i j, (i < h)%nat -> (j < w)%nat -> Np.px a i j = c.
Variable k : Cv2.kernel.
Hypothesis k_centre : In (0, 0) k.

Lemma px_dilate_const (i j : nat) :
  (i < h)%nat -> (j < w)%nat -> Np.px (Cv2.dilate a k) i j = c.
Proof.
  intros Hi Hj. rewrite (px_dilate a k h w) by assumption.
  pose proof (fold_max_ge _ _ (centre_in_neighbourhood a k h w i j
                                 a_rect Hi Hj k_centre)) as Hge.
  rewrite (a_const i j Hi Hj) in Hge.
  assert (Hp : fold_right Z.max 0 (Cv2.neighbourhood a k i j) = 0 \/
               fold_right Z.max 0 (Cv2.neighbourhood a k i j) = c).
  { apply (fold_max_pred (fun v => v = 0 \/ v = c)); [now left|].
    intros v Hv. destruct (neighbourhood_px a k h w i j v a_rect Hv)
      as [y [x [Hy [Hx ->]]]]. right. now apply a_const. }
  destruct Hp; lia.
Qed.

Lemma px_erode_const (i j : nat) :
  (i < h)%nat -> (j < w)%nat -> Np.px (Cv2.erode a k) i j = c.
Proof.
  intros Hi Hj. rewrite (px_erode a k h w) by assumption.
  pose proof (fold_min_le _ _ (centre_in_neighbourhood a k h w i j
                                 a_rect Hi Hj k_centre)) as Hle.
  rewrite (a_const i j Hi Hj) in Hle.
  assert (Hp : fold_right Z.min 255 (Cv2.neighbourhood a k i j) = 255 \/
               fold_right Z.min 255 (Cv2.neighbourhood a k i j) = c).
  { apply (fold_min_pred (fun v => v = 255 \/ v = c)); [now left|].
    intros v Hv. destruct (neighbourhood_px a k h w i j v a_rect Hv)
      as [y [x [Hy [Hx ->]]]]. right. now apply a_const. }
  destruct Hp; lia.
Qed.

End ConstantImage.

Lemma binary_dilate (a : image) (k : Cv2.kernel) (h w : nat) :
  Np.rect h w a -> binary_on h w a -> binary_on h w (Cv2.dilate a k).
Proof.
  intros H Hb i j Hi Hj. rewrite (px_dilate a k h w) by assumption.
  apply (fold_max_pred (fun v => v = 0 \/ v = 255)); [now left|].
  intros v Hv. destruct (neighbourhood_px a k h w i j v H Hv)
    as [y [x [Hy [Hx ->]]]]. now apply Hb.
Qed.

Lemma binary_erode (a : image) (k : Cv2.kernel) (h w : nat) :
  Np.rect h w a -> binary_on h w a -> binary_on h w (Cv2.erode a k).
Proof.
  intros H Hb i j Hi Hj. rewrite (px_erode a k h w) by assumption.
  apply (fold_min_pred (fun v => v = 0 \/ v = 255)); [now right|].
  intros v Hv. destruct (neighbourhood_px a k h w i j v H Hv)
    as [y [x [Hy [Hx ->]]]]. now apply Hb.
Qed.

Lemma binary_threshold (a : image) (t : Z) (h w : nat) :
  Np.rect h w a -> binary_on h w (Cv2.threshold a t 255).
Proof.
  intros H i j Hi Hj. rewrite (px_threshold a _ _ h w) by assumption.
  unfold Cv2.threshold_px. destruct (_ >? t); auto.
Qed.

(** ** A frame without an edge *)

Lemma zero_image (M a : image) (h w : nat) :
  Np.rect h w M -> Np.rect h w a ->
  (forall i j, (i < h)%nat -> (j < w)%nat -> Np.px a i j = 0) ->
  a = Np.zeros_like M.
Proof.
  intros HM Ha Hz. apply (image_ext _ _ h w);
    [exact Ha|now apply rect_zeros_like|].
  intros i j Hi Hj. unfold Np.zeros_like.
  rewrite (px_map_map _ M h w) by assumption. now apply Hz.
Qed.

Lemma threshold_uniform (M : image) (t : Z) (h w : nat) :
  Np.rect h w M -> uniform_at t M h w ->
  exists c, 0 <= c <= 255 /\
    forall i j, (i < h)%nat -> (j < w)%nat ->
      Np.px (Cv2.threshold M t 255) i j = c.
Proof.
  intros HM [Hlow|Hhigh].
  - exists 0. split; [lia|]. intros i j Hi Hj.
    rewrite (px_threshold M _ _ h w) by assumption.
    unfold Cv2.threshold_px. specialize (Hlow i j Hi Hj).
    destruct (Z.gtb_spec (Np.px M i j) t); [lia|reflexivity].
  - exists 255. split; [lia|]. intros i j Hi Hj.
    rewrite (px_threshold M _ _ h w) by assumption.
    unfold Cv2.threshold_px. specialize (Hhigh i j Hi Hj).
    destruct (Z.gtb_spec (Np.px M i j) t); [reflexivity|lia].
Qed.

Lemma subtract_equal (M a b : image) (h w : nat) (c : Z) :
  Np.rect h w M -> Np.rect h w a -> Np.rect h w b ->
  (forall i j, (i < h)%nat -> (j < w)%nat -> Np.px a i j = c) ->
  (forall i j, (i < h)%nat -> (j < w)%nat -> Np.px b i j = c) ->
  Cv2.subtract a b = Np.zeros_like M.
Proof.
  intros HM Ha Hb Hac Hbc. apply (zero_image M _ h w HM).
  - now apply rect_subtract.
  - intros i j Hi Hj. unfold Cv2.subtract.
    rewrite (px_map2 _ _ _ h w) by assumption.
    rewrite Hac, Hbc by assumption. lia.
Qed.

(** Blurring, attenuating and adding the inner stroke, when both layers
    are empty. *)
Lemma glow_on_nothing (blur : Z -> image -> image) (M : image) (h w : nat)
  (k : Z) (opacity : float) :
  keeps_zero blur -> Np.rect h w M -> Np.scale_px opacity 0 = 0 ->
  Np.clip (Cv2.add (Np.scale_astype (blur k (Np.zeros_like M)) opacity)
                   (Np.zeros_like M)) 0 255
    = Np.zeros_like M.
Proof.
  intros Hz HM Hop. rewrite Hz by apply all_zero_zeros_like.
  pose proof (rect_zeros_like h w M HM) as HZ.
  assert (Hs : Np.rect h w (Np.scale_astype (Np.zeros_like M) opacity)).
  { eapply rect_of_dims; [apply dims_scale|exact HZ]. }
  assert (Ha : Np.rect h w (Cv2.add (Np.scale_astype (Np.zeros_like M) opacity)
                                    (Np.zeros_like M))).
  { eapply rect_of_dims; [|exact Hs]. apply dims_add.
    unfold Np.rect in HZ, Hs. congruence. }
  apply (zero_image M _ h w HM).
  - eapply rect_of_dims; [apply dims_clip|exact Ha].
  - intros i j Hi Hj. unfold Np.clip.
    rewrite (px_map_map _ _ h w) by assumption.
    unfold Cv2.add. rewrite (px_map2 _ _ _ h w) by assumption.
    unfold Np.scale_astype. rewrite (px_map_map _ _ h w) by assumption.
    unfold Np.zeros_like. rewrite (px_map_map _ M h w) by assumption.
    rewrite Hop. reflexivity.
Qed.

(** X11: a mask without an edge has no outline.  When no pixel of the
    mask is above the threshold 127 (no subject), or every pixel is (the
    subject fills the frame), both [create_outline_from_mask] and
    [create_outline] return the fully transparent image of the mask's
    size, for every stroke size from 1 up: dilation and closing leave a
    uniform mask as it is, so the inner stroke and the glow region are
    both empty.  Of the blur this uses that it keeps an empty image
    empty. *)
Theorem uniform_mask_has_no_outline (blur : Z -> image -> image) (M : image)
  (h w : nat) (s : Z) :
  keeps_zero blur -> Np.rect h w M -> 1 <= s -> uniform_at 127 M h w ->
  create_outline_from_mask blur M s = Ok (Np.zeros_like M) /\
  create_outline blur M s = Ok (Np.zeros_like M).
Proof.
  intros Hz HM Hs Hu.
  destruct (threshold_uniform M 127 h w HM Hu) as [c [Hc HB]].
  set (B := Cv2.threshold M 127 255) in *.
  assert (HBr : Np.rect h w B) by now apply rect_map_map.
  split.
  - unfold create_outline_from_mask, outline_from_mask_layers.
    rewrite !ellipse_of_positive by lia. cbn [rbind inner outer].
    unfold GaussianBlur_checked. rewrite valid_ksize_4s1 by lia.
    cbn [rbind]. fold B.
    rewrite (subtract_equal M (Cv2.dilate B (Cv2.ellipse (s + 1))) B h w c);
      try assumption;
      [|now apply rect_dilate
       |apply (px_dilate_const B h w HBr c Hc HB); apply ellipse_has_centre; lia].
    rewrite (subtract_equal M (Cv2.dilate B (Cv2.ellipse (s * 3 + 1))) B h w c);
      try assumption;
      [|now apply rect_dilate
       |apply (px_dilate_const B h w HBr c Hc HB); apply ellipse_has_centre; lia].
    f_equal. now apply (glow_on_nothing blur M h w).
  - unfold create_outline, outline_layers.
    change (Cv2.getStructuringElement_ELLIPSE 3) with (Ok (Cv2.ellipse 3)).
    rewrite !ellipse_of_positive by lia. cbn [rbind inner outer].
    unfold GaussianBlur_checked. rewrite valid_ksize_lor_1 by lia.
    cbn [rbind]. fold B.
    set (B' := Cv2.morphologyEx_CLOSE B (Cv2.ellipse 3)).
    assert (HB'r : Np.rect h w B').
    { unfold B', Cv2.morphologyEx_CLOSE.
      now apply rect_erode, rect_dilate. }
    assert (HB' : forall i j, (i < h)%nat -> (j < w)%nat -> Np.px B' i j = c).
    { unfold B', Cv2.morphologyEx_CLOSE.
      apply (px_erode_const _ h w (rect_dilate B _ h w HBr) c Hc);
        [|apply ellipse_has_centre; lia].
      apply (px_dilate_const B h w HBr c Hc HB).
      apply ellipse_has_centre; lia. }
    rewrite (subtract_equal M (Cv2.dilate B' (Cv2.ellipse s)) B' h w c);
      try assumption;
      [|now apply rect_dilate
       |apply (px_dilate_const B' h w HB'r c Hc HB');
        apply ellipse_has_centre; lia].
    rewrite (subtract_equal M (Cv2.dilate B' (Cv2.ellipse (s * 2)))
               (Cv2.dilate B' (Cv2.ellipse s)) h w c);
      try assumption;
      [|now apply rect_dilate|now apply rect_dilate
       |apply (px_dilate_const B' h w HB'r c Hc HB');
        apply ellipse_has_centre; lia
       |apply (px_dilate_const B' h w HB'r c Hc HB');
        apply ellipse_has_centre; lia].
    f_equal. now apply (glow_on_nothing blur M h w).
Qed.

Lemma blur1_keeps_zero : keeps_zero blur1.
Proof. intros k a _. reflexivity. Qed.

Lemma uniform_mask_has_no_outline_witness :
  create_outline_from_mask blur1 (Np.full 4 5 200) 12
    = Ok (Np.zeros_like (Np.full 4 5 200)) /\
  create_outline blur1 (Np.full 4 5 200) 12
    = Ok (Np.zeros_like (Np.full 4 5 200)).
Proof.
  apply (uniform_mask_has_no_outline blur1 (Np.full 4 5 200) 4 5 12
           blur1_keeps_zero).
  - reflexivity.
  - lia.
  - right. intros i j Hi Hj.
    do 4 (destruct i as [|i]; [do 5 (destruct j as [|j]; [reflexivity|]); lia|]).
    lia.
Defined.

(** X12: a mask without subject casts no shadow.  When no pixel of the
    mask is above the shadow threshold 100, [create_shadow] returns the
    fully transparent image of the mask's size for every offset inside
    the frame and every blur radius from 0 up.  Of the blur this uses that
    it keeps an empty image empty, and of the opacity that it is a number
    whose product with 0 is 0. *)
Theorem no_subject_no_shadow (blur : Z -> image -> image) (M : image)
  (h w : nat) (offset_x offset_y b : Z) (opacity : float) :
  keeps_zero blur -> Np.rect h w M -> 0 <= b ->
  Np.scale_px opacity 0 = 0 ->
  0 <= offset_x <= Z.of_nat w -> 0 <= offset_y <= Z.of_nat h ->
  (forall i j, (i < h)%nat -> (j < w)%nat -> Np.px M i j <= 100) ->
  create_shadow blur M offset_x offset_y b opacity = Ok (Np.zeros_like M).
Proof.
  intros Hz HM Hb Hop Hx Hy Hlow.
  set (B := Cv2.threshold M 100 255).
  assert (HBr : Np.rect h w B) by now apply rect_map_map.
  assert (HB : forall i j, (i < h)%nat -> (j < w)%nat -> Np.px B i j = 0).
  { intros i j Hi Hj. unfold B.
    rewrite (px_threshold M _ _ h w) by assumption.
    unfold Cv2.threshold_px. specialize (Hlow i j Hi Hj).
    destruct (Z.gtb_spec (Np.px M i j) 100); [lia|reflexivity]. }
  pose proof (rect_zeros_like h w M HM) as HZ.
  unfold create_shadow, shadow_layer.
  change (Cv2.getStructuringElement_ELLIPSE 5) with (Ok (Cv2.ellipse 5)).
  cbn [rbind]. unfold GaussianBlur_checked.
  rewrite valid_ksize_lor_1 by lia. cbn [rbind]. fold B.
  rewrite (zero_image M (Cv2.dilate B (Cv2.ellipse 5)) h w HM);
    [|now apply rect_dilate
     |apply (px_dilate_const B h w HBr 0 ltac:(lia) HB);
      apply ellipse_has_centre; lia].
  rewrite Hz by apply all_zero_zeros_like.
  rewrite (zero_image M (Np.scale_astype (Np.zeros_like M) opacity) h w HM).
  - pose proof (shadow_offset_in_frame (Np.zeros_like M) h w
                  (Z.to_nat offset_x) (Z.to_nat offset_y) HZ
                  ltac:(lia) ltac:(lia)) as Hoff.
    rewrite !Z2Nat.id in Hoff by lia. rewrite Hoff. f_equal.
    apply (zero_image M _ h w HM).
    + eapply shadow_offset_rect; [exact HZ|exact Hoff].
    + intros i j Hi Hj.
      rewrite (px_translated (Np.zeros_like M) h w) by (assumption || lia).
      destruct ((i <? Z.to_nat offset_y)%nat || (j <? Z.to_nat offset_x)%nat);
        [reflexivity|].
      unfold Np.zeros_like. now rewrite (px_map_map _ M h w) by (assumption || lia).
  - eapply rect_of_dims; [apply dims_scale|exact HZ].
  - intros i j Hi Hj. unfold Np.scale_astype.
    rewrite (px_map_map _ _ h w) by assumption.
    unfold Np.zeros_like. rewrite (px_map_map _ M h w) by assumption.
    exact Hop.
Qed.

Lemma no_subject_no_shadow_witness :
  create_shadow blur1 (Np.full 13 11 100) 10 12 25 0.35%float
    = Ok (Np.zeros_like (Np.full 13 11 100)).
Proof.
  apply (no_subject_no_shadow blur1 (Np.full 13 11 100) 13 11 10 12 25
           0.35%float blur1_keeps_zero).
  - reflexivity.
  - lia.
  - reflexivity.
  - lia.
  - lia.
  - intros i j Hi Hj. unfold Np.px, Np.full.
    rewrite (nth_indep _ [] (repeat 100 11)) by (rewrite repeat_length; lia).
    rewrite nth_repeat.
    destruct (Nat.lt_ge_cases j 11) as [Hlt|Hge]; [|lia].
    rewrite (nth_indep _ 0 100) by (rewrite repeat_length; lia).
    rewrite nth_repeat. lia.
Defined.

(** ** The inner stroke *)

Lemma stroke_layer_facts (B D : image) (h w i j : nat) :
  Np.rect h w B -> Np.rect h w D -> binary_on h w B -> binary_on h w D ->
  (i < h)%nat -> (j < w)%nat ->
  (Np.px (Cv2.subtract D B) i j = 0 \/ Np.px (Cv2.subtract D B) i j = 255) /\
  (Np.px B i j = 255 -> Np.px (Cv2.subtract D B) i j = 0).
Proof.
  intros HB HD Hb Hd Hi Hj. unfold Cv2.subtract.
  rewrite (px_map2 _ _ _ h w) by assumption.
  destruct (Hb i j Hi Hj) as [-> | ->], (Hd i j Hi Hj) as [-> | ->];
    split; lia.
Qed.

Lemma stroke_stays_opaque (glow stroke : image) (h w i j : nat) :
  Np.rect h w glow -> Np.rect h w stroke ->
  (i < h)%nat -> (j < w)%nat ->
  0 <= Np.px glow i j -> Np.px stroke i j = 255 ->
  Np.px (Np.clip (Cv2.add glow stroke) 0 255) i j = 255.
Proof.
  intros Hg Hs Hi Hj H0 H255.
  assert (Ha : Np.rect h w (Cv2.add glow stroke)).
  { eapply rect_of_dims; [|exact Hg]. apply dims_add.
    unfold Np.rect in Hg, Hs. congruence. }
  unfold Np.clip. rewrite (px_map_map _ _ h w) by assumption.
  unfold Cv2.add. rewrite (px_map2 _ _ _ h w) by assumption. lia.
Qed.

Lemma px_scale_nonneg (a : image) (opacity : float) (h w i j : nat) :
  Np.rect h w a -> (i < h)%nat -> (j < w)%nat ->
  0 <= Np.px (Np.scale_astype a opacity) i j.
Proof.
  intros Ha Hi Hj. unfold Np.scale_astype.
  rewrite (px_map_map _ _ h w) by assumption. apply scale_px_nonneg.
Qed.

(** X13: the inner stroke is hard-edged and the glow never dims it.  For
    every stroke size from 1 up, in both [create_outline_from_mask] and
    [create_outline], each pixel of the inner stroke layer is 0 or 255,
    it is 0 wherever the binary subject mask is 255 (the stroke lies
    outside the subject), and wherever it is 255 the returned outline is
    255 too: the blur and the attenuation touch only the outer glow. *)
Theorem inner_stroke_is_sharp (blur : Z -> image -> image) (M : image)
  (h w : nat) (s : Z) :
  keeps_dims blur -> Np.rect h w M -> 1 <= s ->
  (exists l out,
     outline_from_mask_layers M s = Ok l /\
     create_outline_from_mask blur M s = Ok out /\
     stroke_is_sharp h w l out) /\
  (exists l out,
     outline_layers M s = Ok l /\
     create_outline blur M s = Ok out /\
     stroke_is_sharp h w l out).
Proof.
  intros Hd HM Hs.
  set (B := Cv2.threshold M 127 255).
  assert (HBr : Np.rect h w B) by now apply rect_map_map.
  assert (HBb : binary_on h w B) by now apply binary_threshold.
  split.
  - unfold create_outline_from_mask, outline_from_mask_layers.
    rewrite !ellipse_of_positive by lia. cbn [rbind inner outer].
    unfold GaussianBlur_checked. rewrite valid_ksize_4s1 by lia.
    cbn [rbind]. fold B.
    eexists _, _. split; [reflexivity|]. split; [reflexivity|].
    intros i j Hi Hj. cbn [inner binary].
    set (D := Cv2.dilate B (Cv2.ellipse (s + 1))).
    assert (HDr : Np.rect h w D) by now apply rect_dilate.
    assert (HDb : binary_on h w D) by now apply binary_dilate.
    destruct (stroke_layer_facts B D h w i j HBr HDr HBb HDb Hi Hj)
      as [Hbin Hoff].
    split; [exact Hbin|]. split; [exact Hoff|].
    intros H255. apply (stroke_stays_opaque _ _ h w); try assumption.
    + eapply rect_of_dims; [|exact HBr].
      rewrite dims_scale, Hd. rewrite dims_subtract; now rewrite dims_dilate.
    + now apply rect_subtract.
    + apply (px_scale_nonneg _ _ h w); try assumption.
      eapply rect_of_dims; [|exact HBr].
      rewrite Hd. rewrite dims_subtract; now rewrite dims_dilate.
  - unfold create_outline, outline_layers.
    change (Cv2.getStructuringElement_ELLIPSE 3) with (Ok (Cv2.ellipse 3)).
    rewrite !ellipse_of_positive by lia. cbn [rbind inner outer].
    unfold GaussianBlur_checked. rewrite valid_ksize_lor_1 by lia.
    cbn [rbind]. fold B.
    eexists _, _. split; [reflexivity|]. split; [reflexivity|].
    intros i j Hi Hj. cbn [inner binary].
    set (B' := Cv2.morphologyEx_CLOSE B (Cv2.ellipse 3)).
    assert (HB'r : Np.rect h w B').
    { unfold B', Cv2.morphologyEx_CLOSE. now apply rect_erode, rect_dilate. }
    assert (HB'b : binary_on h w B').
    { unfold B', Cv2.morphologyEx_CLOSE.
      apply binary_erode; [now apply rect_dilate|now apply binary_dilate]. }
    set (D := Cv2.dilate B' (Cv2.ellipse s)).
    assert (HDr : Np.rect h w D) by now apply rect_dilate.
    assert (HDb : binary_on h w D) by now apply binary_dilate.
    destruct (stroke_layer_facts B' D h w i j HB'r HDr HB'b HDb Hi Hj)
      as [Hbin Hoff].
    split; [exact Hbin|]. split; [exact Hoff|].
    assert (HOr : Np.rect h w
                    (Cv2.subtract (Cv2.dilate B' (Cv2.ellipse (s * 2))) D)).
    { apply rect_subtract; [now apply rect_dilate|exact HDr]. }
    intros H255. apply (stroke_stays_opaque _ _ h w); try assumption.
    + eapply rect_of_dims; [|exact HOr]. now rewrite dims_scale, Hd.
    + now apply rect_subtract.
    + apply (px_scale_nonneg _ _ h w); try assumption.
      eapply rect_of_dims; [|exact HOr]. now rewrite Hd.
Qed.

Lemma inner_stroke_is_sharp_witness :
  (exists l out,
     outline_from_mask_layers (dot 255) 2 = Ok l /\
     create_outline_from_mask blur1 (dot 255) 2 = Ok out /\
     stroke_is_sharp 3 3 l out) /\
  (exists l out,
     outline_layers (dot 255) 2 = Ok l /\
     create_outline blur1 (dot 255) 2 = Ok out /\
     stroke_is_sharp 3 3 l out).
Proof.
  apply (inner_stroke_is_sharp blur1 (dot 255) 3 3 2 blur1_keeps_dims).
  - reflexivity.
  - lia.
Defined.

(** ** The layers of a sampled frame *)

Lemma nth2_map_map {A B} (g : A -> B) (a : list (list A)) (h w i j : nat)
  (da : A) (db : B) :
  Np.rect h w a -> (i < h)%nat -> (j < w)%nat ->
  nth j (nth i (map (map g) a) []) db = g (nth j (nth i a []) da).
Proof.
  intros H Hi Hj.
  pose proof (rect_length _ _ _ H) as Hl.
  pose proof (rect_row h w a i H Hi) as Hr.
  rewrite (nth_indep _ [] (map g [])) by (rewrite length_map; lia).
  rewrite map_nth.
  rewrite (nth_indep _ db (g da)) by (rewrite length_map; lia).
  apply map_nth.
Qed.

Lemma nth2_map2 {A B C} (g : A -> B -> C) (a : list (list A))
  (b : list (list B)) (h w i j : nat) (da : A) (db : B) (dc : C) :
  Np.rect h w a -> Np.rect h w b -> (i < h)%nat -> (j < w)%nat ->
  nth j (nth i (Np.map2 g a b) []) dc
    = g (nth j (nth i a []) da) (nth j (nth i b []) db).
Proof.
  intros Ha Hb Hi Hj. unfold Np.map2.
  pose proof (rect_length _ _ _ Ha) as Hla.
  pose proof (rect_length _ _ _ Hb) as Hlb.
  pose proof (rect_row h w a i Ha Hi) as Hra.
  pose proof (rect_row h w b i Hb Hi) as Hrb.
  set (F := fun rs : list A * list B =>
              map (fun p => g (fst p) (snd p)) (combine (fst rs) (snd rs))).
  rewrite (nth_indep _ [] (F ([], [])))
    by (rewrite length_map, length_combine; lia).
  rewrite map_nth, combine_nth by lia. unfold F. cbn [fst snd].
  set (G := fun p : A * B => g (fst p) (snd p)).
  rewrite (nth_indep _ dc (G (da, db)))
    by (rewrite length_map, length_combine; lia).
  rewrite map_nth, combine_nth by lia. reflexivity.
Qed.

Lemma nth2_full {A} (h w i j : nat) (v d : A) :
  (i < h)%nat -> (j < w)%nat -> nth j (nth i (Np.full h w v) []) d = v.
Proof.
  intros Hi Hj. unfold Np.full.
  rewrite (nth_indep _ [] (repeat v w)) by (rewrite repeat_length; lia).
  rewrite nth_repeat.
  rewrite (nth_indep _ d v) by (rewrite repeat_length; lia).
  apply nth_repeat.
Qed.

(** Writing a frame-sized alpha into a frame-sized array. *)
Lemma set_alpha_same_size (dst : rgba) (alpha : image) (h w : nat) :
  Np.rect h w dst -> Np.rect h w alpha ->
  Compose.set_alpha dst alpha
    = Ok (Np.map2 (fun p a => firstn 3 p ++ [a]) dst alpha).
Proof.
  intros Hd Ha. unfold Compose.set_alpha.
  destruct (Nat.eq_dec h 0) as [->|Hh].
  - apply rect_length in Hd, Ha.
    destruct dst; [|discriminate]. destruct alpha; [|discriminate].
    reflexivity.
  - rewrite (rect_shape h w dst Hd), (rect_shape h w alpha Ha) by lia.
    unfold Np.broadcastable, Np.broadcast. rewrite !Nat.eqb_refl.
    cbn [orb andb]. now rewrite map_id.
Qed.

Lemma flat_colour_pixel (h w : nat) (colour : Z) (alpha : image) (i j : nat) :
  Np.rect h w alpha -> (i < h)%nat -> (j < w)%nat ->
  exists out,
    Compose.flat_colour h w colour alpha = Ok out /\
    pixel out i j = [colour; colour; colour; Np.px alpha i j].
Proof.
  intros Ha Hi Hj. unfold Compose.flat_colour.
  rewrite (set_alpha_same_size _ alpha h w (rect_full h w _) Ha).
  eexists. split; [reflexivity|]. unfold pixel, Np.px.
  rewrite (nth2_map2 _ _ _ h w i j [] 0 [])
    by (assumption || apply rect_full).
  now rewrite nth2_full by assumption.
Qed.

Lemma create_outline_ok (blur : Z -> image -> image) (alpha : image) (s : Z) :
  1 <= s -> exists out, create_outline blur alpha s = Ok out.
Proof.
  intros Hs. unfold create_outline, outline_layers.
  change (Cv2.getStructuringElement_ELLIPSE 3) with (Ok (Cv2.ellipse 3)).
  rewrite !ellipse_of_positive by lia. cbn [rbind inner outer].
  unfold GaussianBlur_checked. rewrite valid_ksize_lor_1 by lia.
  cbn [rbind]. eexists. reflexivity.
Qed.

Lemma create_shadow_default_ok (blur : Z -> image -> image) (alpha : image)
  (h w : nat) :
  keeps_dims blur -> Np.rect h w alpha -> (12 <= h)%nat -> (10 <= w)%nat ->
  exists out, create_shadow_default blur alpha = Ok out.
Proof.
  intros Hblur Ha Hh Hw. unfold create_shadow_default, create_shadow.
  pose proof (shadow_layer_ok blur alpha 25 0.35%float ltac:(lia)) as Hok.
  destruct (shadow_layer blur alpha 25 0.35%float) as [shadow|e] eqn:Es;
    [|discriminate].
  assert (Hsh : Np.rect h w shadow).
  { unfold Np.rect. now rewrite (shadow_layer_dims blur _ _ _ _ Hblur Es). }
  cbn [rbind].
  pose proof (shadow_offset_in_frame shadow h w 10 12 Hsh Hw Hh) as Hoff.
  change (Z.of_nat 10) with 10 in Hoff. change (Z.of_nat 12) with 12 in Hoff.
  rewrite Hoff. eexists. reflexivity.
Qed.

(** X14: what a sampled frame becomes.  When the Mask Source returns a
    4-channel array of the frame's size, the stroke size is at least 1 and
    the frame is at least 12 rows by 10 columns (so that the default
    shadow offset fits), [process_video_fast]'s fresh computation does not
    fail, and pixel by pixel: the foreground has the Mask Source's colours
    with red and blue swapped and the softened mask as alpha; the outline
    is white with the outline alpha; the shadow is black with the shadow
    alpha. *)
Theorem sampled_frame_layers {Frame : Type} (blur : Z -> image -> image)
  (remove_rgba : Frame -> ndarray) (c : capture Frame) (stroke : Z)
  (f : Frame) (a : rgba) :
  keeps_dims blur ->
  remove_rgba f = Arr3 a ->
  Np.rect (height c) (width c) a ->
  Compose.channels a = 4 ->
  1 <= stroke -> (12 <= height c)%nat -> (10 <= width c)%nat ->
  exists s oa sa,
    fast_fresh blur remove_rgba c stroke f = Ok s /\
    create_outline blur (blur 3 (Compose.channel 3 a)) stroke = Ok oa /\
    create_shadow_default blur (blur 3 (Compose.channel 3 a)) = Ok sa /\
    forall i j, (i < height c)%nat -> (j < width c)%nat ->
      pixel (fg_rgba s) i j
        = [nth 2 (pixel a i j) 0; nth 1 (pixel a i j) 0;
           nth 0 (pixel a i j) 0;
           Np.px (blur 3 (Compose.channel 3 a)) i j] /\
      pixel (outline_rgba s) i j = [255; 255; 255; Np.px oa i j] /\
      pixel (shadow_rgba s) i j = [0; 0; 0; Np.px sa i j].
Proof.
  intros Hblur Er Ha Hch Hs Hh Hw.
  set (alpha := blur 3 (Compose.channel 3 a)).
  assert (Hal : Np.rect (height c) (width c) alpha).
  { unfold alpha, Np.rect. rewrite Hblur. unfold Compose.channel.
    now rewrite dims_map_map. }
  destruct (create_outline_ok blur alpha stroke Hs) as [oa Eoa].
  destruct (create_shadow_default_ok blur alpha _ _ Hblur Hal Hh Hw)
    as [sa Esa].
  assert (Hoa : Np.rect (height c) (width c) oa).
  { unfold Np.rect. now rewrite (create_outline_dims blur _ _ _ Hblur Eoa). }
  assert (Hsa : Np.rect (height c) (width c) sa).
  { eapply create_shadow_rect; [exact Hblur|exact Hal|exact Esa]. }
  assert (Hbgra : Np.rect (height c) (width c) (Compose.cvtColor_RGBA2BGRA a)).
  { now apply rect_map_map. }
  unfold fast_fresh, fast_alpha. rewrite Er, Hch.
  change (4 =? 4) with true. cbn [rbind fst snd].
  unfold GaussianBlur_checked at 1. change (Cv2.valid_ksize 3) with true.
  cbn [rbind]. fold alpha.
  rewrite (set_alpha_same_size _ alpha _ _ Hbgra Hal). cbn [rbind].
  rewrite Eoa. cbn [rbind].
  unfold Compose.flat_colour.
  rewrite (set_alpha_same_size _ oa _ _ (rect_full _ _ _) Hoa). cbn [rbind].
  rewrite Esa. cbn [rbind].
  rewrite (set_alpha_same_size _ sa _ _ (rect_full _ _ _) Hsa). cbn [rbind].
  eexists _, oa, sa. split; [reflexivity|]. split; [reflexivity|].
  split; [reflexivity|].
  intros i j Hi Hj. cbn [fg_rgba outline_rgba shadow_rgba].
  unfold pixel, Np.px. split; [|split].
  - rewrite (nth2_map2 _ _ _ (height c) (width c) i j [] 0 [])
      by assumption.
    unfold Compose.cvtColor_RGBA2BGRA.
    rewrite (nth2_map_map _ a (height c) (width c) i j [] [])
      by assumption.
    reflexivity.
  - rewrite (nth2_map2 _ _ _ (height c) (width c) i j [] 0 [])
      by (assumption || apply rect_full).
    now rewrite nth2_full by assumption.
  - rewrite (nth2_map2 _ _ _ (height c) (width c) i j [] 0 [])
      by (assumption || apply rect_full).
    now rewrite nth2_full by assumption.
Qed.

Lemma sampled_frame_layers_witness :
  exists s oa sa,
    fast_fresh blur1 stub_rgba
      {| frames := [Np.full 12 10 200]; width := 10; height := 12 |} 12
      (Np.full 12 10 200) = Ok s /\
    create_outline blur1
      (blur1 3 (Compose.channel 3
                  (map (map (fun v => [v; v; v; v])) (Np.full 12 10 200))))
      12 = Ok oa /\
    create_shadow_default blur1
      (blur1 3 (Compose.channel 3
                  (map (map (fun v => [v; v; v; v])) (Np.full 12 10 200))))
      = Ok sa /\
    forall i j, (i < 12)%nat -> (j < 10)%nat ->
      pixel (fg_rgba s) i j
        = [nth 2 (pixel (map (map (fun v => [v; v; v; v]))
                           (Np.full 12 10 200)) i j) 0;
           nth 1 (pixel (map (map (fun v => [v; v; v; v]))
                           (Np.full 12 10 200)) i j) 0;
           nth 0 (pixel (map (map (fun v => [v; v; v; v]))
                           (Np.full 12 10 200)) i j) 0;
           Np.px (blur1 3 (Compose.channel 3
                    (map (map (fun v => [v; v; v; v]))
                       (Np.full 12 10 200)))) i j] /\
      pixel (outline_rgba s) i j = [255; 255; 255; Np.px oa i j] /\
      pixel (shadow_rgba s) i j = [0; 0; 0; Np.px sa i j].
Proof.
  apply (sampled_frame_layers blur1 stub_rgba
           {| frames := [Np.full 12 10 200]; width := 10; height := 12 |} 12
           (Np.full 12 10 200)
           (map (map (fun v => [v; v; v; v])) (Np.full 12 10 200))
           blur1_keeps_dims).
  - reflexivity.
  - reflexivity.
  - reflexivity.
  - lia.
  - cbn [height]. lia.
  - cbn [width]. lia.
Defined.

(** ** Stroke size 1 *)

Lemma neighbourhood_inv (a : image) (k : Cv2.kernel) (h w i j : nat) (v : Z) :
  Np.rect h w a -> In v (Cv2.neighbourhood a k i j) ->
  exists o, In o k /\
    0 <= Z.of_nat i + fst o < Z.of_nat h /\
    0 <= Z.of_nat j + snd o < Z.of_nat w /\
    v = Np.px a (Z.to_nat (Z.of_nat i + fst o)) (Z.to_nat (Z.of_nat j + snd o)).
Proof.
  intros H Hin. unfold Cv2.neighbourhood in Hin.
  apply in_flat_map in Hin. destruct Hin as [o [Ho Hv]].
  destruct (Cv2.at_offset a i j o) as [v0|] eqn:E; [|contradiction].
  destruct Hv as [->|[]].
  unfold Cv2.at_offset in E.
  destruct ((0 <=? Z.of_nat i + fst o) && (0 <=? Z.of_nat j + snd o)) eqn:G;
    [|discriminate].
  apply andb_true_iff in G. destruct G as [Gy Gx].
  apply Z.leb_le in Gy, Gx.
  remember (Z.to_nat (Z.of_nat i + fst o)) as y.
  remember (Z.to_nat (Z.of_nat j + snd o)) as x.
  destruct (nth_error a y) as [row|] eqn:Er; [|discriminate].
  pose proof (rect_length _ _ _ H) as Hl.
  assert (Hy : (y < h)%nat).
  { rewrite <- Hl. apply nth_error_Some. congruence. }
  pose proof (rect_row h w a y H Hy) as Hr.
  apply (nth_error_nth _ _ []) in Er.
  assert (Hx : (x < w)%nat).
  { rewrite <- Hr, Er. apply nth_error_Some. congruence. }
  exists o. split; [exact Ho|]. split; [lia|]. split; [lia|].
  rewrite <- Heqy, <- Heqx.
  unfold Np.px. rewrite Er. symmetry. now apply nth_error_nth.
Qed.

Lemma uint8_of_px (a : image) (h w : nat) :
  Np.rect h w a ->
  (forall i j, (i < h)%nat -> (j < w)%nat -> 0 <= Np.px a i j <= 255) ->
  uint8_valued a.
Proof.
  intros H Hpx. pose proof (rect_length _ _ _ H) as Hl.
  unfold uint8_valued. apply Forall_forall. intros r Hr.
  destruct (In_nth _ _ [] Hr) as [i [Hi <-]]. rewrite Hl in Hi.
  apply Forall_forall. intros v Hv.
  destruct (In_nth _ _ 0 Hv) as [j [Hj <-]].
  rewrite (rect_row h w a i H Hi) in Hj. now apply Hpx.
Qed.

Lemma scale_px_06_pos (v : Z) : 2 <= v <= 255 -> 0 < Np.scale_px 0.6%float v.
Proof.
  intros H.
  assert (Hall : forallb (fun n => 0 <? Np.scale_px 0.6%float (Z.of_nat n))
                         (seq 2 254) = true) by (vm_compute; reflexivity).
  rewrite forallb_forall in Hall. specialize (Hall (Z.to_nat v)).
  rewrite Z2Nat.id in Hall by lia. apply Z.ltb_lt, Hall. apply in_seq. lia.
Qed.

(** Between a subject pixel and a background pixel of a line of a binary
    mask, two neighbours differ. *)
Lemma flip_between (f : nat -> Z) (a b : nat) :
  (a <= b)%nat -> f a <> f b ->
  exists n, (a <= n < b)%nat /\ f n <> f (S n).
Proof.
  induction b as [|b IH]; intros Hab Hne.
  - replace a with 0%nat in Hne by lia. contradiction.
  - destruct (Nat.eq_dec a (S b)) as [->|Hn]; [contradiction|].
    destruct (Z.eq_dec (f b) (f (S b))) as [E|E].
    + destruct IH as [n [Hn' Hf]]; [lia|congruence|].
      exists n. split; [lia|exact Hf].
    + exists b. split; [lia|exact E].
Qed.

Lemma flip_binary (f : nat -> Z) (m a b : nat) :
  (forall n, (n < m)%nat -> f n = 0 \/ f n = 255) ->
  (a < m)%nat -> (b < m)%nat -> f a = 255 -> f b = 0 ->
  exists n, (S n < m)%nat /\
    ((f n = 0 /\ f (S n) = 255) \/ (f n = 255 /\ f (S n) = 0)).
Proof.
  intros Hbin Ha Hb Hfa Hfb.
  assert (Hex : exists n, (S n < m)%nat /\ f n <> f (S n)).
  { destruct (Nat.le_ge_cases a b) as [Hab|Hba].
    - destruct (flip_between f a b Hab) as [n [Hn Hf]]; [lia|].
      exists n. split; [lia|exact Hf].
    - destruct (flip_between f b a Hba) as [n [Hn Hf]]; [lia|].
      exists n. split; [lia|exact Hf]. }
  destruct Hex as [n [Hn Hf]]. exists n. split; [exact Hn|].
  destruct (Hbin n ltac:(lia)) as [E0|E0], (Hbin (S n) Hn) as [E1|E1];
    try (left; split; assumption); try (right; split; assumption);
    exfalso; apply Hf; congruence.
Qed.

(** A binary mask with subject and background has a background pixel with
    a subject pixel directly above, below, left or right of it. *)
Lemma boundary_pair (B : image) (h w : nat) :
  Np.rect h w B -> binary_on h w B ->
  (exists i j, (i < h)%nat /\ (j < w)%nat /\ Np.px B i j = 255) ->
  (exists i j, (i < h)%nat /\ (j < w)%nat /\ Np.px B i j = 0) ->
  exists i j o,
    (i < h)%nat /\ (j < w)%nat /\ Np.px B i j = 0 /\
    In o [(1, 0); (-1, 0); (0, 1); (0, -1)] /\
    0 <= Z.of_nat i + fst o < Z.of_nat h /\
    0 <= Z.of_nat j + snd o < Z.of_nat w /\
    Np.px B (Z.to_nat (Z.of_nat i + fst o)) (Z.to_nat (Z.of_nat j + snd o))
      = 255.
Proof.
  intros HB Hbin [a [b [Ha [Hb Hs]]]] [c [d [Hc [Hd Hg]]]].
  destruct (Hbin a d Ha Hd) as [Hmid|Hmid].
  - destruct (flip_binary (fun n => Np.px B a n) w b d) as [n [Hn Hf]];
      try assumption; [intros n Hn; now apply Hbin|].
    destruct Hf as [[E0 E1]|[E1 E0]].
    + exists a, n, (0, 1). cbn [fst snd].
      split; [exact Ha|]. split; [lia|]. split; [exact E0|].
      split; [cbn; tauto|]. split; [lia|]. split; [lia|].
      replace (Z.to_nat (Z.of_nat a + 0)) with a by lia.
      replace (Z.to_nat (Z.of_nat n + 1)) with (S n) by lia. exact E1.
    + exists a, (S n), (0, -1). cbn [fst snd].
      split; [exact Ha|]. split; [lia|]. split; [exact E0|].
      split; [cbn; tauto|]. split; [lia|]. split; [lia|].
      replace (Z.to_nat (Z.of_nat a + 0)) with a by lia.
      replace (Z.to_nat (Z.of_nat (S n) + -1)) with n by lia. exact E1.
  - destruct (flip_binary (fun n => Np.px B n d) h a c) as [n [Hn Hf]];
      try assumption; [intros n Hn; now apply Hbin|].
    destruct Hf as [[E0 E1]|[E1 E0]].
    + exists n, d, (1, 0). cbn [fst snd].
      split; [lia|]. split; [exact Hd|]. split; [exact E0|].
      split; [cbn; tauto|]. split; [lia|]. split; [lia|].
      replace (Z.to_nat (Z.of_nat n + 1)) with (S n) by lia.
      replace (Z.to_nat (Z.of_nat d + 0)) with d by lia. exact E1.
    + exists (S n), d, (-1, 0). cbn [fst snd].
      split; [lia|]. split; [exact Hd|]. split; [exact E0|].
      split; [cbn; tauto|]. split; [lia|]. split; [lia|].
      replace (Z.to_nat (Z.of_nat (S n) + -1)) with n by lia.
      replace (Z.to_nat (Z.of_nat d + 0)) with d by lia. exact E1.
Qed.

Lemma ellipse_4_has_neighbours (o : Z * Z) :
  In o [(1, 0); (-1, 0); (0, 1); (0, -1)] -> In o (Cv2.ellipse 4).
Proof.
  intros [<-|[<-|[<-|[<-|[]]]]]; vm_compute; tauto.
Qed.

(** With stroke size 1 the glow region of create-human-outline.py, built
    with the 4 x 4 element, reaches every background pixel next to the
    subject, so the outline of a mask with subject and background is not
    empty. *)
Lemma stroke_one_nonempty (blur : Z -> image -> image) (M : image)
  (h w : nat) :
  keeps_dims blur -> peak_survives blur -> Np.rect h w M ->
  non_trivial M h w ->
  exists out i j,
    create_outline_from_mask blur M 1 = Ok out /\
    (i < h)%nat /\ (j < w)%nat /\ 0 < Np.px out i j.
Proof.
  intros Hd Hpk HM [[a [b [Ha [Hb Hs]]]] [c [d [Hc [Hdd Hg]]]]].
  set (B := Cv2.threshold M 127 255).
  assert (HBr : Np.rect h w B) by now apply rect_map_map.
  assert (HBb : binary_on h w B) by now apply binary_threshold.
  destruct (boundary_pair B h w HBr HBb)
    as (i & j & o & Hi & Hj & H0 & Ho & Hy & Hx & H255).
  { exists a, b. split; [exact Ha|]. split; [exact Hb|]. unfold B.
    rewrite (px_threshold M _ _ h w) by assumption. unfold Cv2.threshold_px.
    destruct (Z.gtb_spec (Np.px M a b) 127); [reflexivity|lia]. }
  { exists c, d. split; [exact Hc|]. split; [exact Hdd|]. unfold B.
    rewrite (px_threshold M _ _ h w) by assumption. unfold Cv2.threshold_px.
    destruct (Z.gtb_spec (Np.px M c d) 127); [lia|reflexivity]. }
  unfold create_outline_from_mask, outline_from_mask_layers.
  rewrite !ellipse_of_positive by lia. cbn [rbind inner outer].
  unfold GaussianBlur_checked. rewrite valid_ksize_4s1 by lia.
  cbn [rbind]. fold B.
  change (1 * 3 + 1) with 4. change (1 * 4 + 1) with 5.
  eexists _, i, j. split; [reflexivity|]. split; [exact Hi|].
  split; [exact Hj|].
  set (D := Cv2.dilate B (Cv2.ellipse 4)).
  set (G := Cv2.subtract D B).
  set (I := Cv2.subtract (Cv2.dilate B (Cv2.ellipse (1 + 1))) B).
  assert (HDr : Np.rect h w D) by now apply rect_dilate.
  assert (HDb : binary_on h w D) by now apply binary_dilate.
  assert (HGr : Np.rect h w G) by now apply rect_subtract.
  assert (HIr : Np.rect h w I) by (apply rect_subtract; [now apply rect_dilate|exact HBr]).
  assert (HD255 : Np.px D i j = 255).
  { assert (Hge : 255 <= Np.px D i j).
    { unfold D. rewrite (px_dilate B _ h w) by assumption.
      apply fold_max_ge.
      apply (in_neighbourhood B _ i j o); [now apply ellipse_4_has_neighbours|].
      rewrite (at_offset_in_frame B h w i j o HBr Hy Hx). now rewrite H255. }
    destruct (HDb i j Hi Hj); lia. }
  assert (HG255 : Np.px G i j = 255).
  { unfold G, Cv2.subtract. rewrite (px_map2 _ _ _ h w) by assumption.
    rewrite HD255, H0. reflexivity. }
  assert (HGu : uint8_valued G).
  { apply (uint8_of_px G h w HGr). intros y x Hy' Hx'.
    unfold G, Cv2.subtract. rewrite (px_map2 _ _ _ h w) by assumption.
    destruct (HDb y x Hy' Hx') as [-> | ->],
             (HBb y x Hy' Hx') as [-> | ->]; lia. }
  destruct (Hpk G i j HGu HG255) as [Hlo Hhi].
  pose proof (scale_px_06_pos _ (conj Hlo Hhi)) as Hpos.
  assert (Hbl : Np.rect h w (blur 5 G)).
  { unfold Np.rect. now rewrite Hd. }
  assert (Hsc : Np.rect h w (Np.scale_astype (blur 5 G) 0.6%float)).
  { eapply rect_of_dims; [apply dims_scale|exact Hbl]. }
  assert (Hadd : Np.rect h w
                   (Cv2.add (Np.scale_astype (blur 5 G) 0.6%float) I)).
  { eapply rect_of_dims; [|exact Hsc]. apply dims_add.
    unfold Np.rect in HIr, Hsc. congruence. }
  unfold Np.clip. rewrite (px_map_map _ _ h w) by assumption.
  unfold Cv2.add. rewrite (px_map2 _ _ _ h w) by assumption.
  unfold Np.scale_astype. rewrite (px_map_map _ _ h w) by assumption.
  assert (HI0 : 0 <= Np.px I i j).
  { unfold I, Cv2.subtract.
    rewrite (px_map2 _ _ _ h w);
      try assumption; [lia|now apply rect_dilate]. }
  lia.
Qed.

(** With stroke size 1 the inner element of extract-foreground.py is 1 x 1
    and its outer element 2 x 2, the blur has width 1: the outline is 127
    at the background pixels of the closed mask directly below or right
    of a subject pixel, and 0 everywhere else. *)
Lemma create_outline_stroke_one (blur : Z -> image -> image) (M : image)
  (h w : nat) :
  (forall a, blur 1 a = a) -> Np.rect h w M ->
  exists out,
    create_outline blur M 1 = Ok out /\
    forall i j, (i < h)%nat -> (j < w)%nat ->
      let B' := Cv2.morphologyEx_CLOSE (Cv2.threshold M 127 255)
                  (Cv2.ellipse 3) in
      (Np.px B' i j = 0 -> subject_above_or_left B' i j ->
       Np.px out i j = 127) /\
      (Np.px B' i j = 255 \/ ~ subject_above_or_left B' i j ->
       Np.px out i j = 0).
Proof.
  intros Hb1 HM.
  set (B := Cv2.threshold M 127 255).
  assert (HBr : Np.rect h w B) by now apply rect_map_map.
  assert (HBb : binary_on h w B) by now apply binary_threshold.
  unfold create_outline, outline_layers.
  change (Cv2.getStructuringElement_ELLIPSE 3) with (Ok (Cv2.ellipse 3)).
  change (Cv2.getStructuringElement_ELLIPSE 1)
    with (Ok [(0, 0)] : result Cv2.kernel).
  change (Cv2.getStructuringElement_ELLIPSE (1 * 2))
    with (Ok [(-1, 0); (0, -1); (0, 0)] : result Cv2.kernel).
  cbn [rbind inner outer]. unfold GaussianBlur_checked.
  change (Cv2.valid_ksize (Z.lor 1 1)) with true. cbn [rbind].
  change (Z.lor 1 1) with 1. rewrite Hb1. fold B.
  eexists. split; [reflexivity|]. intros i j Hi Hj. cbv zeta.
  set (B' := Cv2.morphologyEx_CLOSE B (Cv2.ellipse 3)).
  assert (HB'r : Np.rect h w B').
  { unfold B', Cv2.morphologyEx_CLOSE. now apply rect_erode, rect_dilate. }
  assert (HB'b : binary_on h w B').
  { unfold B', Cv2.morphologyEx_CLOSE.
    apply binary_erode; [now apply rect_dilate|now apply binary_dilate]. }
  set (k2 := [(-1, 0); (0, -1); (0, 0)]).
  set (D1 := Cv2.dilate B' [(0, 0)]).
  set (D2 := Cv2.dilate B' k2).
  assert (HD1r : Np.rect h w D1) by now apply rect_dilate.
  assert (HD2r : Np.rect h w D2) by now apply rect_dilate.
  assert (HD2b : binary_on h w D2) by now apply binary_dilate.
  assert (HD1 : Np.px D1 i j = Np.px B' i j).
  { unfold D1. apply (px_dilate_unit B' h w); try assumption.
    destruct (HB'b i j Hi Hj); lia. }
  assert (HOr : Np.rect h w (Cv2.subtract D2 D1)) by now apply rect_subtract.
  assert (HIr : Np.rect h w (Cv2.subtract D1 B')) by now apply rect_subtract.
  assert (Hsc : Np.rect h w (Np.scale_astype (Cv2.subtract D2 D1) 0.5%float)).
  { eapply rect_of_dims; [apply dims_scale|exact HOr]. }
  assert (Hadd : Np.rect h w
                   (Cv2.add (Np.scale_astype (Cv2.subtract D2 D1) 0.5%float)
                            (Cv2.subtract D1 B'))).
  { eapply rect_of_dims; [|exact Hsc]. apply dims_add.
    unfold Np.rect in HIr, Hsc. congruence. }
  assert (Hout : forall v, Np.px D2 i j = v -> (v = 0 \/ v = 255) ->
            Np.px (Np.clip (Cv2.add (Np.scale_astype (Cv2.subtract D2 D1)
                                       0.5%float)
                                    (Cv2.subtract D1 B')) 0 255) i j
              = if (v =? 255) && (Np.px B' i j =? 0) then 127 else 0).
  { intros v Hv Hv01.
    unfold Np.clip. rewrite (px_map_map _ _ h w) by assumption.
    unfold Cv2.add. rewrite (px_map2 _ _ _ h w) by assumption.
    unfold Np.scale_astype. rewrite (px_map_map _ _ h w) by assumption.
    unfold Cv2.subtract. rewrite !(px_map2 _ _ _ h w) by assumption.
    rewrite HD1, Hv.
    destruct Hv01 as [-> | ->], (HB'b i j Hi Hj) as [-> | ->];
      vm_compute; reflexivity. }
  assert (Hcentre : Np.px B' i j <= Np.px D2 i j).
  { unfold D2. rewrite (px_dilate B' k2 h w) by assumption.
    apply fold_max_ge.
    apply (centre_in_neighbourhood B' k2 h w); try assumption.
    cbn; tauto. }
  split.
  - intros Hbg Hnb.
    assert (Hge : 255 <= Np.px D2 i j).
    { unfold D2. rewrite (px_dilate B' k2 h w) by assumption.
      apply fold_max_ge. destruct Hnb as [[Hi0 Hup]|[Hj0 Hleft]].
      - apply (in_neighbourhood B' k2 i j (-1, 0)); [now left|].
        rewrite (at_offset_in_frame B' h w i j (-1, 0) HB'r)
          by (cbn [fst snd]; lia).
        cbn [fst snd].
        replace (Z.to_nat (Z.of_nat i + -1)) with (i - 1)%nat by lia.
        replace (Z.to_nat (Z.of_nat j + 0)) with j by lia.
        now rewrite Hup.
      - apply (in_neighbourhood B' k2 i j (0, -1)); [right; now left|].
        rewrite (at_offset_in_frame B' h w i j (0, -1) HB'r)
          by (cbn [fst snd]; lia).
        cbn [fst snd].
        replace (Z.to_nat (Z.of_nat i + 0)) with i by lia.
        replace (Z.to_nat (Z.of_nat j + -1)) with (j - 1)%nat by lia.
        now rewrite Hleft. }
    rewrite (Hout 255); [now rewrite Hbg| |now right].
    destruct (HD2b i j Hi Hj); lia.
  - intros Hno.
    destruct (HB'b i j Hi Hj) as [Hbg|Hfg].
    + destruct Hno as [Hfg|Hno]; [congruence|].
      rewrite (Hout 0); [reflexivity| |now left].
      unfold D2. rewrite (px_dilate B' k2 h w) by assumption.
      apply (fold_max_pred (fun v => v = 0)); [reflexivity|].
      intros v Hv.
      destruct (neighbourhood_inv B' k2 h w i j v HB'r Hv)
        as (o & Ho & Hy & Hx & ->).
      destruct Ho as [<-|[<-|[<-|[]]]]; cbn [fst snd] in *.
      * replace (Z.to_nat (Z.of_nat i + -1)) with (i - 1)%nat by lia.
        replace (Z.to_nat (Z.of_nat j + 0)) with j by lia.
        destruct (HB'b (i - 1)%nat j ltac:(lia) Hj) as [E|E]; [exact E|].
        exfalso. apply Hno. left. split; [lia|exact E].
      * replace (Z.to_nat (Z.of_nat i + 0)) with i by lia.
        replace (Z.to_nat (Z.of_nat j + -1)) with (j - 1)%nat by lia.
        destruct (HB'b i (j - 1)%nat Hi ltac:(lia)) as [E|E]; [exact E|].
        exfalso. apply Hno. right. split; [lia|exact E].
      * replace (Z.to_nat (Z.of_nat i + 0)) with i by lia.
        replace (Z.to_nat (Z.of_nat j + 0)) with j by lia. exact Hbg.
    + rewrite (Hout 255); [now rewrite Hfg| |now right].
      destruct (HD2b i j Hi Hj); lia.
Qed.

Lemma blur1_peak_survives : peak_survives blur1.
Proof. intros a i j _ E. unfold blur1. rewrite E. lia. Qed.

(** C6, as the code has it.  For stroke size 1 and every mask with a
    subject and a background pixel, [create_outline_from_mask] returns a
    non-empty outline (some pixel above 0), and that outline is 255 at
    every background pixel directly below or right of a subject pixel.
    [create_outline] does not: at stroke size 1 its outline is 127 at the
    background pixels of the closed mask directly below or right of a
    subject pixel and 0 everywhere else, so it is empty when the mask has
    no such pixel.  Stroke size 0 is not validated:
    [create_outline_from_mask] returns the all-zero outline without error,
    while [create_outline] raises OpenCV's error for the empty element. *)
Theorem stroke_size_boundary
  (blur : Z -> image -> image) (M : image) (h w : nat) :
  keeps_dims blur -> (forall a, blur 1 a = a) -> peak_survives blur ->
  Np.rect h w M ->
  (non_trivial M h w ->
   exists out i j,
     create_outline_from_mask blur M 1 = Ok out /\
     (i < h)%nat /\ (j < w)%nat /\ 0 < Np.px out i j) /\
  (forall i j,
     (i < h)%nat -> (j < w)%nat ->
     Np.px (Cv2.threshold M 127 255) i j = 0 ->
     subject_above_or_left (Cv2.threshold M 127 255) i j ->
     exists out,
       create_outline_from_mask blur M 1 = Ok out /\ Np.px out i j = 255) /\
  (exists out,
     create_outline blur M 1 = Ok out /\
     forall i j, (i < h)%nat -> (j < w)%nat ->
       let B' := Cv2.morphologyEx_CLOSE (Cv2.threshold M 127 255)
                   (Cv2.ellipse 3) in
       (Np.px B' i j = 0 -> subject_above_or_left B' i j ->
        Np.px out i j = 127) /\
       (Np.px B' i j = 255 \/ ~ subject_above_or_left B' i j ->
        Np.px out i j = 0)) /\
  create_outline_from_mask blur M 0 = Ok (Np.zeros_like M) /\
  create_outline blur M 0 = Raise cv2_error.
Proof.
  intros Hblur Hb1 Hpk Hrect. split; [|split; [|split; [|split]]].
  - intros Hnt. now apply stroke_one_nonempty.
  - intros i j. now apply stroke_one_rim.
  - now apply create_outline_stroke_one.
  - now apply (stroke_zero_from_mask blur M h w).
  - apply stroke_zero_fast.
Qed.

Lemma stroke_size_boundary_witness :
  (exists out i j,
     create_outline_from_mask blur1 corner 1 = Ok out /\
     (i < 3)%nat /\ (j < 3)%nat /\ 0 < Np.px out i j) /\
  create_outline_from_mask blur1 corner 0 = Ok (Np.zeros_like corner) /\
  create_outline blur1 corner 0 = Raise cv2_error.
Proof.
  destruct (stroke_size_boundary blur1 corner 3 3 blur1_keeps_dims
              (fun a => eq_refl) blur1_peak_survives eq_refl)
    as (Hne & _ & _ & Hzero & Hraise).
  split; [|split; [exact Hzero|exact Hraise]].
  apply Hne. split.
  - exists 1%nat, 1%nat. split; [lia|]. split; [lia|]. reflexivity.
  - exists 0%nat, 0%nat. split; [lia|]. split; [lia|]. discriminate.
Defined.
